(** * game-capture: the capture pipeline of [src/game-capture/src/main.cpp]

    A shallow embedding of the window-capture service: the bitmap encoder
    [BmpWriter::write], the atomic file writer [save_staging_to_file], the
    shared frame buffer with its producer (the [FrameArrived] callback) and
    its consumer (the saver thread), the supervisor loop of [main], and the
    searches for the process and its window.

    Conventions.
    - A C++ [int] is a [Z] in the range of 32 bits.  Signed overflow has no
      defined behaviour in C++, so signed arithmetic is checked: it yields
      [None] when the mathematical result leaves the range.
    - [UINT]/[DWORD] arithmetic wraps modulo [2^32], [uint64_t] modulo [2^64].
    - A byte is a [Z]; host buffers are [list Z]; reading outside a buffer
      has no defined behaviour and yields [None].
    - Calls into the platform (Direct3D, WinRT capture, the file system, the
      clocks) take their outcome from an explicit environment record. *)

From Stdlib Require Import ZArith Lia List String Ascii Bool Sorted.
From stdpp Require Import base option list gmap strings numbers.

Local Open Scope Z_scope.
Set Warnings "-clear-no-such-hyp".

(** ** Machine integers *)

Definition INT_MIN : Z := - 2 ^ 31.
Definition INT_MAX : Z := 2 ^ 31 - 1.

(** The value of a signed expression, when it is representable. *)
Definition to_int (z : Z) : option Z :=
  if (INT_MIN <=? z) && (z <=? INT_MAX) then Some z else None.

Definition int_add (a b : Z) : option Z := to_int (a + b).
Definition int_mul (a b : Z) : option Z := to_int (a * b).
Definition int_neg (a : Z) : option Z := to_int (- a).

(** Conversion to a 32-bit unsigned value, and to a 64-bit one. *)
Definition uint32 (z : Z) : Z := z mod 2 ^ 32.
Definition uint64 (z : Z) : Z := z mod 2 ^ 64.

(** ** Host memory *)

(** [p[i]] for a buffer [p] of bytes. *)
Definition rd (buf : list Z) (i : Z) : option Z :=
  if i <? 0 then None else buf !! Z.to_nat i.

(** Little-endian images of 16- and 32-bit fields, as [fwrite] of a struct
    lays them out. *)
Definition le16 (z : Z) : list Z :=
  [Z.land z 255; Z.land (Z.shiftr z 8) 255].
Definition le32 (z : Z) : list Z :=
  [Z.land z 255; Z.land (Z.shiftr z 8) 255;
   Z.land (Z.shiftr z 16) 255; Z.land (Z.shiftr z 24) 255].

(** Reading a field back from a file image. *)
Definition get16 (l : list Z) (off : nat) : Z :=
  match drop off l with
  | b0 :: b1 :: _ => b0 + 256 * b1
  | _ => 0
  end.
Definition get32 (l : list Z) (off : nat) : Z :=
  match drop off l with
  | b0 :: b1 :: b2 :: b3 :: _ => b0 + 256 * b1 + 65536 * b2 + 16777216 * b3
  | _ => 0
  end.
(** The same field read as a signed [LONG]. *)
Definition get32s (l : list Z) (off : nat) : Z :=
  let u := get32 l off in if u <? 2 ^ 31 then u else u - 2 ^ 32.

(** ** The bitmap encoder: [BmpWriter::write] *)

Module BmpWriter.

(** Modelled from the spec: the layout of [BITMAPFILEHEADER] and
    [BITMAPINFOHEADER] and the constant [BI_RGB] are declared in the
    platform headers, which are not part of the sources; the spec fixes the
    format as an uncompressed 24-bit-per-pixel bitmap, whose two headers
    take 14 and 40 bytes, packed, little-endian. *)
Record BITMAPFILEHEADER := {
  bfType : Z; bfSize : Z; bfReserved1 : Z; bfReserved2 : Z; bfOffBits : Z }.

Record BITMAPINFOHEADER := {
  biSize : Z; biWidth : Z; biHeight : Z; biPlanes : Z; biBitCount : Z;
  biCompression : Z; biSizeImage : Z; biXPelsPerMeter : Z;
  biYPelsPerMeter : Z; biClrUsed : Z; biClrImportant : Z }.

Definition BI_RGB : Z := 0.
Definition sizeof_fh : Z := 14.
Definition sizeof_ih : Z := 40.

Definition fh_bytes (fh : BITMAPFILEHEADER) : list Z :=
  le16 (bfType fh) ++ le32 (bfSize fh) ++ le16 (bfReserved1 fh)
  ++ le16 (bfReserved2 fh) ++ le32 (bfOffBits fh).

Definition ih_bytes (ih : BITMAPINFOHEADER) : list Z :=
  le32 (biSize ih) ++ le32 (biWidth ih) ++ le32 (biHeight ih)
  ++ le16 (biPlanes ih) ++ le16 (biBitCount ih) ++ le32 (biCompression ih)
  ++ le32 (biSizeImage ih) ++ le32 (biXPelsPerMeter ih)
  ++ le32 (biYPelsPerMeter ih) ++ le32 (biClrUsed ih)
  ++ le32 (biClrImportant ih).

(** The body of the inner loop at column [x]: the three bytes stored into
    [row] for the pixel that starts at [src[x * 4]]. *)
Definition pixel (bgra : list Z) (src x : Z) : option (list Z) :=
  x4 ← int_mul x 4;
  B ← rd bgra (src + (x4 + 0));
  G ← rd bgra (src + (x4 + 1));
  R ← rd bgra (src + (x4 + 2));
  x3 ← int_mul x 3;
  _ ← int_add x3 2;
  Some [B; G; R].

(** One iteration of the outer loop: the [stride + pad] bytes handed to
    [fwrite] for line [y].  With a negative width the [memset] would start
    before the row buffer. *)
Definition row (bgra : list Z) (w pad y : Z) : option (list Z) :=
  yw ← int_mul y w;
  src ← int_mul yw 4;
  px ← mapM (pixel bgra src) (seqZ 0 w);
  if w <? 0 then None
  else Some (concat px ++ replicate (Z.to_nat pad) 0).

(** [write p bgra w h].  The result is [None] when the behaviour is not
    defined, [Some None] when the function returns [false] (the file could
    not be opened), and [Some (Some bytes)] when it returns [true] having
    written [bytes] to the file.  [fopen_ok] is the outcome of [_wfopen]. *)
Definition write (fopen_ok : bool) (bgra : list Z) (w h : Z)
  : option (option (list Z)) :=
  nh ← int_neg h;
  stride ← int_mul w 3;
  let pad := Z.land (4 - Z.rem stride 4) 3 in
  sp ← int_add stride pad;
  dataSize ← int_mul sp h;
  let offBits := uint32 (sizeof_fh + sizeof_ih) in
  let fh := {| bfType := 0x4D42; bfSize := uint32 (offBits + dataSize);
               bfReserved1 := 0; bfReserved2 := 0; bfOffBits := offBits |} in
  let ih := {| biSize := sizeof_ih; biWidth := w; biHeight := nh;
               biPlanes := 1; biBitCount := 24; biCompression := BI_RGB;
               biSizeImage := 0; biXPelsPerMeter := 0; biYPelsPerMeter := 0;
               biClrUsed := 0; biClrImportant := 0 |} in
  if negb fopen_ok then Some None
  else if sp <? 0 then None
  else
    rows ← mapM (row bgra w pad) (seqZ 0 h);
    Some (Some (fh_bytes fh ++ ih_bytes ih ++ concat rows)).

End BmpWriter.

(** ** Diagnostics and effects *)

(** The lines handed to [log_line], one constructor per format string of the
    source (the UTC stamp that [log_line] puts in front is left out). *)
Inductive LogMsg : Type :=
| capture_service_start
| log_path_line (label path : string)
| waiting_for_process
| process_found_via_title
| process_found
| window_found_via_title
| no_window_yet
| device_fail
| create_item_fail
| invalid_size
| starting_capture (width height : Z)
| session_started
| frame_event (count : Z)
| shared_texture_recreated (w h : Z)
| capture_stalled_no_events
| probe_center (b g r a : Z)
| probe_avg10x10 (b g r : Z)
| frame_written
| frame_saved (index w h events : Z)
| open_proc_fail
| process_ended_exit (exit_code uptime_ms : Z)
| process_ended.

(** The atomics of a session. *)
Inductive Atomic : Type := a_running | a_frameEvents | a_saverRun.

Definition handle : Type := nat.

(** [D3D11_USAGE], the two values the program asks for. *)
Inductive Usage : Type := USAGE_DEFAULT | USAGE_STAGING.

(** What the program does to the outside world, in program order. *)
Inductive Effect : Type :=
(* files *)
| GetEnv
| FsCreateDirectories (p : string)
| FsAppendLine (p : string) (msg : LogMsg) (ok : bool)
    (* [fopen(p, "a")]; when [ok], [msg] is appended and the file closed *)
| FsWriteFile (p : string) (ok : bool)
    (* [_wfopen(p, "wb")]; when [ok], the writes that follow and the close *)
| FsRename (from to : string) (ok : bool)
| FsRemove (p : string) (ok : bool)
(* console *)
| DebugString (msg : LogMsg)
| StderrLine (msg : LogMsg)
(* clocks and waits *)
| SystemTime
| SteadyClock
| SleepFor (ms : Z)
| SleepUntil
| WaitForSingleObject (timeout_ms : Z) (signaled : bool)
(* Direct3D *)
| D3D11CreateDevice (ok : bool)
| GpuCreateTexture (usage : Usage) (ok : bool)
| GpuCopyResource (dst : handle)
| GpuMap (ok : bool)
| GpuUnmap
(* capture subsystem *)
| CreateForWindow (ok : bool)
| CreateFramePool
| CreateCaptureSession
| StartCapture
| RegisterFrameArrived
| RevokeFrameArrived
| PoolTryGetNextFrame (got : bool)
| SurfaceQuery (ok : bool)
| SessionClose
| FramePoolClose
(* synchronisation *)
| AtomicLoad (a : Atomic)
| AtomicStore (a : Atomic) (v : bool)
| AtomicFetchAdd (a : Atomic)
| MutexLock
| MutexUnlock
| ThreadStart
| ThreadJoin
(* processes and windows *)
| FindProcess (found : bool)
| EnumWindows
| OpenProcess (ok : bool)
| GetExitCodeProcess
| CloseHandle
| Terminate.

(** Effects that touch the disk. *)
Definition is_disk_io (e : Effect) : bool :=
  match e with
  | FsCreateDirectories _ | FsAppendLine _ _ _ | FsWriteFile _ _
  | FsRename _ _ _ | FsRemove _ _ => true
  | _ => false
  end.

(** Effects that block the calling thread for a time or on another thread
    or process (taking the mutex is listed apart). *)
Definition is_blocking_wait (e : Effect) : bool :=
  match e with
  | SleepFor _ | SleepUntil | WaitForSingleObject _ _ | ThreadJoin => true
  | _ => false
  end.

(** Effects that are part of writing one diagnostic line in [log_line]. *)
Definition is_log_effect (e : Effect) : bool :=
  match e with
  | GetEnv | FsCreateDirectories _ | FsAppendLine _ _ _ | SystemTime
  | DebugString _ | StderrLine _ => true
  | _ => false
  end.

(** ** Program state *)

(** A GPU texture: the two fields of its descriptor that the program reads,
    and its content, [4 * Width * Height] bytes of BGRA, line after line. *)
Record Texture := mkTexture { Width : Z; Height : Z; pixels : list Z }.

(** [struct SharedFrame] without its mutex (see [MutexLock]). *)
Module SharedFrame.
Record t := mk { tex : option handle; w : Z; h : Z }.
Definition init : t := mk None 0 0.
End SharedFrame.

Record State := mkState {
  (* the world *)
  base_path : string;                (* NEXUS_BASE_DIR, or the working directory *)
  files : gmap string (list Z);      (* the files of the frames directory *)
  gpu : gmap handle Texture;         (* the textures of the device *)
  next_handle : handle;
  (* function statics *)
  logPath_set : bool;                (* [logPath] of [log_line] is not empty *)
  loggedProbe : bool;
  (* locals of [main] *)
  scanCount : Z;
  shared : SharedFrame.t;
  running : bool;
  frameEvents : Z;
  saverRun : bool;
  (* local of the saver thread *)
  saveIdx : Z;
  (* the world, again *)
  log_opens : nat → bool             (* whether the [n]-th coming [fopen] of the
                                        log file succeeds, counted from 0 *)
}.

Definition set_files (f : gmap string (list Z)) (s : State) : State :=
  mkState (base_path s) f (gpu s) (next_handle s) (logPath_set s)
    (loggedProbe s) (scanCount s) (shared s) (running s) (frameEvents s)
    (saverRun s) (saveIdx s) (log_opens s).
Definition set_gpu (g : gmap handle Texture) (n : handle) (s : State) : State :=
  mkState (base_path s) (files s) g n (logPath_set s)
    (loggedProbe s) (scanCount s) (shared s) (running s) (frameEvents s)
    (saverRun s) (saveIdx s) (log_opens s).
Definition set_logPath_set (b : bool) (s : State) : State :=
  mkState (base_path s) (files s) (gpu s) (next_handle s) b
    (loggedProbe s) (scanCount s) (shared s) (running s) (frameEvents s)
    (saverRun s) (saveIdx s) (log_opens s).
Definition set_loggedProbe (b : bool) (s : State) : State :=
  mkState (base_path s) (files s) (gpu s) (next_handle s) (logPath_set s)
    b (scanCount s) (shared s) (running s) (frameEvents s)
    (saverRun s) (saveIdx s) (log_opens s).
Definition set_scanCount (n : Z) (s : State) : State :=
  mkState (base_path s) (files s) (gpu s) (next_handle s) (logPath_set s)
    (loggedProbe s) n (shared s) (running s) (frameEvents s)
    (saverRun s) (saveIdx s) (log_opens s).
Definition set_shared (sf : SharedFrame.t) (s : State) : State :=
  mkState (base_path s) (files s) (gpu s) (next_handle s) (logPath_set s)
    (loggedProbe s) (scanCount s) sf (running s) (frameEvents s)
    (saverRun s) (saveIdx s) (log_opens s).
Definition set_running (b : bool) (s : State) : State :=
  mkState (base_path s) (files s) (gpu s) (next_handle s) (logPath_set s)
    (loggedProbe s) (scanCount s) (shared s) b (frameEvents s)
    (saverRun s) (saveIdx s) (log_opens s).
Definition set_frameEvents (n : Z) (s : State) : State :=
  mkState (base_path s) (files s) (gpu s) (next_handle s) (logPath_set s)
    (loggedProbe s) (scanCount s) (shared s) (running s) n
    (saverRun s) (saveIdx s) (log_opens s).
Definition set_saverRun (b : bool) (s : State) : State :=
  mkState (base_path s) (files s) (gpu s) (next_handle s) (logPath_set s)
    (loggedProbe s) (scanCount s) (shared s) (running s) (frameEvents s)
    b (saveIdx s) (log_opens s).
Definition set_saveIdx (n : Z) (s : State) : State :=
  mkState (base_path s) (files s) (gpu s) (next_handle s) (logPath_set s)
    (loggedProbe s) (scanCount s) (shared s) (running s) (frameEvents s)
    (saverRun s) n (log_opens s).
Definition set_log_opens (f : nat → bool) (s : State) : State :=
  mkState (base_path s) (files s) (gpu s) (next_handle s) (logPath_set s)
    (loggedProbe s) (scanCount s) (shared s) (running s) (frameEvents s)
    (saverRun s) (saveIdx s) f.

(** The state when the process starts. *)
Definition initial_state (base : string) : State :=
  mkState base ∅ ∅ 0%nat false false 0 SharedFrame.init false 0 false 0 (λ _, true).

(** ** The monad of the program

    A computation runs from a state to a result, a new state and the effects
    it performed; [None] stands for a run whose behaviour is not defined. *)
Definition M (A : Type) : Type := State → option (A * State * list Effect).

#[global] Instance M_ret : MRet M := λ A x s, Some (x, s, []).
#[global] Instance M_bind : MBind M := λ A B f m s,
  match m s with
  | None => None
  | Some (a, s1, e1) =>
      match f a s1 with
      | None => None
      | Some (b, s2, e2) => Some (b, s2, e1 ++ e2)
      end
  end.

Definition get : M State := λ s, Some (s, s, []).
Definition modify (f : State → State) : M unit := λ s, Some (tt, f s, []).
Definition emit (e : Effect) : M unit := λ s, Some (tt, s, [e]).
Definition skip : M unit := mret tt.
Definition lift {A} (o : option A) : M A :=
  λ s, match o with Some a => Some (a, s, []) | None => None end.

(** The effects of a run. *)
Definition effects_of {A} (m : M A) (s : State) : list Effect :=
  match m s with Some (_, _, e) => e | None => [] end.

(** ** Logging: [log_line], [logf], [log_path] *)

(** [p / q] of [std::filesystem::path] on Windows, for a [q] that is
    relative and has no root name (the program appends only such names):
    a separator is put between the two unless [p] is empty, is the name of
    a drive alone ([X:]) or ends in a separator.  Both [/] and the
    backslash are separators; the one that is added is written [/]. *)
Definition is_separator (c : ascii) : bool :=
  Ascii.eqb c "/" || Ascii.eqb c (ascii_of_nat 92).

Fixpoint ends_in_separator (p : string) : bool :=
  match p with
  | EmptyString => false
  | String c EmptyString => is_separator c
  | String _ r => ends_in_separator r
  end.

Definition is_letter (c : ascii) : bool :=
  let n := nat_of_ascii c in
  ((65 <=? n) && (n <=? 90) || (97 <=? n) && (n <=? 122))%nat.

Definition is_drive (p : string) : bool :=
  match p with
  | String c (String colon EmptyString) => is_letter c && Ascii.eqb colon ":"
  | _ => false
  end.

Definition needs_separator (p : string) : bool :=
  match p with
  | EmptyString => false
  | _ => negb (ends_in_separator p || is_drive p)
  end.

Definition path_append (p q : string) : string :=
  if needs_separator p then p +:+ "/" +:+ q else p +:+ q.

(** [base_path / "sessions" / "current"], and the log file in it. *)
Definition sessions_dir (base : string) : string :=
  path_append (path_append base "sessions") "current".
Definition log_file (base : string) : string :=
  path_append (sessions_dir base) "capture.log".

(** The state once one [fopen] of the log file has been made: the outcomes
    that are left are those of the calls to come. *)
Definition log_opened (s : State) : State :=
  set_log_opens (λ n, log_opens s (S n)) s.

(** [log_line msg]: on the first call the log path is resolved and its
    directory created; then the log file is opened for appending, the line
    is written to it if it opens, and the line is mirrored to the debugger
    and to [stderr]. *)
Definition log_line (msg : LogMsg) : M unit :=
  s ← get;
  (if logPath_set s then skip
   else emit GetEnv;;
        emit (FsCreateDirectories (sessions_dir (base_path s)));;
        modify (set_logPath_set true));;
  emit SystemTime;;
  emit (FsAppendLine (log_file (base_path s)) msg (log_opens s 0));;
  modify log_opened;;
  emit (DebugString msg);;
  emit (StderrLine msg).

(** The effects of one call of [log_line] from state [s], and the state
    after it. *)
Definition log_effects (msg : LogMsg) (s : State) : list Effect :=
  (if logPath_set s then []
   else [GetEnv; FsCreateDirectories (sessions_dir (base_path s))])
  ++ [SystemTime; FsAppendLine (log_file (base_path s)) msg (log_opens s 0);
      DebugString msg; StderrLine msg].

Definition logged (s : State) : State := log_opened (set_logPath_set true s).

(** [logf] formats and calls [log_line]; the formatted line is one [LogMsg]. *)
Definition logf (msg : LogMsg) : M unit := log_line msg.

Definition log_path (label p : string) : M unit := logf (log_path_line label p).

(** ** [frames_dir] *)

Definition frames_dir : M string :=
  s ← get;
  emit GetEnv;;
  let p := path_append (sessions_dir (base_path s)) "frames" in
  emit (FsCreateDirectories p);;
  mret p.

(** ** The Direct3D device, as far as the program uses it *)

(** The device after a successful [CreateTexture2D]: a new texture, with a
    zeroed content, under the next handle. *)
Definition alloc_texture (width height : Z) (s : State) : State :=
  set_gpu (<[next_handle s :=
               mkTexture width height (replicate (Z.to_nat (4 * width * height)) 0)]>
             (gpu s))
          (S (next_handle s)) s.

(** [CreateTexture2D(&desc, nullptr, &out)]; [ok] is its outcome. *)
Definition CreateTexture2D (usage : Usage) (ok : bool) (width height : Z)
  : M (option handle) :=
  emit (GpuCreateTexture usage ok);;
  if ok then
    s ← get;
    modify (alloc_texture width height);;
    mret (Some (next_handle s))
  else mret None.

(** The device after [CopyResource(dst, src)]: the content of [src]
    replaces that of [dst]; the device ignores the call when the two sizes
    differ. *)
Definition copy_texture (dst : handle) (src : Texture) (s : State) : State :=
  match gpu s !! dst with
  | Some d =>
      if (Width d =? Width src) && (Height d =? Height src)
      then set_gpu (<[dst := mkTexture (Width d) (Height d) (pixels src)]> (gpu s))
                   (next_handle s) s
      else s
  | None => s
  end.

Definition CopyResource (dst : handle) (src : Texture) : M unit :=
  emit (GpuCopyResource dst);;
  modify (copy_texture dst src).

(** Line [y] of a texture. *)
Definition texture_row (t : Texture) (y : Z) : list Z :=
  take (Z.to_nat (4 * Width t)) (drop (Z.to_nat (y * (4 * Width t))) (pixels t)).

(** Line [y] as [Map] exposes it: filled up to [pitch] bytes. *)
Definition padded_row (t : Texture) (pitch y : Z) : list Z :=
  let r := texture_row t y in
  r ++ replicate (Z.to_nat pitch - length r) 0.

(** The memory that [Map] exposes: the lines of the texture, one every
    [pitch] bytes. *)
Definition mapped_image (t : Texture) (pitch : Z) : list Z :=
  concat (map (padded_row t pitch) (seqZ 0 (Height t))).

(** [memcpy(&dst[d], src + s, n)]. *)
Definition memcpy (dst : list Z) (d : Z) (src : list Z) (s n : Z) : option (list Z) :=
  if (d + n <=? Z.of_nat (length dst)) && (s + n <=? Z.of_nat (length src))
  then Some (take (Z.to_nat d) dst ++ take (Z.to_nat n) (drop (Z.to_nat s) src)
             ++ drop (Z.to_nat (d + n)) dst)
  else None.

(** The loop that copies the mapped lines into [bgra]. *)
Fixpoint copy_rows (mapped : list Z) (pitch W : Z) (ys : list Z) (bgra : list Z)
  : option (list Z) :=
  match ys with
  | [] => Some bgra
  | y :: ys' =>
      bgra' ← memcpy bgra (uint32 (uint32 (y * W) * 4))
                     mapped (uint32 (y * pitch)) (uint32 (W * 4));
      copy_rows mapped pitch W ys' bgra'
  end.

Definition download (mapped : list Z) (pitch W H : Z) : option (list Z) :=
  copy_rows mapped pitch W (seqZ 0 H)
    (replicate (Z.to_nat (uint32 (uint32 (W * H) * 4))) 0).

(** [(int)u] for a [UINT]. *)
Definition int_of_uint (u : Z) : Z := if u <? 2 ^ 31 then u else u - 2 ^ 32.

(** ** The probe diagnostics of [save_staging_to_file] *)

Definition probe_offsets : list (Z * Z) :=
  dy ← seqZ (-5) 10; dx ← seqZ (-5) 10; [(dy, dx)].

(** One step of the two nested loops: the sums after offset [(dy, dx)]. *)
Definition probe_cell (bgra : list Z) (W H cx cy : Z)
    (acc : option (Z * Z * Z * Z)) (d : Z * Z) : option (Z * Z * Z * Z) :=
  '(sumB, sumG, sumR, count) ← acc;
  x ← int_add (int_of_uint cx) d.2;
  y ← int_add (int_of_uint cy) d.1;
  if (0 <=? x) && (0 <=? y) && (x <? int_of_uint W) && (y <? int_of_uint H) then
    let i := uint32 (uint32 (uint32 y * W + uint32 x) * 4) in
    b ← rd bgra i; g ← rd bgra (i + 1); r ← rd bgra (i + 2);
    Some (uint32 (sumB + b), uint32 (sumG + g), uint32 (sumR + r), uint32 (count + 1))
  else Some (sumB, sumG, sumR, count).

Definition probe (bgra : list Z) (W H : Z) : option (list LogMsg) :=
  let cx := W / 2 in
  let cy := H / 2 in
  if (cx <? W) && (cy <? H) then
    let i := uint32 (uint32 (uint32 (cy * W) + cx) * 4) in
    p0 ← rd bgra i; p1 ← rd bgra (i + 1); p2 ← rd bgra (i + 2); p3 ← rd bgra (i + 3);
    '(sumB, sumG, sumR, count) ←
       foldl (probe_cell bgra W H cx cy) (Some (0, 0, 0, 0)) probe_offsets;
    Some (probe_center p0 p1 p2 p3 ::
          if count =? 0 then []
          else [probe_avg10x10 (sumB / count) (sumG / count) (sumR / count)])
  else Some [].

(** ** The atomic file writer: [save_staging_to_file] *)

(** The frames directory after a rename that succeeded. *)
Definition rename_file (from to : string) (s : State) : State :=
  match files s !! from with
  | Some c => set_files (<[to := c]> (delete from (files s))) s
  | None => s
  end.

(** [std::filesystem::rename(from, to, ec)]; [ok] tells whether [ec] stays
    clear. *)
Definition fs_rename (from to : string) (ok : bool) : M bool :=
  emit (FsRename from to ok);;
  (if ok then modify (rename_file from to) else skip);;
  mret ok.

(** [std::filesystem::remove(p, ec)]. *)
Definition fs_remove (p : string) (ok : bool) : M unit :=
  emit (FsRemove p ok);;
  if ok then modify (λ s, set_files (delete p (files s)) s) else skip.

(** The outcomes of the platform calls of one save. *)
Record SaveEnv := mkSaveEnv {
  staging_ok : bool;        (* CreateTexture2D of the staging texture *)
  map_pitch : option Z;     (* Map: the row pitch, or failure *)
  fopen_ok : bool;          (* _wfopen of the pending file *)
  short_write : option nat; (* fwrite, fclose: [Some n] when only the first
                               [n] bytes reach the file *)
  rename1_ok : bool;
  remove_ok : bool;
  rename2_ok : bool
}.

Definition pending (outPath : string) : string := outPath +:+ ".pending".

(** What the pending file holds after the encoder has handed [bytes] to
    [fwrite]: the program reads the result of no [fwrite] and not that of
    [fclose], so a write that fails leaves a file that is cut short. *)
Definition on_disk (env : SaveEnv) (bytes : list Z) : list Z :=
  match short_write env with
  | None => bytes
  | Some n => take n bytes
  end.

(** The probe block: it runs on the first save of the process only. *)
Definition log_probe (bgra : list Z) (W H : Z) : M unit :=
  s ← get;
  if loggedProbe s then skip
  else msgs ← lift (probe bgra W H);
       mapM logf msgs;;
       modify (set_loggedProbe true).

(** The part of [save_staging_to_file] that follows the download: the probe
    (once per process), the write of the pending file and its renaming. *)
Definition write_and_rename (env : SaveEnv) (bgra : list Z) (W H : Z)
    (outPath : string) : M unit :=
  let tmp := pending outPath in
  log_probe bgra W H;;
  r ← lift (BmpWriter.write (fopen_ok env) bgra (int_of_uint W) (int_of_uint H));
  emit (FsWriteFile tmp (bool_decide (is_Some r)));;
  match r with
  | Some bytes =>
      modify (λ s, set_files (<[tmp := on_disk env bytes]> (files s)) s);;
      ok ← fs_rename tmp outPath (rename1_ok env);
      (if ok : bool then skip
       else fs_remove outPath (remove_ok env);;
            fs_rename tmp outPath (rename2_ok env);;
            skip);;
      log_line frame_written
  | None => skip
  end.

Definition save_staging_to_file (env : SaveEnv) (src : handle) (outPath : string)
  : M unit :=
  s ← get;
  desc ← lift (gpu s !! src);
  st ← CreateTexture2D USAGE_STAGING (staging_ok env) (Width desc) (Height desc);
  match st with
  | None => skip
  | Some staging =>
      CopyResource staging desc;;
      emit (GpuMap (bool_decide (is_Some (map_pitch env))));;
      match map_pitch env with
      | None => skip
      | Some pitch =>
          s1 ← get;
          stg ← lift (gpu s1 !! staging);
          bgra ← lift (download (mapped_image stg pitch) pitch (Width desc) (Height desc));
          emit GpuUnmap;;
          write_and_rename env bgra (Width desc) (Height desc) outPath
      end
  end.

(** ** File names: the [swprintf] of the saver *)

Definition digit (d : Z) : ascii := ascii_of_nat (48 + Z.to_nat d).

(** The [k] low-order decimal digits of [n], most significant first. *)
Fixpoint low_digits (k : nat) (n : Z) : string :=
  match k with
  | O => ""
  | S k' => low_digits k' (n / 10) +:+ String (digit (n mod 10)) ""
  end.

(** The number of decimal digits of [n >= 0] (at most [fuel + 1]). *)
Fixpoint num_digits (fuel : nat) (n : Z) : nat :=
  match fuel with
  | O => 1%nat
  | S f => if n <? 10 then 1%nat else S (num_digits f (n / 10))
  end.

(** [%0<width>d] (and [%0<width>lld]): at least [width] characters, filled
    with zeros on the left, after the sign if there is one. *)
Definition fmt_0d (width : nat) (n : Z) : string :=
  if n <? 0
  then "-" +:+ low_digits (Nat.max (width - 1) (num_digits 20 (- n))) (- n)
  else low_digits (Nat.max width (num_digits 20 n)) n.

(** [std::tm], the fields that the saver prints. *)
Record tm := mk_tm {
  tm_year : Z; tm_mon : Z; tm_mday : Z; tm_hour : Z; tm_min : Z; tm_sec : Z }.

(** ["%04d-%02d-%02dT%02d-%02d-%02d.%03lldZ_%05d.bmp"] *)
Definition frame_name (utc : tm) (msPart saveIdx : Z) : option string :=
  year ← int_add (tm_year utc) 1900;
  mon ← int_add (tm_mon utc) 1;
  Some (fmt_0d 4 year +:+ "-" +:+ fmt_0d 2 mon +:+ "-" +:+ fmt_0d 2 (tm_mday utc)
        +:+ "T" +:+ fmt_0d 2 (tm_hour utc) +:+ "-" +:+ fmt_0d 2 (tm_min utc)
        +:+ "-" +:+ fmt_0d 2 (tm_sec utc) +:+ "." +:+ fmt_0d 3 msPart
        +:+ "Z_" +:+ fmt_0d 5 saveIdx +:+ ".bmp").

(** ** The producer: the [FrameArrived] callback *)

(** What the capture subsystem hands to one invocation. *)
Record FrameEnv := mkFrameEnv {
  frame_available : bool;     (* TryGetNextFrame gave a frame *)
  access_ok : bool;           (* QueryInterface(IDirect3DDxgiInterfaceAccess) *)
  texture : option Texture;   (* GetInterface(ID3D11Texture2D), the frame's surface *)
  alloc_ok : bool             (* CreateTexture2D, should the callback call it *)
}.

(** The block under [shared.m]: the update of the shared frame buffer. *)
Definition update (alloc_ok : bool) (src : Texture) : M unit :=
  emit MutexLock;;
  s ← get;
  let sf := shared s in
  if bool_decide (SharedFrame.tex sf = None)
     || negb (SharedFrame.w sf =? Width src)
     || negb (SharedFrame.h sf =? Height src)
  then
    newTex ← CreateTexture2D USAGE_DEFAULT alloc_ok (Width src) (Height src);
    match newTex with
    | Some t =>
        modify (set_shared (SharedFrame.mk (Some t) (Width src) (Height src)));;
        logf (shared_texture_recreated (Width src) (Height src));;
        CopyResource t src;;
        emit MutexUnlock
    | None => emit MutexUnlock
    end
  else
    match SharedFrame.tex sf with
    | Some t => CopyResource t src;; emit MutexUnlock
    | None => emit MutexUnlock
    end.

Definition FrameArrived (env : FrameEnv) : M unit :=
  emit (AtomicLoad a_running);;
  s ← get;
  if negb (running s) then skip
  else
    emit (PoolTryGetNextFrame (frame_available env));;
    if negb (frame_available env) then skip
    else
      emit (AtomicFetchAdd a_frameEvents);;
      modify (set_frameEvents (uint64 (frameEvents s + 1)));;
      emit (AtomicLoad a_frameEvents);;
      logf (frame_event (uint64 (frameEvents s + 1)));;
      emit (SurfaceQuery (access_ok env));;
      if negb (access_ok env) then skip
      else
        match texture env with
        | None => skip
        | Some src => update (alloc_ok env) src
        end.

(** ** The consumer: the saver thread *)

(** The clock readings and platform outcomes of one iteration. *)
Record TickEnv := mkTickEnv {
  elapsed_ms : Z;      (* steady_clock::now() - sessionStart, in milliseconds *)
  utc : tm;            (* gmtime_s of the wall clock *)
  msPart : Z;          (* the milliseconds within the second *)
  save_env : SaveEnv
}.

(** The block under [shared.m]: the snapshot of the shared frame buffer. *)
Definition snapshot (sf : SharedFrame.t) : option (handle * Z * Z) :=
  match SharedFrame.tex sf with
  | None => None
  | Some texCopy => Some (texCopy, SharedFrame.w sf, SharedFrame.h sf)
  end.

(** One iteration of [while (saverRun.load())]; the result tells whether the
    loop goes on. *)
Definition saver_iteration (baseDir : string) (env : TickEnv) : M bool :=
  emit (AtomicLoad a_saverRun);;
  s ← get;
  if negb (saverRun s) then mret false
  else
    emit SleepUntil;;
    emit (AtomicLoad a_running);;
    if negb (running s) then mret false
    else
      emit (AtomicLoad a_frameEvents);;
      (if (frameEvents s =? 0) && (2000 <? elapsed_ms env)
       then log_line capture_stalled_no_events else skip);;
      emit MutexLock;;
      match snapshot (shared s) with
      | None => emit MutexUnlock;; mret true
      | Some (texCopy, w, h) =>
          emit MutexUnlock;;
          emit SystemTime;;
          name ← lift (frame_name (utc env) (msPart env) (saveIdx s));
          next ← lift (int_add (saveIdx s) 1);
          modify (set_saveIdx next);;
          save_staging_to_file (save_env env) texCopy (baseDir +:+ "/" +:+ name);;
          emit (AtomicLoad a_frameEvents);;
          logf (frame_saved (next - 1) w h (frameEvents s));;
          mret true
      end.

(** ** A session: the callback and the saver against the shared state

    The mutex serialises the two critical sections; one invocation of the
    callback and one iteration of the saver are taken as steps that do not
    overlap. *)
Inductive Event : Type :=
| EvFrame (env : FrameEnv)
| EvTick (env : TickEnv).

(** [alive] tells whether the saver thread is still in its loop. *)
Definition run_event (baseDir : string) (alive : bool) (ev : Event) : M bool :=
  match ev with
  | EvFrame env => FrameArrived env;; mret alive
  | EvTick env => if alive then saver_iteration baseDir env else mret false
  end.

Fixpoint run_events (baseDir : string) (alive : bool) (evs : list Event) : M bool :=
  match evs with
  | [] => mret alive
  | ev :: evs' =>
      alive' ← run_event baseDir alive ev;
      run_events baseDir alive' evs'
  end.

(** The state of the locals when a session starts. *)
Definition session_start (s : State) : State :=
  set_saveIdx 0 (set_saverRun true (set_frameEvents 0 (set_running true
    (set_shared SharedFrame.init s)))).

(** ** The supervisor: one iteration of the loop of [main]

    The platform calls of an iteration are taken to return, with the
    outcomes that [MainEnv] lists; a call that throws (those of C++/WinRT,
    [std::filesystem::current_path]) is outside the model, and so is the end
    of the process that an exception which [main] does not catch brings. *)

Inductive Outcome : Type :=
| Continue       (* the loop goes round *)
| Terminated.    (* std::terminate was called *)

Record MainEnv := mkMainEnv {
  proc : option Z;          (* find_process: a pid, if a process matched *)
  title1 : option Z;        (* title search: the pid owning the window found *)
  main_hwnd : bool;         (* find_main_hwnd found a window *)
  title2 : bool;            (* the second title search found a window *)
  device_ok : bool;         (* D3D11CreateDevice *)
  item_ok : bool;           (* CreateForWindow *)
  size : Z * Z;             (* item.Size() *)
  early : list Event;       (* the other threads, before OpenProcess returns *)
  open_ok : bool;           (* OpenProcess *)
  timeouts : nat;           (* waits that time out before the process exits *)
  monitored : list Event;   (* the other threads, while the supervisor waits *)
  grace_sleeps : nat;       (* 50 ms sleeps until 750 ms have passed *)
  exit_code : Z;
  uptime_ms : Z
}.

Fixpoint repeat_M (n : nat) (m : M unit) : M unit :=
  match n with
  | O => skip
  | S n' => m;; repeat_M n' m
  end.

(** Leaving the body of the loop destroys its locals; the destructor of a
    [std::thread] that is still joinable calls [std::terminate]. *)
Definition leave_scope (joinable : bool) : M Outcome :=
  if joinable then emit Terminate;; mret Terminated else mret Continue.

Definition continue_after (seconds : Z) : M Outcome :=
  emit (SleepFor (seconds * 1000));; mret Continue.

(** From [StartCapture] to the end of the body. *)
Definition run_session (env : MainEnv) : M Outcome :=
  emit CreateFramePool;;
  emit CreateCaptureSession;;
  emit StartCapture;;
  log_line session_started;;
  baseDir ← frames_dir;
  modify session_start;;
  emit SteadyClock;;
  emit RegisterFrameArrived;;
  emit ThreadStart;;
  run_events baseDir true (early env);;
  emit (OpenProcess (open_ok env));;
  if negb (open_ok env) then
    log_line open_proc_fail;;
    emit RevokeFrameArrived;;
    emit FramePoolClose;;
    emit SessionClose;;
    leave_scope true
  else
    emit SteadyClock;;
    repeat_M (timeouts env) (emit (WaitForSingleObject 500 false));;
    run_events baseDir true (monitored env);;
    emit (WaitForSingleObject 500 true);;
    let signaled := true in
    emit GetExitCodeProcess;;
    emit SteadyClock;;
    repeat_M (grace_sleeps env) (emit SteadyClock;; emit (SleepFor 50));;
    emit CloseHandle;;
    emit (AtomicStore a_running false);;
    modify (set_running false);;
    emit RevokeFrameArrived;;
    emit SessionClose;;
    emit FramePoolClose;;
    emit (AtomicStore a_saverRun false);;
    modify (set_saverRun false);;
    emit ThreadJoin;;
    (if signaled : bool
     then emit SteadyClock;; logf (process_ended_exit (exit_code env) (uptime_ms env))
     else log_line process_ended);;
    leave_scope false.

(** The search for the process: its pid, or [None] when the body was left
    by [continue]. *)
Definition locate (env : MainEnv) : M (option Z) :=
  emit (FindProcess (bool_decide (is_Some (proc env))));;
  match proc env with
  | Some pid => log_line process_found;; mret (Some pid)
  | None =>
      s ← get;
      next ← lift (int_add (scanCount s) 1);
      modify (set_scanCount next);;
      (if Z.rem (scanCount s) 15 =? 0 then logf waiting_for_process else skip);;
      emit EnumWindows;;
      pid ← match title1 env with
            | Some wpid =>
                if wpid =? 0 then mret 0
                else log_line process_found_via_title;; mret wpid
            | None => mret 0
            end;
      if (pid : Z) =? 0 then emit (SleepFor 2000);; mret None
      else mret (Some pid)
  end.

(** The search for the window of the process. *)
Definition find_window (env : MainEnv) : M bool :=
  emit EnumWindows;;
  if main_hwnd env then mret true
  else
    emit EnumWindows;;
    if title2 env then log_line window_found_via_title;; mret true
    else mret false.

Definition main_iteration (env : MainEnv) : M Outcome :=
  p ← locate env;
  match p with
  | None => mret Continue
  | Some pid =>
      hwnd ← find_window env;
      if negb (hwnd : bool) then log_line no_window_yet;; continue_after 1
      else
        emit (D3D11CreateDevice (device_ok env));;
        if negb (device_ok env) then log_line device_fail;; continue_after 2
        else
          emit (CreateForWindow (item_ok env));;
          if negb (item_ok env) then log_line create_item_fail;; continue_after 2
          else
            if (fst (size env) <=? 0) || (snd (size env) <=? 0)
            then log_line invalid_size;; continue_after 2
            else
              logf (starting_capture (fst (size env)) (snd (size env)));;
              run_session env
  end.

(** The start of [main], before the loop; [cwd] is [None] when
    [current_path] throws. *)
Definition main_prologue (cwd : option string) : M unit :=
  log_line capture_service_start;;
  match cwd with Some p => log_path "cwd" p | None => skip end;;
  p ← frames_dir;
  log_path "frames_dir" p.

(** The loop of [main] over the environments of its successive iterations;
    it stops when the process is terminated. *)
Fixpoint main_loop (envs : list MainEnv) : M Outcome :=
  match envs with
  | [] => mret Continue
  | env :: envs' =>
      o ← main_iteration env;
      match o with
      | Continue => main_loop envs'
      | Terminated => mret Terminated
      end
  end.

(** ** Notions used in the statements *)

(** Two states that differ at most in the function statics. *)
Definition same_but_statics (s s' : State) : Prop :=
  base_path s' = base_path s ∧ files s' = files s ∧ gpu s' = gpu s
  ∧ next_handle s' = next_handle s ∧ scanCount s' = scanCount s
  ∧ shared s' = shared s ∧ running s' = running s
  ∧ frameEvents s' = frameEvents s ∧ saverRun s' = saverRun s
  ∧ saveIdx s' = saveIdx s.

(** A texture as the device hands them out: at least one pixel each way, and
    a content of the size of its descriptor. *)
Definition texture_wf (T : Texture) : Prop :=
  0 < Width T ∧ 0 < Height T
  ∧ Z.of_nat (length (pixels T)) = 4 * Width T * Height T.

(** The shared frame buffer names a live texture of the stored size. *)
Definition shared_consistent (s : State) : Prop :=
  match SharedFrame.tex (shared s) with
  | None => True
  | Some t =>
      (t < next_handle s)%nat
      ∧ ∃ T, gpu s !! t = Some T
             ∧ Width T = SharedFrame.w (shared s)
             ∧ Height T = SharedFrame.h (shared s)
  end.

(** What a completed update leaves behind. *)
Definition holds_frame (s : State) (src : Texture) : Prop :=
  ∃ t, SharedFrame.tex (shared s) = Some t
       ∧ (t < next_handle s)%nat
       ∧ gpu s !! t = Some (mkTexture (Width src) (Height src) (pixels src))
       ∧ SharedFrame.w (shared s) = Width src
       ∧ SharedFrame.h (shared s) = Height src.

(** A frame that is delivered and completes its update. *)
Definition completes (env : FrameEnv) (src : Texture) : Prop :=
  frame_available env = true ∧ access_ok env = true
  ∧ texture env = Some src ∧ alloc_ok env = true.

(** The invariant of the shared frame buffer: no texture and a zero size,
    or a live texture of the stored size, which is positive. *)
Definition shared_inv (s : State) : Prop :=
  match SharedFrame.tex (shared s) with
  | None => SharedFrame.w (shared s) = 0 ∧ SharedFrame.h (shared s) = 0
  | Some t =>
      (t < next_handle s)%nat
      ∧ ∃ T, gpu s !! t = Some T
             ∧ Width T = SharedFrame.w (shared s)
             ∧ Height T = SharedFrame.h (shared s)
             ∧ 0 < SharedFrame.w (shared s)
             ∧ 0 < SharedFrame.h (shared s)
  end.

(** The values of the frame counter along a run, state after state. *)
Fixpoint counter_history (baseDir : string) (alive : bool) (evs : list Event)
    (s : State) : list Z :=
  frameEvents s ::
  match evs with
  | [] => []
  | ev :: evs' =>
      match run_event baseDir alive ev s with
      | Some (alive', s', _) => counter_history baseDir alive' evs' s'
      | None => []
      end
  end.

(** The frames handed to the callbacks of a run are well formed. *)
Definition event_wf (ev : Event) : Prop :=
  match ev with
  | EvFrame env => ∀ T, texture env = Some T → texture_wf T
  | EvTick _ => True
  end.

(** Operations on the files of the frames directory. *)
Definition is_frame_file_op (e : Effect) : bool :=
  match e with
  | FsWriteFile _ _ | FsRename _ _ _ | FsRemove _ _ => true
  | _ => false
  end.

(** The file operations of one save that reached the writer, as its
    environment decides them. *)
Definition writer_file_ops (env : SaveEnv) (outPath : string) : list Effect :=
  FsWriteFile (pending outPath) (fopen_ok env) ::
  (if fopen_ok env then
     FsRename (pending outPath) outPath (rename1_ok env) ::
     (if rename1_ok env then []
      else [FsRemove outPath (remove_ok env);
            FsRename (pending outPath) outPath (rename2_ok env)])
   else []).

(** The files that a run made visible under their final name, in order. *)
Definition saved_names (effs : list Effect) : list string :=
  omap (λ e, match e with FsRename _ to true => Some to | _ => None end) effs.

(** The effects that an invocation of the callback may have besides its
    diagnostic lines. *)
Definition is_callback_effect (e : Effect) : bool :=
  match e with
  | AtomicLoad _ | AtomicFetchAdd _ | PoolTryGetNextFrame _ | SurfaceQuery _
  | MutexLock | MutexUnlock | GpuCreateTexture _ _ | GpuCopyResource _ => true
  | _ => false
  end.

(** Whether a run of effects holds a frame handed out by the pool, and
    whether it holds an allocation of the buffer texture that succeeded. *)
Definition got_frame (effs : list Effect) : bool :=
  existsb (λ e, match e with PoolTryGetNextFrame true => true | _ => false end) effs.

Definition allocated (effs : list Effect) : bool :=
  existsb (λ e, match e with
                | GpuCreateTexture USAGE_DEFAULT true => true
                | _ => false
                end) effs.

(** A frame that arrives while the session runs. *)
Definition a_frame : FrameEnv :=
  mkFrameEnv true true (Some (mkTexture 1 1 [10; 20; 30; 255])) true.

(** A frame before it, of the same size and another content. *)
Definition an_earlier_frame : FrameEnv :=
  mkFrameEnv true true (Some (mkTexture 1 1 [1; 2; 3; 255])) true.

(** The texture of that frame, and a state of the device that holds it under
    the handle 0. *)
Definition a_texture : Texture := mkTexture 1 1 [10; 20; 30; 255].
Definition a_state : State :=
  set_gpu {[ 0%nat := a_texture ]} 1%nat (initial_state "base").

(** The effects of the two threads of a session, the callback and the
    saver. *)
Definition is_session_effect (e : Effect) : bool :=
  is_log_effect e || is_callback_effect e || is_frame_file_op e
  || match e with GpuMap _ | GpuUnmap | SleepUntil => true | _ => false end.

Definition is_open_process (e : Effect) : bool :=
  match e with OpenProcess _ => true | _ => false end.

Definition is_terminate (e : Effect) : bool :=
  match e with Terminate => true | _ => false end.

(** The steps of a teardown. *)
Definition is_teardown_op (e : Effect) : bool :=
  match e with
  | AtomicStore _ _ | RevokeFrameArrived | SessionClose | FramePoolClose
  | ThreadJoin | CloseHandle => true
  | _ => false
  end.

(** The teardown order as the specification words it: stop accepting
    frames, unregister the callback, close the session and the frame pool,
    stop and join the saver, release the process handle. *)
Definition spec_teardown_order : list Effect :=
  [AtomicStore a_running false; RevokeFrameArrived; SessionClose;
   FramePoolClose; AtomicStore a_saverRun false; ThreadJoin; CloseHandle].

(** The stall diagnostics among the effects of a run. *)
Definition is_stall_line (e : Effect) : bool :=
  match e with
  | StderrLine capture_stalled_no_events => true
  | _ => false
  end.

(** The teardown order of the code when the process has exited. *)
Definition code_teardown_order : list Effect :=
  [CloseHandle; AtomicStore a_running false; RevokeFrameArrived; SessionClose;
   FramePoolClose; AtomicStore a_saverRun false; ThreadJoin].

(** An iteration of the supervisor that finds the process and its window,
    starts a session and sees the process exit after [n] waits; [ok] is the
    outcome of [OpenProcess]. *)
Definition a_lifecycle (ok : bool) (n : nat) : MainEnv :=
  mkMainEnv (Some 4242) None true false true true (1920, 1080) []
            ok n [] 15 0 1000.

(** The three ways an iteration of the supervisor can go. *)
Inductive iteration_kind : Type := NoSession | ProcessExited | OpenFailed.

Definition iteration_shape (k : iteration_kind) (o : Outcome) (s' : State)
    (effs : list Effect) : Prop :=
  match k with
  | NoSession =>
      o = Continue
      ∧ List.filter is_open_process effs = []
      ∧ List.filter is_teardown_op effs = []
      ∧ List.filter is_terminate effs = []
  | ProcessExited =>
      o = Continue ∧ running s' = false ∧ saverRun s' = false
      ∧ List.filter is_open_process effs = [OpenProcess true]
      ∧ List.filter is_teardown_op effs = code_teardown_order
      ∧ List.filter is_terminate effs = []
  | OpenFailed =>
      o = Terminated ∧ running s' = true ∧ saverRun s' = true
      ∧ List.filter is_open_process effs = [OpenProcess false]
      ∧ List.filter is_teardown_op effs
        = [RevokeFrameArrived; FramePoolClose; SessionClose]
      ∧ List.filter is_terminate effs = [Terminate]
  end.

(** Whether a character occurs in a string. *)
Fixpoint has_char (c : ascii) (s : string) : bool :=
  match s with
  | EmptyString => false
  | String x r => if Ascii.eqb x c then true else has_char c r
  end.

(** The path under which the saver saves at a tick with sequence number
    [sv.2]. *)
Definition save_path (base : string) (sv : TickEnv * Z) : option string :=
  (λ n, base +:+ "/" +:+ n) <$> frame_name (utc sv.1) (msPart sv.1) sv.2.

(** A platform on which every call of a save succeeds, for a frame of one
    pixel. *)
Definition save_ok : SaveEnv := mkSaveEnv true (Some 4) true None true true true.


(** Two readings of the wall clock at a tick: 2024-05-01 12:00:04.500 and
    12:00:05.000. *)
Definition tick_early (elapsed : Z) : TickEnv :=
  mkTickEnv elapsed (mk_tm 124 4 1 12 0 4) 500 save_ok.
Definition tick_late (elapsed : Z) : TickEnv :=
  mkTickEnv elapsed (mk_tm 124 4 1 12 0 5) 0 save_ok.


(** The tick events of a run, in order. *)
Definition ticks (evs : list Event) : list TickEnv :=
  omap (λ ev, match ev with EvTick env => Some env | EvFrame _ => None end) evs.

(** Lexicographic combination of comparisons. *)
Definition lex (c1 c2 : comparison) : comparison :=
  match c1 with Eq => c2 | _ => c1 end.

(** The order of two wall-clock readings. *)
Definition stamp_compare (e1 e2 : TickEnv) : comparison :=
  lex (tm_year (utc e1) ?= tm_year (utc e2))
  (lex (tm_mon (utc e1) ?= tm_mon (utc e2))
  (lex (tm_mday (utc e1) ?= tm_mday (utc e2))
  (lex (tm_hour (utc e1) ?= tm_hour (utc e2))
  (lex (tm_min (utc e1) ?= tm_min (utc e2))
  (lex (tm_sec (utc e1) ?= tm_sec (utc e2))
       (msPart e1 ?= msPart e2)))))).

(** A reading whose fields fill exactly the widths of the format: a year of
    four digits, and two digits (three for the milliseconds) elsewhere. *)
Definition stamp_in_format (e : TickEnv) : Prop :=
  0 ≤ tm_year (utc e) + 1900 ≤ 9999
  ∧ 0 ≤ tm_mon (utc e) + 1 ≤ 99
  ∧ 0 ≤ tm_mday (utc e) ≤ 99
  ∧ 0 ≤ tm_hour (utc e) ≤ 99
  ∧ 0 ≤ tm_min (utc e) ≤ 99
  ∧ 0 ≤ tm_sec (utc e) ≤ 99
  ∧ 0 ≤ msPart e ≤ 999.

(** A name sorts before another one ([std::string::compare], all characters
    being ASCII). *)
Definition name_lt (p q : string) : Prop := String.compare p q = Lt.

(** A reading of the wall clock that is not later than another one. *)
Definition stamp_le (e1 e2 : TickEnv) : Prop := stamp_compare e1 e2 ≠ Gt.

(** The diagnostic lines of a run, in the order in which they reach
    [stderr]. *)
Definition log_lines (effs : list Effect) : list LogMsg :=
  omap (λ e, match e with StderrLine m => Some m | _ => None end) effs.

(** The pixels of the image that lie in the window of the probe, as
    [(x, y)] and in the order of the two loops; the byte [c] of a pixel of
    the buffer; the sum of that byte over the window. *)
Definition in_image (W H : Z) (p : Z * Z) : bool :=
  (0 <=? p.1) && (0 <=? p.2) && (p.1 <? W) && (p.2 <? H).

Definition probe_window (W H : Z) : list (Z * Z) :=
  List.filter (in_image W H)
    (map (λ d : Z * Z, (W / 2 + d.2, H / 2 + d.1)) probe_offsets).

Definition channel (bgra : list Z) (W c : Z) (p : Z * Z) : Z :=
  default 0 (bgra !! Z.to_nat (4 * (p.2 * W + p.1) + c)).

Definition cells_sum (bgra : list Z) (W c : Z) (cells : list (Z * Z)) : Z :=
  foldr Z.add 0 (map (channel bgra W c) cells).

Definition window_sum (bgra : list Z) (W H c : Z) : Z :=
  cells_sum bgra W c (probe_window W H).

Definition window_count (W H : Z) : Z := Z.of_nat (length (probe_window W H)).

(** The two lines of the probe block. *)
Definition is_probe_msg (m : LogMsg) : bool :=
  match m with
  | probe_center _ _ _ _ | probe_avg10x10 _ _ _ => true
  | _ => false
  end.

(** A state of a running session whose buffer holds the texture 0. *)
Definition a_session_state : State :=
  set_shared (SharedFrame.mk (Some 0%nat) 1 1)
    (set_saverRun true (set_running true a_state)).

(** The number of callbacks of a run to which the pool handed a frame. *)
Definition delivered (evs : list Event) : nat :=
  length (List.filter
            (λ ev, match ev with
                   | EvFrame env => frame_available env
                   | EvTick _ => false
                   end) evs).

(** An iteration of the supervisor that finds neither the process nor a
    window with the title. *)
Definition nothing_found (env : MainEnv) : Prop :=
  proc env = None ∧ (title1 env = None ∨ title1 env = Some 0).

Definition is_sleep (e : Effect) : bool :=
  match e with SleepFor _ => true | _ => false end.

(** What an iteration of the supervisor needs to start a capture: a process
    (found by name, or by the title of a window whose owner is known), a
    window, a device, a capture item, and a size that is positive both
    ways. *)
Definition target_ready (env : MainEnv) : Prop :=
  (is_Some (proc env) ∨ ∃ pid, title1 env = Some pid ∧ pid ≠ 0)
  ∧ (main_hwnd env = true ∨ title2 env = true)
  ∧ device_ok env = true ∧ item_ok env = true
  ∧ 0 < (size env).1 ∧ 0 < (size env).2.

Definition is_start (e : Effect) : bool :=
  match e with
  | CreateFramePool | CreateCaptureSession | StartCapture
  | RegisterFrameArrived | ThreadStart => true
  | _ => false
  end.

(** ** The searches: [find_process], [find_main_hwnd] and
    [find_window_by_title_substring]

    A wide string is the list of its code units. *)
Definition wide (s : string) : list Z :=
  map (λ c, Z.of_N (N_of_ascii c)) (list_ascii_of_string s).

Definition kPrimaryProcessName : list Z := wide "HeroesOfTheStorm_x64.exe".
Definition kAltProcessName : list Z := wide "HeroesOfTheStorm.exe".

(** [PROCESSENTRY32W], the two fields that the program reads. *)
Record PROCESSENTRY32W := mkProcess {
  szExeFile : list Z;
  th32ProcessID : Z
}.

(** The calls of [find_process] on the snapshot, in program order. *)
Inductive SnapCall : Type :=
| CreateSnapshot (ok : bool)
| Process32First (ok : bool)
| Process32Next (ok : bool)
| CloseSnapshot.

(** A top-level window, as the callbacks of [EnumWindows] see it: its
    handle, the process that [GetWindowThreadProcessId] reports (0 when it
    reports none), its owner ([GetWindow] with [GW_OWNER]), whether it is visible, and its
    text, which holds no NUL. *)
Record Window := mkWindow {
  hwnd : Z;
  wpid : Z;
  owner : option Z;
  visible : bool;
  title : list Z
}.

(** [EnumWindows]: the callback is called on the windows in turn, until it
    returns [FALSE]. *)
Fixpoint enum_windows {C : Type} (cb : Window → C → C * bool)
    (wins : list Window) (ctx : C) : C :=
  match wins with
  | [] => ctx
  | h :: rest =>
      let '(ctx', go_on) := cb h ctx in
      if go_on then enum_windows cb rest ctx' else ctx'
  end.

(** [std::wstring::find], as far as the program uses it: the first position
    at which [n] occurs in [t], if there is one. *)
Fixpoint starts_with (n t : list Z) : bool :=
  match n, t with
  | [], _ => true
  | x :: n', y :: t' => (x =? y) && starts_with n' t'
  | _ :: _, [] => false
  end.

Fixpoint wfind (n t : list Z) : option nat :=
  if starts_with n t then Some 0%nat
  else match t with
       | [] => None
       | _ :: t' => S <$> wfind n t'
       end.

Section searches.

(** The case mapping of the C library in the locale of the process: the
    program lowers the titles with [towlower], and [_wcsicmp] compares two
    strings after lowering them. *)
Variable towlower : Z → Z.

Definition wcsicmp (a b : list Z) : bool :=
  bool_decide (map towlower a = map towlower b).

Definition is_target (pe : PROCESSENTRY32W) : bool :=
  wcsicmp (szExeFile pe) kPrimaryProcessName
  || wcsicmp (szExeFile pe) kAltProcessName.

(** The [do ... while (Process32NextW(snap, &pe))] loop, from the entry [pe]
    on; [rest] are the entries that the snapshot still holds.  The result is
    the value returned, the value of [pid] afterwards, and the calls made. *)
Fixpoint scan_processes (pe : PROCESSENTRY32W) (rest : list PROCESSENTRY32W)
    (pid : Z) : bool * Z * list SnapCall :=
  if is_target pe then (true, th32ProcessID pe, [CloseSnapshot])
  else
    match rest with
    | [] => (false, pid, [Process32Next false; CloseSnapshot])
    | pe' :: rest' =>
        let '(found, pid', calls) := scan_processes pe' rest' pid in
        (found, pid', Process32Next true :: calls)
    end.

(** [find_process(pid)]; [snap] is [None] when the snapshot cannot be taken,
    and else the entries of the snapshot. *)
Definition find_process (snap : option (list PROCESSENTRY32W)) (pid : Z)
  : bool * Z * list SnapCall :=
  match snap with
  | None => (false, pid, [CreateSnapshot false])
  | Some [] => (false, pid, [CreateSnapshot true; Process32First false; CloseSnapshot])
  | Some (pe :: rest) =>
      let '(found, pid', calls) := scan_processes pe rest pid in
      (found, pid', CreateSnapshot true :: Process32First true :: calls)
  end.

(** [find_main_hwnd(pid)] over the windows that [EnumWindows] goes through;
    the context holds [pid] and the window found so far. *)
Definition find_main_hwnd (wins : list Window) (pid : Z) : option Z :=
  snd (enum_windows
         (λ h (c : Z * option Z),
            if (wpid h =? fst c) && bool_decide (owner h = None) && visible h
            then ((fst c, Some (hwnd h)), false)
            else (c, true))
         wins (pid, None)).

(** The text that [GetWindowTextW(h, title, 512)] leaves in the buffer. *)
Definition window_text (h : Window) : list Z := take 511 (title h).

Definition find_window_by_title_substring (wins : list Window)
    (needleLower : list Z) : option Z :=
  snd (enum_windows
         (λ h (c : list Z * option Z),
            if negb (visible h) then (c, true)
            else if bool_decide (window_text h = []) then (c, true)
            else
              let t := map towlower (window_text h) in
              let n := fst c in
              if bool_decide (is_Some (wfind n t))
              then ((fst c, Some (hwnd h)), false)
              else (c, true))
         wins (needleLower, None)).

End searches.

(** What [find_main_hwnd] looks for. *)
Definition main_window_of (pid : Z) (w : Window) : Prop :=
  wpid w = pid ∧ owner w = None ∧ visible w = true.

(** What [find_window_by_title_substring] looks for. *)
Definition titled (towlower : Z → Z) (needle : list Z) (w : Window) : Prop :=
  visible w = true ∧ window_text w ≠ []
  ∧ ∃ before after, map towlower (window_text w) = before ++ needle ++ after.

(** The first element of a list with a property. *)
Definition first_with {A} (P : A → Prop) (l : list A) (x : A) : Prop :=
  ∃ i, l !! i = Some x ∧ P x ∧ ∀ j y, (j < i)%nat → l !! j = Some y → ¬ P y.

(** [towlower] in the "C" locale: the letters A to Z only. *)
Definition ascii_towlower (c : Z) : Z :=
  if (65 <=? c) && (c <=? 90) then c + 32 else c.

(** The directories that a run creates, and the lines that it appends to
    files. *)
Definition is_mkdir (e : Effect) : bool :=
  match e with FsCreateDirectories _ => true | _ => false end.

Definition appended (e : Effect) : option (string * LogMsg) :=
  match e with FsAppendLine p m true => Some (p, m) | _ => None end.

(** The elements of a list at the positions that [o] selects. *)
Fixpoint kept {A} (o : nat → bool) (l : list A) : list A :=
  match l with
  | [] => []
  | x :: r => (if o 0%nat then [x] else []) ++ kept (λ n, o (S n)) r
  end.

(** The attempts to open a file for appending, and the lines sent to the
    debugger. *)
Definition is_append (e : Effect) : bool :=
  match e with FsAppendLine _ _ _ => true | _ => false end.

Definition debug_lines (effs : list Effect) : list LogMsg :=
  omap (λ e, match e with DebugString m => Some m | _ => None end) effs.

(** * Properties *)

(** ** Runs of the monad *)

Lemma bind_Some {A B} (m : M A) (f : A → M B) s b s2 e :
  (m ≫= f) s = Some (b, s2, e) ↔
  ∃ a s1 e1 e2, m s = Some (a, s1, e1) ∧ f a s1 = Some (b, s2, e2) ∧ e = e1 ++ e2.
Proof.
  unfold mbind, M_bind. split.
  - destruct (m s) as [[[a s1] e1]|]; [|done].
    destruct (f a s1) as [[[b' s2'] e2]|] eqn:Ef; [|done].
    intros [= -> -> <-]. eauto 10.
  - intros (a & s1 & e1 & e2 & -> & -> & ->). done.
Qed.

Lemma bind_run {A B} (m : M A) (f : A → M B) s a s1 e1 :
  m s = Some (a, s1, e1) →
  (m ≫= f) s = match f a s1 with
               | Some (b, s2, e2) => Some (b, s2, e1 ++ e2)
               | None => None
               end.
Proof. unfold mbind, M_bind. by intros ->. Qed.

Lemma ret_Some {A} (x : A) s a s' e :
  mret (M := M) x s = Some (a, s', e) ↔ a = x ∧ s' = s ∧ e = [].
Proof. unfold mret, M_ret. split; [by intros [= <- <- <-]|by intros (-> & -> & ->)]. Qed.

Lemma skip_Some s a s' e : skip s = Some (a, s', e) ↔ s' = s ∧ e = [].
Proof. unfold skip. rewrite ret_Some. destruct a. tauto. Qed.

Lemma emit_Some x s a s' e : emit x s = Some (a, s', e) ↔ s' = s ∧ e = [x].
Proof. unfold emit. destruct a. split; [by intros [= <- <-]|by intros (-> & ->)]. Qed.

Lemma get_Some s a s' e : get s = Some (a, s', e) ↔ a = s ∧ s' = s ∧ e = [].
Proof. unfold get. split; [by intros [= <- <- <-]|by intros (-> & -> & ->)]. Qed.

Lemma modify_Some f s a s' e : modify f s = Some (a, s', e) ↔ s' = f s ∧ e = [].
Proof. unfold modify. destruct a. split; [by intros [= <- <-]|by intros (-> & ->)]. Qed.

Lemma lift_Some {A} (o : option A) s a s' e :
  lift o s = Some (a, s', e) ↔ o = Some a ∧ s' = s ∧ e = [].
Proof.
  unfold lift. destruct o; split; try done.
  - by intros [= <- <- <-].
  - by intros ([= <-] & -> & ->).
  - by intros (? & _).
Qed.

(** Inversion of a run that returned, one step of the program at a time. *)
Ltac minv1 :=
  match goal with
  | H : (_ ≫= _) _ = Some _ |- _ =>
      apply bind_Some in H as (? & ? & ? & ? & ? & H & ?)
  | H : mret _ _ = Some _ |- _ => apply ret_Some in H as (? & ? & ?)
  | H : skip _ = Some _ |- _ => apply skip_Some in H as (? & ?)
  | H : emit _ _ = Some _ |- _ => apply emit_Some in H as (? & ?)
  | H : get _ = Some _ |- _ => apply get_Some in H as (? & ? & ?)
  | H : modify _ _ = Some _ |- _ => apply modify_Some in H as (? & ?)
  | H : lift _ _ = Some _ |- _ => apply lift_Some in H as (? & ? & ?)
  end.
Ltac minv := repeat (minv1; simplify_eq/=).

Lemma Forall_weaken {A} (P Q : A → Prop) (l : list A) :
  (∀ x, P x → Q x) → Forall P l → Forall Q l.
Proof.
  intros HPQ. induction 1 as [|x l Hx Hl IH]; [constructor|].
  constructor; [by apply HPQ|exact IH].
Qed.

(** Properties of every effect of a program. *)
Definition emits {A} (P : Effect → Prop) (m : M A) : Prop :=
  ∀ s a s' e, m s = Some (a, s', e) → Forall P e.

Lemma emits_bind {A B} P (m : M A) (f : A → M B) :
  emits P m → (∀ a, emits P (f a)) → emits P (m ≫= f).
Proof.
  intros Hm Hf s b s2 e (a & s1 & e1 & e2 & H1 & H2 & ->)%bind_Some.
  apply Forall_app. split; [eapply Hm|eapply Hf]; eauto.
Qed.

Lemma emits_ret {A} P (x : A) : emits P (mret x).
Proof. intros s a s' e (_ & _ & ->)%ret_Some. constructor. Qed.

Lemma emits_skip P : emits P skip.
Proof. apply emits_ret. Qed.

Lemma emits_emit P x : P x → emits P (emit x).
Proof. intros Hx s a s' e (_ & ->)%emit_Some. by repeat constructor. Qed.

Lemma emits_get P : emits P get.
Proof. intros s a s' e (_ & _ & ->)%get_Some. constructor. Qed.

Lemma emits_modify P f : emits P (modify f).
Proof. intros s a s' e (_ & ->)%modify_Some. constructor. Qed.

Lemma emits_lift {A} P (o : option A) : emits P (lift o).
Proof. intros s a s' e (_ & _ & ->)%lift_Some. constructor. Qed.

Lemma emits_if {A} P (b : bool) (m1 m2 : M A) :
  emits P m1 → emits P m2 → emits P (if b then m1 else m2).
Proof. by destruct b. Qed.

Lemma emits_mono {A} (P Q : Effect → Prop) (m : M A) :
  (∀ e, P e → Q e) → emits P m → emits Q m.
Proof.
  intros HPQ Hm s a s' e H. specialize (Hm _ _ _ _ H).
  clear H. induction Hm as [|x l Hx Hl IH]; [constructor|].
  constructor; [by apply HPQ|exact IH].
Qed.

Create HintDb emits discriminated.
#[local] Hint Resolve emits_ret emits_skip emits_get emits_modify emits_lift : emits.

(** Programs that always return. *)
Definition total {A} (m : M A) : Prop := ∀ s, is_Some (m s).

Lemma total_bind {A B} (m : M A) (f : A → M B) :
  total m → (∀ a, total (f a)) → total (m ≫= f).
Proof.
  intros Hm Hf s. destruct (Hm s) as [[[a s1] e1] H1].
  destruct (Hf a s1) as [[[b s2] e2] H2].
  rewrite (bind_run m f s a s1 e1 H1), H2. eauto.
Qed.

Lemma total_ret {A} (x : A) : total (mret x).
Proof. intros s. unfold mret, M_ret. eauto. Qed.
Lemma total_skip : total skip.
Proof. apply total_ret. Qed.
Lemma total_emit x : total (emit x).
Proof. intros s. unfold emit. eauto. Qed.
Lemma total_get : total get.
Proof. intros s. unfold get. eauto. Qed.
Lemma total_modify f : total (modify f).
Proof. intros s. unfold modify. eauto. Qed.
Lemma total_if {A} (b : bool) (m1 m2 : M A) :
  total m1 → total m2 → total (if b then m1 else m2).
Proof. by destruct b. Qed.

Create HintDb total discriminated.
#[local] Hint Resolve total_ret total_skip total_emit total_get total_modify : total.



(** ** Machine integers and buffers *)

Lemma to_int_Some z v : to_int z = Some v → v = z ∧ INT_MIN ≤ z ≤ INT_MAX.
Proof.
  unfold to_int. destruct (_ && _) eqn:E; [|done].
  intros [= <-]. apply andb_true_iff in E as [?%Z.leb_le ?%Z.leb_le]. done.
Qed.

Lemma to_int_in_range z : INT_MIN ≤ z ≤ INT_MAX → to_int z = Some z.
Proof.
  intros [? ?]. unfold to_int.
  rewrite (proj2 (Z.leb_le _ _)), (proj2 (Z.leb_le _ _)); done.
Qed.

Lemma int_mul_Some a b v : int_mul a b = Some v → v = a * b ∧ INT_MIN ≤ a * b ≤ INT_MAX.
Proof. apply to_int_Some. Qed.

Lemma int_add_Some a b v : int_add a b = Some v → v = a + b ∧ INT_MIN ≤ a + b ≤ INT_MAX.
Proof. apply to_int_Some. Qed.

Lemma int_neg_Some a v : int_neg a = Some v → v = - a ∧ INT_MIN ≤ - a ≤ INT_MAX.
Proof. apply to_int_Some. Qed.

Lemma uint32_small z : 0 ≤ z < 2 ^ 32 → uint32 z = z.
Proof. intros. unfold uint32. by apply Z.mod_small. Qed.

Lemma rd_Some (buf : list Z) i v : rd buf i = Some v → 0 ≤ i ∧ buf !! Z.to_nat i = Some v.
Proof. unfold rd. destruct (Z.ltb_spec i 0); [done|]. auto. Qed.

Lemma rd_lookup (buf : list Z) i : 0 ≤ i → rd buf i = buf !! Z.to_nat i.
Proof. intros. unfold rd. destruct (Z.ltb_spec i 0); [lia|done]. Qed.

Lemma rd_in_bounds (buf : list Z) i :
  0 ≤ i < Z.of_nat (length buf) → is_Some (rd buf i).
Proof.
  intros. rewrite rd_lookup by lia. apply lookup_lt_is_Some. lia.
Qed.

(** Lookup in a concatenation of lists of one length. *)
Lemma concat_lookup_uniform {A} (ls : list (list A)) (n i j : nat) :
  Forall (λ l, length l = n) ls → (j < n)%nat →
  concat ls !! (i * n + j)%nat = ls !! i ≫= (.!! j).
Proof.
  intros Hall Hj. revert i. induction Hall as [|l ls Hl Hall IH]; intros i.
  - by rewrite !lookup_nil.
  - destruct i as [|i]; simpl.
    + rewrite lookup_app_l by lia. done.
    + rewrite lookup_app_r by lia.
      replace (n + i * n + j - length l)%nat with (i * n + j)%nat by lia.
      apply IH.
Qed.

Lemma concat_length_uniform {A} (ls : list (list A)) (n : nat) :
  Forall (λ l, length l = n) ls → length (concat ls) = (length ls * n)%nat.
Proof.
  induction 1 as [|l ls Hl Hall IH]; simpl; [done|].
  rewrite length_app, IH, Hl. lia.
Qed.

(** Little-endian fields read back. *)
Lemma byte_split z : 0 ≤ z < 2 ^ 32 →
  Z.land z 255 + 256 * Z.land (Z.shiftr z 8) 255
  + 65536 * Z.land (Z.shiftr z 16) 255 + 16777216 * Z.land (Z.shiftr z 24) 255 = z.
Proof.
  intros Hz.
  change 255 with (Z.ones 8). rewrite !Z.land_ones, !Z.shiftr_div_pow2 by lia.
  change (2 ^ 8) with 256. change (2 ^ 16) with 65536. change (2 ^ 24) with 16777216.
  pose proof (Z.div_mod z 256 ltac:(lia)).
  pose proof (Z.div_mod (z / 256) 256 ltac:(lia)).
  pose proof (Z.div_mod (z / 256 / 256) 256 ltac:(lia)).
  rewrite Z.div_div in * by lia.
  rewrite Z.div_div in * by lia.
  change (256 * 256) with 65536 in *. change (65536 * 256) with 16777216 in *.
  assert (z / 16777216 < 256) by (apply Z.div_lt_upper_bound; lia).
  assert (0 ≤ z / 16777216) by (apply Z.div_pos; lia).
  rewrite (Z.mod_small (z / 16777216) 256) by lia.
  lia.
Qed.

Lemma land_shiftr_mod z k : 0 ≤ k → k + 8 ≤ 32 →
  Z.land (Z.shiftr (z mod 2 ^ 32) k) 255 = Z.land (Z.shiftr z k) 255.
Proof.
  intros Hk Hk'. change 255 with (Z.ones 8).
  apply Z.bits_inj'. intros n Hn.
  rewrite !Z.land_spec, !Z.shiftr_spec by lia.
  destruct (Z.ltb_spec n 8).
  - rewrite Z.mod_pow2_bits_low by lia. done.
  - rewrite (Z.ones_spec_high 8) by lia. by rewrite !andb_false_r.
Qed.

Lemma le32_mod z : le32 z = le32 (z mod 2 ^ 32).
Proof.
  unfold le32.
  rewrite <- (Z.shiftr_0_r z) at 1. rewrite <- (Z.shiftr_0_r (z mod 2 ^ 32)) at 1.
  rewrite !land_shiftr_mod by lia. done.
Qed.

Lemma get32_le32 (pre post : list Z) z :
  get32 (pre ++ le32 z ++ post) (length pre) = z mod 2 ^ 32.
Proof.
  rewrite le32_mod. unfold get32. rewrite drop_app_length. simpl.
  apply byte_split. apply Z.mod_pos_bound. lia.
Qed.

Lemma get16_le16 (pre post : list Z) z :
  0 ≤ z < 65536 → get16 (pre ++ le16 z ++ post) (length pre) = z.
Proof.
  intros Hz. unfold get16. rewrite drop_app_length. simpl.
  change 255 with (Z.ones 8). rewrite !Z.land_ones, !Z.shiftr_div_pow2 by lia.
  change (2 ^ 8) with 256.
  pose proof (Z.div_mod z 256 ltac:(lia)).
  assert (z / 256 < 256) by (apply Z.div_lt_upper_bound; lia).
  assert (0 ≤ z / 256) by (apply Z.div_pos; lia).
  rewrite (Z.mod_small (z / 256) 256) by lia. lia.
Qed.

(** ** The bitmap encoder *)

Lemma pixel_Some bgra src x l :
  BmpWriter.pixel bgra src x = Some l →
  ∃ B G R, l = [B; G; R]
    ∧ rd bgra (src + (x * 4 + 0)) = Some B
    ∧ rd bgra (src + (x * 4 + 1)) = Some G
    ∧ rd bgra (src + (x * 4 + 2)) = Some R.
Proof.
  unfold BmpWriter.pixel. intros H.
  destruct (int_mul x 4) as [x4|] eqn:E4; simpl in H; [|done].
  apply int_mul_Some in E4 as [-> _].
  destruct (rd bgra (src + (x * 4 + 0))) as [B|] eqn:EB; simpl in H; [|done].
  destruct (rd bgra (src + (x * 4 + 1))) as [G|] eqn:EG; simpl in H; [|done].
  destruct (rd bgra (src + (x * 4 + 2))) as [R|] eqn:ER; simpl in H; [|done].
  destruct (int_mul x 3) as [x3|]; simpl in H; [|done].
  destruct (int_add x3 2); simpl in H; [|done].
  injection H as <-. eauto 10.
Qed.

Lemma row_Some bgra w pad y r :
  0 ≤ pad →
  BmpWriter.row bgra w pad y = Some r →
  0 ≤ w
  ∧ Z.of_nat (length r) = 3 * w + pad
  ∧ (∀ x k, 0 ≤ x < w → 0 ≤ k < 3 →
       r !! Z.to_nat (3 * x + k) = rd bgra (4 * (y * w + x) + k))
  ∧ (∀ j, 0 ≤ j < pad → r !! Z.to_nat (3 * w + j) = Some 0).
Proof.
  intros Hpad. unfold BmpWriter.row. intros H.
  destruct (int_mul y w) as [yw|] eqn:Eyw; simpl in H; [|done].
  apply int_mul_Some in Eyw as [-> _].
  destruct (int_mul (y * w) 4) as [src|] eqn:Esrc; simpl in H; [|done].
  apply int_mul_Some in Esrc as [-> _].
  destruct (mapM _ _) as [px|] eqn:Epx; simpl in H; [|done].
  destruct (Z.ltb_spec w 0) as [|Hw]; [done|]. injection H as <-.
  apply mapM_Some in Epx.
  assert (Hlen : length px = Z.to_nat w).
  { apply Forall2_length in Epx as <-. by rewrite length_seqZ. }
  assert (H3 : Forall (λ p : list Z, length p = 3%nat) px).
  { apply Forall_lookup. intros i p Hi.
    edestruct @Forall2_lookup_r as (x & _ & Hx); [exact Epx|exact Hi|].
    apply pixel_Some in Hx as (B & G & R & -> & _). done. }
  assert (Hcl : length (concat px) = Z.to_nat (3 * w)).
  { rewrite (concat_length_uniform _ _ H3), Hlen. lia. }
  split; [done|]. split; [|split].
  - rewrite length_app, length_replicate, Hcl. lia.
  - intros x k Hx Hk.
    rewrite lookup_app_l by lia.
    replace (Z.to_nat (3 * x + k)) with (Z.to_nat x * 3 + Z.to_nat k)%nat by lia.
    rewrite (concat_lookup_uniform _ _ _ _ H3) by lia.
    assert (Hs : seqZ 0 w !! Z.to_nat x = Some x).
    { apply lookup_seqZ. lia. }
    edestruct @Forall2_lookup_l as (p & Hp & Hpx); [exact Epx|exact Hs|].
    rewrite Hp. simpl.
    apply pixel_Some in Hpx as (B & G & R & -> & HB & HG & HR).
    assert (Hk3 : k = 0 ∨ k = 1 ∨ k = 2) by lia.
    destruct Hk3 as [-> | [-> | ->]]; simpl.
    + rewrite <- HB. f_equal. lia.
    + rewrite <- HG. f_equal. lia.
    + rewrite <- HR. f_equal. lia.
  - intros j Hj. rewrite lookup_app_r by lia.
    apply lookup_replicate_2. lia.
Qed.

(** The pad of the source, [(4 - stride % 4) & 3], is the pad of the format. *)
Lemma pad_eq w : 0 ≤ w →
  Z.land (4 - Z.rem (w * 3) 4) 3 = (4 - (3 * w) mod 4) mod 4.
Proof.
  intros Hw. rewrite Z.rem_mod_nonneg by lia.
  change 3 with (Z.ones 2) at 2. rewrite Z.land_ones by lia.
  replace (w * 3) with (3 * w) by lia. done.
Qed.

Lemma write_Some ok bgra w h out :
  0 < w → 0 < h →
  BmpWriter.write ok bgra w h = Some (Some out) →
  let pad := (4 - (3 * w) mod 4) mod 4 in
  let line := 3 * w + pad in
  ∃ rows,
    ok = true
    ∧ 54 + line * h ≤ INT_MAX + 54
    ∧ out = BmpWriter.fh_bytes
              {| BmpWriter.bfType := 0x4D42; BmpWriter.bfSize := uint32 (54 + line * h);
                 BmpWriter.bfReserved1 := 0; BmpWriter.bfReserved2 := 0;
                 BmpWriter.bfOffBits := 54 |}
            ++ BmpWriter.ih_bytes
              {| BmpWriter.biSize := 40; BmpWriter.biWidth := w;
                 BmpWriter.biHeight := - h; BmpWriter.biPlanes := 1;
                 BmpWriter.biBitCount := 24; BmpWriter.biCompression := 0;
                 BmpWriter.biSizeImage := 0; BmpWriter.biXPelsPerMeter := 0;
                 BmpWriter.biYPelsPerMeter := 0; BmpWriter.biClrUsed := 0;
                 BmpWriter.biClrImportant := 0 |}
            ++ concat rows
    ∧ Forall2 (λ y r, BmpWriter.row bgra w pad y = Some r) (seqZ 0 h) rows.
Proof.
  intros Hw Hh. unfold BmpWriter.write. intros H.
  destruct (int_neg h) as [nh|] eqn:Enh; simpl in H; [|done].
  apply int_neg_Some in Enh as [-> _].
  destruct (int_mul w 3) as [stride|] eqn:Es; simpl in H; [|done].
  apply int_mul_Some in Es as [-> _].
  rewrite pad_eq in H by lia.
  destruct (int_add _ _) as [sp|] eqn:Esp; simpl in H; [|done].
  apply int_add_Some in Esp as [-> _].
  destruct (int_mul _ h) as [dataSize|] eqn:Ed; simpl in H; [|done].
  apply int_mul_Some in Ed as [-> Hd].
  destruct ok; simpl in H; [|done].
  destruct (Z.ltb_spec (w * 3 + (4 - (3 * w) mod 4) mod 4) 0); [done|].
  destruct (mapM _ _) as [rows|] eqn:Er; simpl in H; [|done].
  injection H as <-. apply mapM_Some in Er.
  exists rows. replace (w * 3) with (3 * w) in * by lia.
  split; [done|]. split; [lia|]. split; [|done].
  change (uint32 (BmpWriter.sizeof_fh + BmpWriter.sizeof_ih)) with 54.
  reflexivity.
Qed.

Lemma le32_value z :
  Z.land z 255 + 256 * Z.land (Z.shiftr z 8) 255
  + 65536 * Z.land (Z.shiftr z 16) 255 + 16777216 * Z.land (Z.shiftr z 24) 255
  = z mod 2 ^ 32.
Proof.
  pose proof (get32_le32 [] [] z) as H. unfold get32 in H. simpl in H. exact H.
Qed.

Lemma le16_value z : 0 ≤ z < 65536 →
  Z.land z 255 + 256 * Z.land (Z.shiftr z 8) 255 = z.
Proof.
  intros Hz. pose proof (get16_le16 [] [] z Hz) as H.
  unfold get16 in H. simpl in H. exact H.
Qed.

Lemma header_length fh ih :
  length (BmpWriter.fh_bytes fh ++ BmpWriter.ih_bytes ih) = 54%nat.
Proof. reflexivity. Qed.

(** The encoder returns [true] on every image that an [int] can index. *)
Lemma write_defined (bgra : list Z) (w h : Z) :
  0 < w → 0 < h → 4 * w * h ≤ INT_MAX →
  Z.of_nat (length bgra) = 4 * w * h →
  ∃ out, BmpWriter.write true bgra w h = Some (Some out).
Proof.
  intros Hw Hh Hmax Hlen. unfold INT_MAX in Hmax.
  assert (Hwh : w ≤ w * h) by nia.
  assert (Hpadb : 0 ≤ (4 - (3 * w) mod 4) mod 4 < 4) by (apply Z.mod_pos_bound; lia).
  assert (Hline : 3 * w + (4 - (3 * w) mod 4) mod 4 ≤ 4 * w).
  { pose proof (Z.div_mod (3 * w) 4 ltac:(lia)).
    pose proof (Z.mod_pos_bound (3 * w) 4 ltac:(lia)).
    destruct (Z.eq_dec ((3 * w) mod 4) 0) as [E|E].
    - rewrite E. change ((4 - 0) mod 4) with 0. lia.
    - rewrite (Z.mod_small (4 - (3 * w) mod 4) 4) by lia.
      assert ((3 * w) mod 4 = 3 * w - 4 * (3 * w / 4)) by lia.
      assert (w mod 4 ≠ 0).
      { intros Hc. apply E. rewrite <- Z.mul_mod_idemp_r, Hc by lia. done. }
      assert (3 * w / 4 < w) by (apply Z.div_lt_upper_bound; lia).
      lia. }
  unfold BmpWriter.write, int_neg, int_mul, int_add.
  rewrite (to_int_in_range (- h)) by (unfold INT_MIN, INT_MAX; lia). simpl.
  rewrite (to_int_in_range (w * 3)) by (unfold INT_MIN, INT_MAX; lia). simpl.
  rewrite pad_eq by lia.
  rewrite (to_int_in_range (w * 3 + _)) by (unfold INT_MIN, INT_MAX; lia). simpl.
  rewrite (to_int_in_range ((w * 3 + _) * h)) by (unfold INT_MIN, INT_MAX; nia). simpl.
  destruct (Z.ltb_spec (w * 3 + (4 - (3 * w) mod 4) mod 4) 0); [lia|].
  destruct (mapM _ (seqZ 0 h)) as [rows|] eqn:Er; simpl; [eauto|].
  exfalso. apply mapM_None in Er. apply Exists_exists in Er as (y & Hy%list_elem_of_In & Hrow).
  apply elem_of_seqZ in Hy.
  revert Hrow. unfold BmpWriter.row, int_mul.
  rewrite (to_int_in_range (y * w)) by (unfold INT_MIN, INT_MAX; nia). simpl.
  rewrite (to_int_in_range (y * w * 4)) by (unfold INT_MIN, INT_MAX; nia). simpl.
  destruct (mapM _ (seqZ 0 w)) as [px|] eqn:Ep; simpl.
  { destruct (Z.ltb_spec w 0); [lia|done]. }
  intros _. apply mapM_None in Ep. apply Exists_exists in Ep as (x & Hx%list_elem_of_In & Hpix).
  apply elem_of_seqZ in Hx.
  revert Hpix. unfold BmpWriter.pixel, int_mul, int_add.
  rewrite (to_int_in_range (x * 4)) by (unfold INT_MIN, INT_MAX; nia). simpl.
  assert (Hin : ∀ k, 0 ≤ k < 4 → is_Some (rd bgra (y * w * 4 + (x * 4 + k)))).
  { intros k Hk. apply rd_in_bounds. nia. }
  destruct (Hin 0 ltac:(lia)) as [B ->].
  destruct (Hin 1 ltac:(lia)) as [G ->].
  destruct (Hin 2 ltac:(lia)) as [R ->]. simpl.
  rewrite (to_int_in_range (x * 3)) by (unfold INT_MIN, INT_MAX; nia). simpl.
  rewrite (to_int_in_range (x * 3 + 2)) by (unfold INT_MIN, INT_MAX; nia). done.
Qed.

(** C10 — For every width [w > 0], height [h > 0] and buffer of [4*w*h]
    BGRA bytes, a [BmpWriter::write] that returns [true] has written exactly
    [54 + (3*w + pad) * h] bytes, with [pad = (4 - (3*w mod 4)) mod 4]; this
    count is the [bfSize] field of the file header; line [y] of the output
    holds the B, G, R bytes of each pixel of line [y] of the input, in order
    and without the alpha byte, followed by [pad] zero bytes; the header
    declares 24 bits per pixel, no compression and the height [-h]
    (top-down lines). *)
Theorem bmp_write_layout (ok : bool) (bgra : list Z) (w h : Z) (out : list Z) :
  0 < w → 0 < h → Z.of_nat (length bgra) = 4 * w * h →
  BmpWriter.write ok bgra w h = Some (Some out) →
  let pad := (4 - (3 * w) mod 4) mod 4 in
  let line := 3 * w + pad in
  Z.of_nat (length out) = 54 + line * h
  ∧ get32 out 2 = 54 + line * h
  ∧ (∀ y x k, 0 ≤ y < h → 0 ≤ x < w → 0 ≤ k < 3 →
       out !! Z.to_nat (54 + y * line + 3 * x + k)
       = bgra !! Z.to_nat (4 * (y * w + x) + k))
  ∧ (∀ y j, 0 ≤ y < h → 0 ≤ j < pad →
       out !! Z.to_nat (54 + y * line + 3 * w + j) = Some 0)
  ∧ get16 out 28 = 24
  ∧ get32 out 30 = BmpWriter.BI_RGB
  ∧ get32s out 22 = - h.
Proof.
  intros Hw Hh Hlen Hwr pad line.
  destruct (write_Some _ _ _ _ _ Hw Hh Hwr) as (rows & -> & Hsz & Hout & Hrows).
  fold pad in Hsz, Hout, Hrows. fold line in Hsz, Hout.
  assert (Hpad : 0 ≤ pad < 4) by (apply Z.mod_pos_bound; lia).
  assert (Hld : line = 3 * w + pad) by reflexivity.
  clearbody line pad.
  assert (Hline : 3 ≤ line) by lia.
  assert (0 < line * h) by nia.
  assert (Hrl : length rows = Z.to_nat h).
  { apply Forall2_length in Hrows as <-. by rewrite length_seqZ. }
  assert (Hall : Forall (λ r : list Z, length r = Z.to_nat line) rows).
  { apply Forall_lookup. intros i r Hi.
    edestruct @Forall2_lookup_r as (y & _ & Hy); [exact Hrows|exact Hi|].
    apply row_Some in Hy as (_ & Hl & _); lia. }
  assert (Hrow : ∀ y, 0 ≤ y < h → ∃ r, rows !! Z.to_nat y = Some r
                   ∧ BmpWriter.row bgra w pad y = Some r).
  { intros y Hy.
    assert (Hs : seqZ 0 h !! Z.to_nat y = Some y) by (apply lookup_seqZ; lia).
    edestruct @Forall2_lookup_l as (r & Hr & Hry); [exact Hrows|exact Hs|]. eauto. }
  unfold INT_MAX in Hsz.
  split; [|split; [|split; [|split; [|split; [|split]]]]].
  - rewrite Hout, app_assoc, length_app, header_length.
    rewrite (concat_length_uniform _ _ Hall), Hrl.
    rewrite Nat2Z.inj_add, Nat2Z.inj_mul, !Z2Nat.id by lia.
    change (Z.of_nat 54) with 54. ring.
  - rewrite Hout. unfold get32. cbn [drop app BmpWriter.fh_bytes le16 le32 BmpWriter.bfSize].
    rewrite le32_value. fold (uint32 (uint32 (54 + line * h))).
    rewrite (uint32_small (54 + line * h)) by lia.
    rewrite uint32_small by lia. done.
  - intros y x k Hy Hx Hk.
    destruct (Hrow y Hy) as (r & Hr & Hry).
    apply row_Some in Hry as (_ & _ & Hpx & _); [|lia].
    rewrite Hout, app_assoc, lookup_app_r; rewrite header_length; [|nia].
    replace (Z.to_nat (54 + y * line + 3 * x + k) - 54)%nat
      with (Z.to_nat y * Z.to_nat line + Z.to_nat (3 * x + k))%nat by nia.
    rewrite (concat_lookup_uniform _ _ _ _ Hall) by lia.
    rewrite Hr. simpl. rewrite Hpx by lia. apply rd_lookup. nia.
  - intros y j Hy Hj.
    destruct (Hrow y Hy) as (r & Hr & Hry).
    apply row_Some in Hry as (_ & _ & _ & Hz); [|lia].
    rewrite Hout, app_assoc, lookup_app_r; rewrite header_length; [|nia].
    replace (Z.to_nat (54 + y * line + 3 * w + j) - 54)%nat
      with (Z.to_nat y * Z.to_nat line + Z.to_nat (3 * w + j))%nat by nia.
    rewrite (concat_lookup_uniform _ _ _ _ Hall) by lia.
    rewrite Hr. simpl. apply Hz. lia.
  - rewrite Hout. unfold get16.
    cbn [drop app BmpWriter.fh_bytes BmpWriter.ih_bytes le16 le32 BmpWriter.biBitCount].
    apply le16_value. lia.
  - rewrite Hout. unfold get32.
    cbn [drop app BmpWriter.fh_bytes BmpWriter.ih_bytes le16 le32 BmpWriter.biCompression].
    rewrite le32_value. done.
  - rewrite Hout. unfold get32s, get32.
    cbn [drop app BmpWriter.fh_bytes BmpWriter.ih_bytes le16 le32 BmpWriter.biHeight].
    rewrite le32_value.
    assert (Hh' : h ≤ 2 ^ 31) by nia.
    replace ((- h) mod 2 ^ 32) with (2 ^ 32 - h).
    + destruct (Z.ltb_spec (2 ^ 32 - h) (2 ^ 31)); lia.
    + apply Z.mod_unique with (q := -1); lia.
Qed.

(** ** The primitive operations *)

Lemma log_line_run msg s :
  log_line msg s = Some (tt, logged s, log_effects msg s).
Proof.
  unfold log_line, log_effects, logged, log_opened, skip, emit, modify, get,
    mbind, M_bind, mret, M_ret.
  destruct s as [? ? ? ? lp ? ? ? ? ? ? ? ?]. by destruct lp.
Qed.

Lemma logf_run msg s :
  logf msg s = Some (tt, logged s, log_effects msg s).
Proof. apply log_line_run. Qed.

Lemma log_line_Some msg s a s' e :
  log_line msg s = Some (a, s', e) ↔ s' = logged s ∧ e = log_effects msg s.
Proof. rewrite log_line_run. destruct a. naive_solver. Qed.

Lemma logf_Some msg s a s' e :
  logf msg s = Some (a, s', e) ↔ s' = logged s ∧ e = log_effects msg s.
Proof. apply log_line_Some. Qed.

Lemma CreateTexture2D_run usage ok w h s :
  CreateTexture2D usage ok w h s =
  Some (if ok then Some (next_handle s) else None,
        if ok then alloc_texture w h s else s,
        [GpuCreateTexture usage ok]).
Proof. by destruct ok. Qed.

Lemma CreateTexture2D_Some usage ok w h s a s' e :
  CreateTexture2D usage ok w h s = Some (a, s', e) ↔
  a = (if ok then Some (next_handle s) else None)
  ∧ s' = (if ok then alloc_texture w h s else s)
  ∧ e = [GpuCreateTexture usage ok].
Proof. rewrite CreateTexture2D_run. naive_solver. Qed.

Lemma CopyResource_run dst src s :
  CopyResource dst src s = Some (tt, copy_texture dst src s, [GpuCopyResource dst]).
Proof. done. Qed.

Lemma CopyResource_Some dst src s a s' e :
  CopyResource dst src s = Some (a, s', e) ↔
  s' = copy_texture dst src s ∧ e = [GpuCopyResource dst].
Proof. rewrite CopyResource_run. destruct a. naive_solver. Qed.

Lemma fs_rename_run from to ok s :
  fs_rename from to ok s =
  Some (ok, if ok then rename_file from to s else s, [FsRename from to ok]).
Proof. by destruct ok. Qed.

Lemma fs_rename_Some from to ok s a s' e :
  fs_rename from to ok s = Some (a, s', e) ↔
  a = ok ∧ s' = (if ok then rename_file from to s else s) ∧ e = [FsRename from to ok].
Proof. rewrite fs_rename_run. naive_solver. Qed.

Lemma fs_remove_run p ok s :
  fs_remove p ok s =
  Some (tt, if ok then set_files (delete p (files s)) s else s, [FsRemove p ok]).
Proof. by destruct ok. Qed.

Lemma fs_remove_Some p ok s a s' e :
  fs_remove p ok s = Some (a, s', e) ↔
  s' = (if ok then set_files (delete p (files s)) s else s) ∧ e = [FsRemove p ok].
Proof. rewrite fs_remove_run. destruct a. naive_solver. Qed.

Lemma frames_dir_run s :
  frames_dir s =
  Some (path_append (sessions_dir (base_path s)) "frames", s,
        [GetEnv; FsCreateDirectories (path_append (sessions_dir (base_path s)) "frames")]).
Proof. done. Qed.

(** The diagnostic lines are made of log effects only. *)
Lemma log_effects_log msg s : Forall (λ x, is_log_effect x = true) (log_effects msg s).
Proof. unfold log_effects. destruct (logPath_set s); repeat constructor. Qed.

(** A list of diagnostic lines, logged one after the other. *)
Lemma iter_logged_same n s : same_but_statics s (Nat.iter n logged s).
Proof.
  induction n as [|n IH]; simpl; [by repeat split|].
  destruct IH as (? & ? & ? & ? & ? & ? & ? & ? & ? & ?). by repeat split.
Qed.

Lemma iter_logged_S n s : Nat.iter n logged (logged s) = Nat.iter (S n) logged s.
Proof. induction n as [|n IH]; [done|]. simpl in *. by rewrite IH. Qed.

Lemma mapM_logf_run msgs s :
  ∃ e, mapM logf msgs s
       = Some (replicate (length msgs) tt, Nat.iter (length msgs) logged s, e)
       ∧ Forall (λ x, is_log_effect x = true) e.
Proof.
  revert s. induction msgs as [|m msgs IH]; intros s.
  - eexists. split; [reflexivity|constructor].
  - destruct (IH (logged s)) as (e & He & Hlog).
    eexists. split.
    + cbn [mapM]. erewrite bind_run by apply logf_run.
      erewrite bind_run by exact He. unfold mret, M_ret.
      rewrite iter_logged_S. reflexivity.
    + rewrite !Forall_app. repeat split; [apply log_effects_log|done|constructor].
Qed.

Lemma log_probe_Some bgra W H s a s' e :
  log_probe bgra W H s = Some (a, s', e) →
  Forall (λ x, is_log_effect x = true) e ∧ same_but_statics s s'.
Proof.
  unfold log_probe. intros Hr.
  apply bind_Some in Hr as (s0 & s1 & e1 & e2 & (-> & -> & ->)%get_Some & Hr & ->).
  destruct (loggedProbe s).
  - apply skip_Some in Hr as (-> & ->). split; [constructor|]. by repeat split.
  - apply bind_Some in Hr as (msgs & s1 & e1 & e3 & (Hp & -> & ->)%lift_Some & Hr & ->).
    apply bind_Some in Hr as (u & s2 & e4 & e5 & Hm & (-> & ->)%modify_Some & ->).
    destruct (mapM_logf_run msgs s) as (e6 & He6 & Hlog).
    rewrite He6 in Hm. injection Hm as <- <- <-.
    split; [by rewrite !app_nil_l, app_nil_r|].
    destruct (iter_logged_same (length msgs) s)
      as (? & ? & ? & ? & ? & ? & ? & ? & ? & ?).
    by repeat split.
Qed.

Lemma log_probe_run bgra W H s :
  is_Some (probe bgra W H) →
  ∃ s' e, log_probe bgra W H s = Some (tt, s', e).
Proof.
  intros [msgs Hp]. unfold log_probe.
  erewrite bind_run by reflexivity.
  destruct (loggedProbe s); [by eexists _, _|].
  erewrite bind_run by (unfold lift; rewrite Hp; reflexivity).
  destruct (mapM_logf_run msgs s) as (e & He & _).
  erewrite bind_run by exact He. by eexists _, _.
Qed.

(** Inversion of a run, with the primitive operations taken as steps. *)
Ltac step_inv1 :=
  match goal with
  | H : log_line _ _ = Some _ |- _ => apply log_line_Some in H as (? & ?)
  | H : logf _ _ = Some _ |- _ => apply logf_Some in H as (? & ?)
  | H : CreateTexture2D _ _ _ _ _ = Some _ |- _ =>
      apply CreateTexture2D_Some in H as (? & ? & ?)
  | H : CopyResource _ _ _ = Some _ |- _ => apply CopyResource_Some in H as (? & ?)
  | H : fs_rename _ _ _ _ = Some _ |- _ => apply fs_rename_Some in H as (? & ? & ?)
  | H : fs_remove _ _ _ = Some _ |- _ => apply fs_remove_Some in H as (? & ?)
  | H : log_probe _ _ _ _ = Some _ |- _ =>
      apply log_probe_Some in H
        as (? & (? & ? & ? & ? & ? & ? & ? & ? & ? & ?))
  | H : mapM logf ?msgs ?s = Some _ |- _ =>
      let Hm := fresh in
      destruct (mapM_logf_run msgs s) as (? & Hm & ?); rewrite Hm in H; clear Hm
  | _ => minv1
  | H : (match ?x with _ => _ end) _ = Some _ |- _ => destruct x eqn:?
  end.
Ltac step_inv := repeat (step_inv1; simplify_eq/=).

Lemma log_effects_no_file_op msg s : List.filter is_frame_file_op (log_effects msg s) = [].
Proof. unfold log_effects. by destruct (logPath_set s). Qed.

Lemma filter_log_effects (f : Effect → bool) (e : list Effect) :
  (∀ x, is_log_effect x = true → f x = false) →
  Forall (λ x, is_log_effect x = true) e → List.filter f e = [].
Proof.
  intros Hf. induction 1 as [|x e Hx He IH]; simpl; [done|].
  by rewrite (Hf x Hx).
Qed.

Lemma emits_log_line P msg :
  (∀ e, is_log_effect e = true → P e) → emits P (log_line msg).
Proof.
  intros HP s a s' e (_ & ->)%log_line_Some.
  eapply Forall_weaken; [|apply log_effects_log]. simpl. auto.
Qed.

Lemma emits_logf P msg :
  (∀ e, is_log_effect e = true → P e) → emits P (logf msg).
Proof. apply emits_log_line. Qed.

Lemma emits_mapM_logf P msgs :
  (∀ e, is_log_effect e = true → P e) → emits P (mapM logf msgs).
Proof.
  intros HP s a s' e H.
  destruct (mapM_logf_run msgs s) as (e' & He' & Hlog).
  rewrite He' in H. injection H as <- <- <-.
  eapply Forall_weaken; [|exact Hlog]. simpl. auto.
Qed.

Lemma emits_log_probe P bgra W H :
  (∀ e, is_log_effect e = true → P e) → emits P (log_probe bgra W H).
Proof.
  intros HP s a s' e (Hlog & _)%log_probe_Some.
  eapply Forall_weaken; [|exact Hlog]. simpl. auto.
Qed.

(** Proving a property of every effect of a program, by its structure. *)
Ltac solve_emits :=
  repeat (intros; lazymatch goal with
  | |- emits _ (_ ≫= _) => apply emits_bind
  | |- emits _ (mret _) => apply emits_ret
  | |- emits _ skip => apply emits_skip
  | |- emits _ (emit _) => apply emits_emit; try done
  | |- emits _ get => apply emits_get
  | |- emits _ (modify _) => apply emits_modify
  | |- emits _ (lift _) => apply emits_lift
  | |- emits _ (log_line _) => apply emits_log_line; try by intros []
  | |- emits _ (logf _) => apply emits_logf; try by intros []
  | |- emits _ (mapM logf _) => apply emits_mapM_logf; try by intros []
  | |- emits _ (log_probe _ _ _) => apply emits_log_probe; try by intros []
  | |- emits _ (match ?x with _ => _ end) => destruct x
  end).

Lemma log_lines_app e1 e2 : log_lines (e1 ++ e2) = log_lines e1 ++ log_lines e2.
Proof. apply omap_app. Qed.

Lemma log_lines_log_effects msg s : log_lines (log_effects msg s) = [msg].
Proof. unfold log_effects. by destruct (logPath_set s). Qed.

(** ** The shared frame buffer *)

Ltac run_M :=
  unfold logf, log_line, CreateTexture2D, CopyResource, alloc_texture,
    copy_texture, skip, emit, modify, get, lift, mbind, M_bind, mret, M_ret;
  simpl.

Ltac destruct_state s :=
  let tx := fresh "tx" in
  destruct s as [?bp ?fs ?g ?nh ?lps ?lp ?sc [tx ?sw ?sh] ?rn ?fe ?sr ?si ?lo];
  simpl in *.

(** C7 — For every call of [update]: a texture is requested from the device
    exactly when the buffer holds none or its stored size differs from the
    size of the incoming frame; when that request fails, [update] returns
    with the buffer (texture, width, height) and the textures unchanged and
    without any copy; otherwise the incoming frame is copied into the
    texture of the buffer, and the stored size is the size of the frame. *)
Theorem update_spec (ok : bool) (src : Texture) (s : State) :
  shared_consistent s →
  let need := SharedFrame.tex (shared s) = None
              ∨ SharedFrame.w (shared s) ≠ Width src
              ∨ SharedFrame.h (shared s) ≠ Height src in
  ∃ s' effs,
    update ok src s = Some (tt, s', effs)
    ∧ ((∃ b, GpuCreateTexture USAGE_DEFAULT b ∈ effs) ↔ need)
    ∧ (need → ok = false →
         shared s' = shared s ∧ gpu s' = gpu s
         ∧ ∀ d, GpuCopyResource d ∉ effs)
    ∧ (¬ (need ∧ ok = false) →
         ∃ t T, SharedFrame.tex (shared s') = Some t
           ∧ gpu s' !! t = Some T
           ∧ pixels T = pixels src
           ∧ Width T = Width src ∧ Height T = Height src
           ∧ SharedFrame.w (shared s') = Width src
           ∧ SharedFrame.h (shared s') = Height src
           ∧ GpuCopyResource t ∈ effs).
Proof.
  intros Hinv need. unfold shared_consistent in Hinv. subst need.
  destruct_state s.
  destruct tx as [t|];
    [destruct Hinv as (Hlt & T & HT & HW & HH);
     destruct (Z.eqb_spec sw (Width src)) as [Ew|Ew];
     [destruct (Z.eqb_spec sh (Height src)) as [Eh|Eh]|]|].
  - (* same size: the copy goes into the texture of the buffer *)
    unfold update. run_M.
    rewrite (proj2 (Z.eqb_eq _ _) Ew), (proj2 (Z.eqb_eq _ _) Eh). simpl.
    rewrite HT, HW, HH, Ew, Eh, !Z.eqb_refl. simpl.
    eexists _, _. split; [reflexivity|]. split; [|split].
    + split; [|intros [?|[?|?]]; congruence].
      intros [b Hb]. rewrite !elem_of_cons, elem_of_nil in Hb. naive_solver.
    + intros [?|[?|?]]; congruence.
    + intros _. eexists _, _. simpl. rewrite lookup_insert_eq.
      repeat (split; [reflexivity || congruence|]).
      rewrite !elem_of_cons. auto.
  - (* the height differs *)
    unfold update. run_M.
    rewrite (proj2 (Z.eqb_eq _ _) Ew), (proj2 (Z.eqb_neq _ _) Eh). simpl.
    destruct ok, lps; simpl;
      rewrite ?lookup_insert_eq; simpl; rewrite ?Z.eqb_refl; simpl;
      (eexists _, _; split; [reflexivity|]; split; [|split];
       [ split; [auto|]; intros _; eexists; rewrite !elem_of_cons; eauto
       | try done; intros _ _; repeat split; intros d;
         rewrite !elem_of_cons, elem_of_nil; naive_solver
       | try (intros Hc; destruct Hc; by auto); intros _;
         eexists _, _; simpl; rewrite lookup_insert_eq;
         repeat (split; [reflexivity|]);
         rewrite !elem_of_cons; auto 10 ]).
  - (* the width differs *)
    unfold update. run_M.
    rewrite (proj2 (Z.eqb_neq _ _) Ew). simpl.
    destruct ok, lps; simpl;
      rewrite ?lookup_insert_eq; simpl; rewrite ?Z.eqb_refl; simpl;
      (eexists _, _; split; [reflexivity|]; split; [|split];
       [ split; [auto|]; intros _; eexists; rewrite !elem_of_cons; eauto
       | try done; intros _ _; repeat split; intros d;
         rewrite !elem_of_cons, elem_of_nil; naive_solver
       | try (intros Hc; destruct Hc; by auto); intros _;
         eexists _, _; simpl; rewrite lookup_insert_eq;
         repeat (split; [reflexivity|]);
         rewrite !elem_of_cons; auto 10 ]).
  - (* no texture yet *)
    unfold update. run_M.
    destruct ok, lps; simpl;
      rewrite ?lookup_insert_eq; simpl; rewrite ?Z.eqb_refl; simpl;
      (eexists _, _; split; [reflexivity|]; split; [|split];
       [ split; [auto|]; intros _; eexists; rewrite !elem_of_cons; eauto
       | try done; intros _ _; repeat split; intros d;
         rewrite !elem_of_cons, elem_of_nil; naive_solver
       | try (intros Hc; destruct Hc; by auto); intros _;
         eexists _, _; simpl; rewrite lookup_insert_eq;
         repeat (split; [reflexivity|]);
         rewrite !elem_of_cons; auto 10 ]).
Qed.

(** ** The atomic file writer *)

Lemma write_result_ok ok bgra w h r :
  BmpWriter.write ok bgra w h = Some r → bool_decide (is_Some r) = ok.
Proof.
  unfold BmpWriter.write. intros H.
  destruct (int_neg h); simpl in H; [|done].
  destruct (int_mul w 3); simpl in H; [|done].
  destruct (int_add _ _) as [sp|]; simpl in H; [|done].
  destruct (int_mul sp h); simpl in H; [|done].
  destruct ok; simpl in H; [|by injection H as <-].
  destruct (sp <? 0); [done|].
  destruct (mapM _ _); simpl in H; [|done]. by injection H as <-.
Qed.

Lemma file_ops_of_logs (e : list Effect) :
  Forall (λ x, is_log_effect x = true) e → List.filter is_frame_file_op e = [].
Proof. apply filter_log_effects. by intros []. Qed.

Ltac file_ops :=
  repeat progress (rewrite ?List.filter_app; simpl;
                   rewrite ?log_effects_no_file_op, ?app_nil_r);
  repeat match goal with
  | Hl : Forall (λ x, is_log_effect x = true) ?e |- _ =>
      rewrite (file_ops_of_logs e Hl); clear Hl
  end; simpl.

Lemma write_and_rename_ops env bgra W H outPath s s' effs :
  write_and_rename env bgra W H outPath s = Some (tt, s', effs) →
  List.filter is_frame_file_op effs = writer_file_ops env outPath.
Proof.
  intros Hr. unfold write_and_rename in Hr. unfold writer_file_ops.
  step_inv;
    match goal with
    | Hw : BmpWriter.write _ _ _ _ = Some _ |- _ =>
        apply write_result_ok in Hw; simpl in Hw; rewrite <- Hw
    end; file_ops; reflexivity.
Qed.


Lemma emits_write_and_rename P env bgra W H outPath :
  (∀ e, is_log_effect e = true → P e) →
  (∀ e, is_frame_file_op e = true → P e) →
  emits P (write_and_rename env bgra W H outPath).
Proof.
  intros Hlog Hfile. unfold write_and_rename, fs_rename, fs_remove.
  solve_emits; auto.
Qed.

Lemma emits_save_staging_to_file P env src outPath :
  (∀ e, is_log_effect e = true → P e) →
  (∀ e, is_frame_file_op e = true → P e) →
  (∀ b, P (GpuCreateTexture USAGE_STAGING b)) →
  (∀ d, P (GpuCopyResource d)) →
  (∀ b, P (GpuMap b)) → P GpuUnmap →
  emits P (save_staging_to_file env src outPath).
Proof.
  intros Hlog Hfile Hct Hcp Hmap Hun.
  unfold save_staging_to_file, CreateTexture2D, CopyResource.
  solve_emits; auto using emits_write_and_rename.
Qed.

(** ** The download of a texture *)

Lemma drop_concat_uniform {A} (ls : list (list A)) (n k : nat) :
  Forall (λ l, length l = n) ls → drop (k * n) (concat ls) = concat (drop k ls).
Proof.
  intros Hall. revert k. induction Hall as [|l ls Hl Hall IH]; intros k.
  - simpl. by rewrite !drop_nil.
  - destruct k as [|k]; simpl; [done|].
    rewrite drop_app_ge by lia.
    replace (n + k * n - length l)%nat with (k * n)%nat by lia. apply IH.
Qed.

Lemma take_add_drop {A} (l : list A) (a b : nat) :
  take (a + b) l = take a l ++ take b (drop a l).
Proof.
  revert l. induction a as [|a IH]; intros l; simpl; [done|].
  destruct l; simpl; [by rewrite take_nil|]. by rewrite IH.
Qed.

Section download.
Variables (T : Texture) (pitch : Z).
Hypothesis Hwf : texture_wf T.
Hypothesis Hsize : 4 * Width T * Height T < 2 ^ 32.
Hypothesis Hpitch : 4 * Width T ≤ pitch.
Hypothesis Hmapped : pitch * Height T < 2 ^ 32.

Let c : nat := Z.to_nat (4 * Width T).
Let p : nat := Z.to_nat pitch.
Let n : nat := Z.to_nat (Height T).

Local Lemma pixels_length : length (pixels T) = (n * c)%nat.
Proof. destruct Hwf as (? & ? & Hl). unfold n, c. nia. Qed.

Local Lemma c_le_p : (c ≤ p)%nat.
Proof. unfold c, p. lia. Qed.

Local Lemma row_nat (i : nat) :
  texture_row T (Z.of_nat i) = take c (drop (i * c) (pixels T)).
Proof.
  unfold texture_row. fold c. f_equal. f_equal.
  destruct Hwf as (? & ? & _). unfold c. nia.
Qed.

Local Lemma row_length (i : nat) :
  (i < n)%nat → length (texture_row T (Z.of_nat i)) = c.
Proof.
  intros Hi. rewrite row_nat, length_take, length_drop, pixels_length. nia.
Qed.

Let padded (i : nat) : list Z := padded_row T pitch (Z.of_nat i).

Local Lemma padded_eq (i : nat) :
  (i < n)%nat →
  padded i = texture_row T (Z.of_nat i) ++ replicate (p - c) 0.
Proof. intros Hi. unfold padded, padded_row. simpl. by rewrite row_length. Qed.

Local Lemma mapped_nat :
  mapped_image T pitch = concat (map padded (seq 0 n)).
Proof.
  unfold mapped_image, seqZ. fold n. f_equal.
  change (@fmap list _) with (@map). rewrite map_map.
  apply map_ext. intros i. unfold padded. f_equal. lia.
Qed.

Local Lemma padded_length : Forall (λ l, length l = p) (map padded (seq 0 n)).
Proof.
  apply Forall_forall. intros l (i & <- & Hi%in_seq)%in_map_iff.
  rewrite padded_eq, length_app, length_replicate, row_length by lia.
  pose proof c_le_p. lia.
Qed.

Local Lemma mapped_length : length (mapped_image T pitch) = (n * p)%nat.
Proof.
  rewrite mapped_nat, (concat_length_uniform _ _ padded_length).
  by rewrite length_map, length_seq.
Qed.

Local Lemma mapped_row (k : nat) :
  (k < n)%nat →
  take c (drop (k * p) (mapped_image T pitch)) = take c (drop (k * c) (pixels T)).
Proof.
  intros Hk. rewrite mapped_nat, (drop_concat_uniform _ _ _ padded_length).
  change (@drop) with (@skipn). rewrite skipn_map, skipn_seq.
  replace (n - k)%nat with (S (n - S k)) by lia.
  simpl. rewrite padded_eq by lia. rewrite <- !app_assoc.
  rewrite take_app_length'; [apply row_nat|symmetry; by apply row_length].
Qed.

Local Lemma copy_rows_spec (m k : nat) :
  (k + m = n)%nat →
  copy_rows (mapped_image T pitch) pitch (Width T)
    (map Z.of_nat (seq k m))
    (take (k * c) (pixels T) ++ replicate (m * c) 0)
  = Some (pixels T).
Proof.
  destruct Hwf as (HW & HH & Hlen).
  revert k. induction m as [|m IH]; intros k Hk.
  - simpl. rewrite app_nil_r, take_ge; [done|]. rewrite pixels_length. nia.
  - simpl.
    assert (Hkn : Z.of_nat k < Height T) by lia.
    rewrite (uint32_small (Z.of_nat k * Width T)) by nia.
    rewrite (uint32_small (Z.of_nat k * Width T * 4)) by nia.
    rewrite (uint32_small (Z.of_nat k * pitch)) by nia.
    rewrite (uint32_small (Width T * 4)) by nia.
    unfold memcpy.
    rewrite length_app, length_take, length_replicate, pixels_length, mapped_length.
    do 2 match goal with
    | |- context [?a <=? ?b] =>
        rewrite (proj2 (Z.leb_le a b)) by (unfold c, p, n in *; nia)
    end.
    simpl.
    replace (Z.to_nat (Z.of_nat k * Width T * 4)) with (k * c)%nat by (unfold c; nia).
    replace (Z.to_nat (Width T * 4)) with c by (unfold c; nia).
    replace (Z.to_nat (Z.of_nat k * pitch)) with (k * p)%nat by (unfold p; nia).
    replace (Z.to_nat (Z.of_nat k * Width T * 4 + Width T * 4))
      with (k * c + c)%nat by (unfold c; nia).
    rewrite mapped_row by lia.
    assert (Hlt : length (take (k * c) (pixels T)) = (k * c)%nat).
    { rewrite length_take, pixels_length. nia. }
    rewrite take_app_length' by done.
    rewrite drop_app_ge by lia. rewrite Hlt.
    replace (k * c + c - k * c)%nat with c by lia.
    rewrite drop_replicate. replace (c + m * c - c)%nat with (m * c)%nat by lia.
    rewrite app_assoc, <- take_add_drop.
    replace (k * c + c)%nat with (S k * c)%nat by lia.
    apply IH. lia.
Qed.

Lemma download_ok :
  download (mapped_image T pitch) pitch (Width T) (Height T) = Some (pixels T).
Proof.
  destruct Hwf as (HW & HH & Hlen).
  unfold download.
  rewrite (uint32_small (Width T * Height T)) by nia.
  rewrite (uint32_small (Width T * Height T * 4)) by nia.
  pose proof (copy_rows_spec n 0 ltac:(lia)) as Hc. simpl in Hc.
  replace (Z.to_nat (Width T * Height T * 4)) with (n * c)%nat by (unfold n, c; nia).
  unfold seqZ. fold n.
  replace ((λ i : nat, Z.of_nat i + 0) <$> seq 0 n) with (map Z.of_nat (seq 0 n)).
  - exact Hc.
  - apply map_ext. intros i. lia.
Qed.
End download.

(** ** The probe *)

Lemma int_of_uint_small u : 0 ≤ u < 2 ^ 31 → int_of_uint u = u.
Proof. intros. unfold int_of_uint. destruct (Z.ltb_spec u (2 ^ 31)); lia. Qed.

Lemma probe_cell_defined bgra W H acc d :
  0 < W → 0 < H → 4 * W * H ≤ INT_MAX →
  Z.of_nat (length bgra) = 4 * W * H →
  -5 ≤ d.1 ≤ 5 → -5 ≤ d.2 ≤ 5 →
  is_Some (probe_cell bgra W H (W / 2) (H / 2) (Some acc) d).
Proof.
  intros HW HH Hmax Hlen Hd1 Hd2. unfold INT_MAX in Hmax.
  assert (HWb : W < 2 ^ 29) by nia.
  assert (HHb : H < 2 ^ 29) by nia.
  assert (Hcx : 0 ≤ W / 2 < 2 ^ 29).
  { split; [apply Z.div_pos; lia|apply Z.div_lt_upper_bound; lia]. }
  assert (Hcy : 0 ≤ H / 2 < 2 ^ 29).
  { split; [apply Z.div_pos; lia|apply Z.div_lt_upper_bound; lia]. }
  unfold probe_cell. destruct acc as [[[sumB sumG] sumR] count]. simpl.
  rewrite !int_of_uint_small by lia.
  unfold int_add.
  rewrite (to_int_in_range (W / 2 + d.2)) by (unfold INT_MIN, INT_MAX; lia). simpl.
  rewrite (to_int_in_range (H / 2 + d.1)) by (unfold INT_MIN, INT_MAX; lia). simpl.
  destruct (_ && _) eqn:E; [|eauto].
  apply andb_true_iff in E as [E Hy%Z.ltb_lt].
  apply andb_true_iff in E as [E Hx%Z.ltb_lt].
  apply andb_true_iff in E as [Hx0%Z.leb_le Hy0%Z.leb_le].
  set (x := W / 2 + d.2) in *. set (y := H / 2 + d.1) in *.
  rewrite (uint32_small y), (uint32_small x) by lia.
  rewrite (uint32_small (y * W + x)) by nia.
  rewrite (uint32_small ((y * W + x) * 4)) by nia.
  assert (Hin : ∀ k, 0 ≤ k < 4 → is_Some (rd bgra ((y * W + x) * 4 + k))).
  { intros k Hk. apply rd_in_bounds. nia. }
  destruct (Hin 0 ltac:(lia)) as [b Hb]. rewrite Z.add_0_r in Hb. rewrite Hb.
  destruct (Hin 1 ltac:(lia)) as [g ->].
  destruct (Hin 2 ltac:(lia)) as [r ->]. simpl. eauto.
Qed.

Lemma probe_offsets_range : Forall (λ d, -5 ≤ d.1 ≤ 5 ∧ -5 ≤ d.2 ≤ 5) probe_offsets.
Proof.
  assert (Hb : forallb (λ d : Z * Z, (-5 <=? d.1) && (d.1 <=? 5)
                                     && (-5 <=? d.2) && (d.2 <=? 5))
                 probe_offsets = true) by (vm_compute; reflexivity).
  rewrite forallb_forall in Hb. apply Forall_forall. intros d Hd.
  apply Hb in Hd. rewrite !andb_true_iff, !Z.leb_le in Hd. lia.
Qed.

Lemma probe_defined bgra W H :
  0 < W → 0 < H → 4 * W * H ≤ INT_MAX →
  Z.of_nat (length bgra) = 4 * W * H →
  is_Some (probe bgra W H).
Proof.
  intros HW HH Hmax Hlen.
  assert (Hfold : ∀ l acc, Forall (λ d, -5 ≤ d.1 ≤ 5 ∧ -5 ≤ d.2 ≤ 5) l →
            is_Some (foldl (probe_cell bgra W H (W / 2) (H / 2)) (Some acc) l)).
  { induction l as [|d l IH]; intros acc Hl; cbn [foldl]; [eauto|].
    inversion Hl as [|? ? [Hd1 Hd2] Hl']; subst.
    destruct (probe_cell_defined bgra W H acc d HW HH Hmax Hlen Hd1 Hd2) as [acc' ->].
    by apply IH. }
  unfold INT_MAX in Hmax.
  assert (Hcx : 0 ≤ W / 2 < W).
  { split; [apply Z.div_pos; lia|apply Z.div_lt_upper_bound; lia]. }
  assert (Hcy : 0 ≤ H / 2 < H).
  { split; [apply Z.div_pos; lia|apply Z.div_lt_upper_bound; lia]. }
  unfold probe.
  rewrite (proj2 (Z.ltb_lt _ _) (proj2 Hcx)), (proj2 (Z.ltb_lt _ _) (proj2 Hcy)).
  cbn [andb].
  rewrite (uint32_small (H / 2 * W)) by nia.
  rewrite (uint32_small (H / 2 * W + W / 2)) by nia.
  rewrite (uint32_small ((H / 2 * W + W / 2) * 4)) by nia.
  assert (Hin : ∀ k, 0 ≤ k < 4 → is_Some (rd bgra ((H / 2 * W + W / 2) * 4 + k))).
  { intros k Hk. apply rd_in_bounds. nia. }
  destruct (Hin 0 ltac:(lia)) as [p0 Hp0]. rewrite Z.add_0_r in Hp0. rewrite Hp0.
  destruct (Hin 1 ltac:(lia)) as [p1 ->].
  destruct (Hin 2 ltac:(lia)) as [p2 ->].
  destruct (Hin 3 ltac:(lia)) as [p3 ->].
  cbn [mbind option_bind].
  destruct (Hfold probe_offsets (0, 0, 0, 0) probe_offsets_range)
    as [[[[sumB sumG] sumR] count] ->].
  cbn [mbind option_bind]. eauto.
Qed.

(** ** A save that goes through *)

Lemma rename_after_write (fs : gmap string (list Z)) (tmp out : string) (c : list Z) :
  <[out := c]> (delete tmp (<[tmp := c]> fs)) = <[out := c]> (delete tmp fs).
Proof. by rewrite delete_insert_eq. Qed.

Lemma write_and_rename_run env bgra W H outPath s out :
  fopen_ok env = true → rename1_ok env = true →
  is_Some (probe bgra W H) →
  BmpWriter.write true bgra (int_of_uint W) (int_of_uint H) = Some (Some out) →
  ∃ s' effs,
    write_and_rename env bgra W H outPath s = Some (tt, s', effs)
    ∧ files s' = <[outPath := on_disk env out]> (delete (pending outPath) (files s)).
Proof.
  intros Hf Hr Hp Hw.
  destruct (log_probe_run bgra W H s Hp) as (s1 & e1 & Hrun).
  pose proof Hrun as (_ & (_ & Hfiles & _))%log_probe_Some.
  unfold write_and_rename. rewrite Hf, Hr, Hw.
  erewrite bind_run by exact Hrun.
  erewrite bind_run by reflexivity.
  erewrite bind_run by reflexivity.
  erewrite bind_run by reflexivity.
  erewrite bind_run by apply fs_rename_run.
  erewrite bind_run by reflexivity.
  rewrite log_line_run.
  eexists _, _. split; [reflexivity|].
  unfold rename_file. simpl. rewrite lookup_insert_eq. simpl.
  rewrite Hfiles. apply rename_after_write.
Qed.

Lemma save_staging_to_file_run env src outPath s T p :
  gpu s !! src = Some T → texture_wf T →
  4 * Width T * Height T ≤ INT_MAX →
  staging_ok env = true → map_pitch env = Some p →
  4 * Width T ≤ p → p * Height T < 2 ^ 32 →
  fopen_ok env = true → rename1_ok env = true →
  ∃ out s' effs,
    BmpWriter.write true (pixels T) (Width T) (Height T) = Some (Some out)
    ∧ save_staging_to_file env src outPath s = Some (tt, s', effs)
    ∧ files s' = <[outPath := on_disk env out]> (delete (pending outPath) (files s)).
Proof.
  intros HT Hwf Hmax Hst Hmap Hp1 Hp2 Hf Hr.
  pose proof Hwf as (HW & HH & Hlen). unfold INT_MAX in Hmax.
  destruct (write_defined (pixels T) (Width T) (Height T) HW HH Hmax Hlen) as [out Hout].
  set (stg := mkTexture (Width T) (Height T) (pixels T)).
  assert (Hstg : texture_wf stg) by done.
  pose proof (download_ok stg p Hstg ltac:(simpl; lia) Hp1 Hp2) as Hd. simpl in Hd.
  assert (Hprobe : is_Some (probe (pixels T) (Width T) (Height T))).
  { apply probe_defined; done. }
  set (s1 := copy_texture (next_handle s) T (alloc_texture (Width T) (Height T) s)).
  assert (Hs1 : gpu s1 !! next_handle s = Some stg).
  { unfold s1, copy_texture, alloc_texture. simpl.
    rewrite lookup_insert_eq. simpl. rewrite !Z.eqb_refl. simpl.
    by rewrite lookup_insert_eq. }
  assert (Hfiles : files s1 = files s).
  { unfold s1, copy_texture, alloc_texture. simpl.
    rewrite lookup_insert_eq. simpl. by rewrite !Z.eqb_refl. }
  assert (Hiw : int_of_uint (Width T) = Width T) by (apply int_of_uint_small; nia).
  assert (Hih : int_of_uint (Height T) = Height T) by (apply int_of_uint_small; nia).
  destruct (write_and_rename_run env (pixels T) (Width T) (Height T) outPath s1 out
              Hf Hr Hprobe) as (s' & effs & Hrun & Hfs).
  { by rewrite Hiw, Hih. }
  exists out. eexists s', _. split; [done|]. split; [|by rewrite Hfs, Hfiles].
  unfold save_staging_to_file.
  erewrite bind_run by reflexivity.
  erewrite bind_run by (unfold lift; rewrite HT; reflexivity).
  erewrite bind_run by apply CreateTexture2D_run.
  rewrite Hst.
  erewrite bind_run by apply CopyResource_run. fold s1.
  erewrite bind_run by reflexivity.
  rewrite Hmap.
  erewrite bind_run by reflexivity.
  erewrite bind_run by (unfold lift; rewrite Hs1; reflexivity).
  erewrite bind_run by (unfold lift; rewrite Hd; reflexivity).
  erewrite bind_run by reflexivity.
  rewrite Hrun. reflexivity.
Qed.

(** ** Frames that complete their update *)

Lemma update_completes src s :
  shared_consistent s →
  ∃ s' effs,
    update true src s = Some (tt, s', effs)
    ∧ holds_frame s' src
    ∧ files s' = files s ∧ running s' = running s
    ∧ saverRun s' = saverRun s ∧ saveIdx s' = saveIdx s
    ∧ frameEvents s' = frameEvents s
    ∧ List.filter is_frame_file_op effs = [].
Proof.
  intros Hinv. unfold shared_consistent in Hinv. unfold holds_frame.
  destruct_state s.
  destruct tx as [t|];
    [destruct Hinv as (Hlt & T & HT & HW & HH);
     destruct (Z.eqb_spec sw (Width src)) as [Ew|Ew];
     [destruct (Z.eqb_spec sh (Height src)) as [Eh|Eh]|]|].
  - unfold update. run_M.
    rewrite (proj2 (Z.eqb_eq _ _) Ew), (proj2 (Z.eqb_eq _ _) Eh). simpl.
    rewrite HT, HW, HH, Ew, Eh, !Z.eqb_refl. simpl.
    eexists _, _. split; [reflexivity|]. simpl.
    split; [|done]. eexists. split; [done|]. split; [done|].
    by rewrite lookup_insert_eq.
  - unfold update. run_M.
    rewrite (proj2 (Z.eqb_eq _ _) Ew), (proj2 (Z.eqb_neq _ _) Eh). simpl.
    destruct lps; simpl; rewrite lookup_insert_eq; simpl;
      rewrite !Z.eqb_refl; simpl;
      (eexists _, _; split; [reflexivity|]; simpl;
       split; [|done]; eexists; split; [done|]; split; [lia|];
       by rewrite lookup_insert_eq).
  - unfold update. run_M.
    rewrite (proj2 (Z.eqb_neq _ _) Ew). simpl.
    destruct lps; simpl; rewrite lookup_insert_eq; simpl;
      rewrite !Z.eqb_refl; simpl;
      (eexists _, _; split; [reflexivity|]; simpl;
       split; [|done]; eexists; split; [done|]; split; [lia|];
       by rewrite lookup_insert_eq).
  - unfold update. run_M.
    destruct lps; simpl; rewrite lookup_insert_eq; simpl;
      rewrite !Z.eqb_refl; simpl;
      (eexists _, _; split; [reflexivity|]; simpl;
       split; [|done]; eexists; split; [done|]; split; [lia|];
       by rewrite lookup_insert_eq).
Qed.

Lemma holds_frame_consistent s src : holds_frame s src → shared_consistent s.
Proof.
  intros (t & Ht & Hlt & Hg & Hw & Hh). unfold shared_consistent. rewrite Ht.
  split; [done|]. eexists. split; [exact Hg|]. simpl. by rewrite Hw, Hh.
Qed.

Lemma FrameArrived_completes env src s :
  completes env src → running s = true → shared_consistent s →
  ∃ s' effs,
    FrameArrived env s = Some (tt, s', effs)
    ∧ holds_frame s' src
    ∧ files s' = files s ∧ running s' = true
    ∧ saverRun s' = saverRun s ∧ saveIdx s' = saveIdx s
    ∧ List.filter is_frame_file_op effs = [].
Proof.
  intros (Hfa & Hac & Htx & Hal) Hrun Hinv.
  set (s1 := logged (set_frameEvents (uint64 (frameEvents s + 1)) s)).
  destruct (update_completes src s1) as (s' & e & Hu & Hh & Hf & Hr & Hsr & Hsi & _ & He).
  { destruct_state s. exact Hinv. }
  exists s'. eexists. split; [|split; [exact Hh|]].
  - unfold FrameArrived.
    erewrite bind_run by reflexivity.
    erewrite bind_run by reflexivity.
    rewrite Hrun. simpl.
    erewrite bind_run by reflexivity.
    rewrite Hfa. simpl.
    erewrite bind_run by reflexivity.
    erewrite bind_run by reflexivity.
    erewrite bind_run by reflexivity.
    erewrite bind_run by apply logf_run.
    erewrite bind_run by reflexivity.
    rewrite Hac, Htx, Hal. simpl. fold s1. rewrite Hu. reflexivity.
  - rewrite Hf, Hr, Hsr, Hsi. destruct_state s. repeat split; try done.
    rewrite List.filter_app, log_effects_no_file_op. simpl. exact He.
Qed.

Lemma frames_run base src (frames : list FrameEnv) (last : FrameEnv) s :
  Forall (λ env, ∃ T, completes env T) frames →
  completes last src →
  running s = true → shared_consistent s →
  ∃ s' effs,
    run_events base true (map EvFrame (frames ++ [last])) s = Some (true, s', effs)
    ∧ holds_frame s' src
    ∧ files s' = files s ∧ running s' = true
    ∧ saverRun s' = saverRun s ∧ saveIdx s' = saveIdx s
    ∧ List.filter is_frame_file_op effs = [].
Proof.
  intros Hall Hlast. revert s.
  induction Hall as [|env frames [T HT] Hall IH]; intros s Hrun Hinv; simpl.
  - destruct (FrameArrived_completes last src s Hlast Hrun Hinv)
      as (s' & e & Hf & Hh & ? & ? & ? & ? & He).
    exists s'. eexists. split.
    { erewrite bind_run by (erewrite bind_run by exact Hf; reflexivity).
      reflexivity. }
    repeat split; try done. by rewrite !app_nil_r.
  - destruct (FrameArrived_completes env T s HT Hrun Hinv)
      as (s1 & e1 & Hf & Hh & Hf1 & Hr1 & Hsr1 & Hsi1 & He1).
    destruct (IH s1 Hr1 (holds_frame_consistent _ _ Hh))
      as (s' & e & Hrun' & Hh' & Hf' & Hr' & Hsr' & Hsi' & He').
    exists s'. eexists. split.
    { erewrite bind_run by (erewrite bind_run by exact Hf; reflexivity).
      rewrite Hrun'. reflexivity. }
    repeat split; try congruence.
    simpl. by rewrite !List.filter_app, He1, He'.
Qed.

(** ** What a save and an iteration of the saver leave unchanged *)

Lemma save_staging_ops env src outPath s s' effs :
  save_staging_to_file env src outPath s = Some (tt, s', effs) →
  List.filter is_frame_file_op effs =
    if staging_ok env && bool_decide (is_Some (map_pitch env))
    then writer_file_ops env outPath else [].
Proof.
  intros Hr. unfold save_staging_to_file in Hr.
  destruct (staging_ok env), (map_pitch env) as [p|]; step_inv; try reflexivity.
  match goal with
  | Hw : write_and_rename _ _ _ _ _ _ = Some _ |- _ =>
      apply write_and_rename_ops in Hw
  end.
  file_ops. done.
Qed.

Lemma write_and_rename_preserves env bgra W H outPath s s' effs :
  write_and_rename env bgra W H outPath s = Some (tt, s', effs) →
  shared s' = shared s ∧ running s' = running s ∧ saverRun s' = saverRun s
  ∧ frameEvents s' = frameEvents s ∧ saveIdx s' = saveIdx s
  ∧ next_handle s' = next_handle s ∧ gpu s' = gpu s.
Proof.
  intros Hr. unfold write_and_rename in Hr.
  step_inv; unfold rename_file; simpl;
    repeat case_match; simpl; done.
Qed.

Lemma save_staging_preserves env src outPath s s' effs :
  save_staging_to_file env src outPath s = Some (tt, s', effs) →
  shared s' = shared s ∧ running s' = running s ∧ saverRun s' = saverRun s
  ∧ frameEvents s' = frameEvents s ∧ saveIdx s' = saveIdx s
  ∧ (next_handle s ≤ next_handle s')%nat
  ∧ (∀ t, (t < next_handle s)%nat → gpu s' !! t = gpu s !! t).
Proof.
  intros Hr. unfold save_staging_to_file in Hr.
  destruct (staging_ok env), (map_pitch env) as [p|]; step_inv;
    try match goal with
    | Hw : write_and_rename _ _ _ _ _ _ = Some _ |- _ =>
        apply write_and_rename_preserves in Hw
          as (-> & -> & -> & -> & -> & -> & ->)
    end;
    unfold copy_texture, alloc_texture; simpl;
    repeat case_match; simpl;
    repeat split; try done; try lia;
    intros k Hk; rewrite ?lookup_insert_ne by lia; done.
Qed.

(** ** One iteration of the saver *)

Lemma stall_lines_log msg s :
  List.filter is_stall_line (log_effects msg s)
  = match msg with
    | capture_stalled_no_events => [StderrLine capture_stalled_no_events]
    | _ => []
    end.
Proof. unfold log_effects. by destruct (logPath_set s), msg. Qed.

Lemma emits_saver_iteration P base env :
  (∀ e, is_log_effect e = true → P e) →
  (∀ e, is_frame_file_op e = true → P e) →
  (∀ b, P (GpuCreateTexture USAGE_STAGING b)) →
  (∀ d, P (GpuCopyResource d)) →
  (∀ b, P (GpuMap b)) → P GpuUnmap →
  (∀ a, P (AtomicLoad a)) → P SleepUntil → P MutexLock → P MutexUnlock →
  P SystemTime →
  emits P (saver_iteration base env).
Proof.
  intros. unfold saver_iteration, snapshot.
  solve_emits; auto using emits_save_staging_to_file.
Qed.

(** One iteration of the saver, taken apart. *)
Lemma saver_iteration_inv base env s b s' effs :
  saver_iteration base env s = Some (b, s', effs) →
  b = saverRun s && running s
  ∧ shared s' = shared s ∧ running s' = running s ∧ saverRun s' = saverRun s
  ∧ frameEvents s' = frameEvents s
  ∧ (next_handle s ≤ next_handle s')%nat
  ∧ (∀ t, (t < next_handle s)%nat → gpu s' !! t = gpu s !! t)
  ∧ ((b && bool_decide (is_Some (snapshot (shared s))) = false
      ∧ saveIdx s' = saveIdx s ∧ files s' = files s
      ∧ List.filter is_frame_file_op effs = []
      ∧ List.filter is_stall_line effs
        = (if b && (frameEvents s =? 0) && (2000 <? elapsed_ms env)
           then [StderrLine capture_stalled_no_events] else []))
     ∨ (b = true
        ∧ ∃ name, frame_name (utc env) (msPart env) (saveIdx s) = Some name
          ∧ is_Some (snapshot (shared s))
          ∧ saveIdx s' = saveIdx s + 1 ∧ saveIdx s + 1 ≤ INT_MAX
          ∧ List.filter is_frame_file_op effs
            = if staging_ok (save_env env)
                 && bool_decide (is_Some (map_pitch (save_env env)))
              then writer_file_ops (save_env env) (base +:+ "/" +:+ name)
              else [])).
Proof.
  intros Hr. unfold saver_iteration in Hr.
  apply bind_Some in Hr as (? & ? & ? & ? & (-> & ->)%emit_Some & Hr & ->).
  apply bind_Some in Hr as (? & ? & ? & ? & (-> & -> & ->)%get_Some & Hr & ->).
  destruct (saverRun s) eqn:Esr; simpl in Hr.
  2:{ apply ret_Some in Hr as (-> & -> & ->).
      repeat split; try done. left. by repeat split. }
  apply bind_Some in Hr as (? & ? & ? & ? & (-> & ->)%emit_Some & Hr & ->).
  apply bind_Some in Hr as (? & ? & ? & ? & (-> & ->)%emit_Some & Hr & ->).
  destruct (running s) eqn:Er; simpl in Hr.
  2:{ apply ret_Some in Hr as (-> & -> & ->).
      repeat split; try done. left. by repeat split. }
  destruct (snapshot (shared s)) as [[[texCopy w] h]|] eqn:Esnap.
  - step_inv;
      repeat match goal with u : () |- _ => destruct u end;
      match goal with
      | Hs : save_staging_to_file _ _ _ _ = Some _ |- _ =>
          pose proof (save_staging_preserves _ _ _ _ _ _ Hs)
            as (Hsh & Hrn & Hsv & Hfe & Hsi & Hnh & Hg);
          pose proof (save_staging_ops _ _ _ _ _ _ Hs) as Hops
      end;
      match goal with
      | Hi : int_add _ 1 = Some _ |- _ => apply int_add_Some in Hi as [-> Hb]
      end;
      simpl in *;
      (split; [done|]); (split; [done|]); (split; [congruence|]);
      (split; [congruence|]); (split; [done|]); (split; [done|]);
      (split; [done|]); right; (split; [done|]);
      eexists; (split; [eassumption|]); (split; [eauto|]);
      (split; [done|]); (split; [lia|]);
      file_ops; rewrite ?app_nil_r; exact Hops.
  - step_inv; simpl;
      do 7 (split; [done|]); left;
      (split; [done|]); (split; [done|]); (split; [done|]);
      rewrite ?List.filter_app, ?stall_lines_log, ?log_effects_no_file_op;
      done.
Qed.

(** ** One invocation of the callback *)

Lemma update_inv ok src s a s' e :
  update ok src s = Some (a, s', e) →
  files s' = files s ∧ running s' = running s ∧ saverRun s' = saverRun s
  ∧ saveIdx s' = saveIdx s ∧ frameEvents s' = frameEvents s
  ∧ (next_handle s ≤ next_handle s')%nat
  ∧ List.filter is_frame_file_op e = []
  ∧ List.filter is_stall_line e = []
  ∧ (is_Some (SharedFrame.tex (shared s'))
     ↔ is_Some (SharedFrame.tex (shared s))
       ∨ GpuCreateTexture USAGE_DEFAULT true ∈ e)
  ∧ (0 < Width src → 0 < Height src → shared_inv s → shared_inv s').
Proof.
  unfold shared_inv. destruct_state s.
  destruct tx as [t|];
    [destruct (Z.eqb_spec sw (Width src)) as [Ew|Ew];
     [destruct (Z.eqb_spec sh (Height src)) as [Eh|Eh]|]|].
  - unfold update. run_M.
    rewrite (proj2 (Z.eqb_eq _ _) Ew), (proj2 (Z.eqb_eq _ _) Eh). simpl.
    intros [= <- <- <-].
    destruct (g !! t) as [d|] eqn:Hg;
      [destruct ((Width d =? Width src) && (Height d =? Height src)) eqn:Ed|];
      simpl; (do 8 (split; [done|]); split;
              [split; [eauto|intros _; eauto]|]); intros HW HH Hinv;
      try exact Hinv.
    destruct Hinv as (Hlt & T & HT & HTw & HTh & Hpw & Hph).
    split; [done|]. eexists. rewrite lookup_insert_eq.
    split; [reflexivity|]. simpl. by simplify_eq.
    all: rewrite Hg; exact Hinv.
  - unfold update. run_M.
    rewrite (proj2 (Z.eqb_eq _ _) Ew), (proj2 (Z.eqb_neq _ _) Eh). simpl.
    destruct ok, lps; simpl;
      rewrite ?lookup_insert_eq; simpl; rewrite ?Z.eqb_refl; simpl;
      intros [= <- <- <-]; simpl;
      (do 8 (split; [done || lia|]); split;
       [ rewrite !elem_of_cons, elem_of_nil;
         first [ by split; [eauto 10|intros; eexists]
               | split; [by left|]; intros [?|Hin]; [done|];
                 naive_solver ]
       | intros HW HH Hinv; first [ exact Hinv | idtac ];
         try (split; [lia|]; eexists; rewrite lookup_insert_eq;
              split; [reflexivity|]; simpl; done) ]).
  - unfold update. run_M.
    rewrite (proj2 (Z.eqb_neq _ _) Ew). simpl.
    destruct ok, lps; simpl;
      rewrite ?lookup_insert_eq; simpl; rewrite ?Z.eqb_refl; simpl;
      intros [= <- <- <-]; simpl;
      (do 8 (split; [done || lia|]); split;
       [ rewrite !elem_of_cons, elem_of_nil;
         first [ by split; [eauto 10|intros; eexists]
               | split; [by left|]; intros [?|Hin]; [done|];
                 naive_solver ]
       | intros HW HH Hinv; first [ exact Hinv | idtac ];
         try (split; [lia|]; eexists; rewrite lookup_insert_eq;
              split; [reflexivity|]; simpl; done) ]).
  - unfold update. run_M.
    destruct ok, lps; simpl;
      rewrite ?lookup_insert_eq; simpl; rewrite ?Z.eqb_refl; simpl;
      intros [= <- <- <-]; simpl;
      (do 8 (split; [done || lia|]); split;
       [ rewrite !elem_of_cons, elem_of_nil;
         first [ by split; [eauto 10|intros; eexists]
               | split; [by left|]; intros [?|Hin]; [done|];
                 naive_solver ]
       | intros HW HH Hinv; first [ exact Hinv | idtac ];
         try (split; [lia|]; eexists; rewrite lookup_insert_eq;
              split; [reflexivity|]; simpl; done) ]).
Qed.

Lemma log_effects_not_alloc u b msg s :
  GpuCreateTexture u b ∉ log_effects msg s.
Proof.
  intros Hin%list_elem_of_In.
  pose proof (log_effects_log msg s) as Hlog.
  rewrite Forall_forall in Hlog. by apply Hlog in Hin.
Qed.

Lemma FrameArrived_inv env s a s' e :
  FrameArrived env s = Some (a, s', e) →
  files s' = files s ∧ running s' = running s ∧ saverRun s' = saverRun s
  ∧ saveIdx s' = saveIdx s
  ∧ (next_handle s ≤ next_handle s')%nat
  ∧ List.filter is_frame_file_op e = []
  ∧ List.filter is_stall_line e = []
  ∧ (is_Some (SharedFrame.tex (shared s'))
     ↔ is_Some (SharedFrame.tex (shared s))
       ∨ GpuCreateTexture USAGE_DEFAULT true ∈ e)
  ∧ (event_wf (EvFrame env) → shared_inv s → shared_inv s')
  ∧ ((frameEvents s' = frameEvents s ∧ shared s' = shared s)
     ∨ frameEvents s' = uint64 (frameEvents s + 1)).
Proof.
  intros Hr. unfold FrameArrived in Hr.
  step_inv;
    repeat match goal with u : () |- _ => destruct u end;
    try match goal with
    | Hu : update _ _ _ = Some _ |- _ =>
        apply update_inv in Hu
          as (Hf & Hrn & Hsr & Hsi & Hfe & Hnh & Hops & Hst & Htex & Hinv)
    end;
    simpl in *.
  all: repeat progress (rewrite ?List.filter_app, ?log_effects_no_file_op,
                          ?stall_lines_log; simpl).
  all: do 7 (split; [done || lia|]).
  all: split;
    [rewrite ?elem_of_cons, ?elem_of_app, ?elem_of_cons, ?elem_of_nil;
     try rewrite Htex;
     pose proof (log_effects_not_alloc USAGE_DEFAULT true
                   (frame_event (uint64 (frameEvents s + 1)))
                   (set_frameEvents (uint64 (frameEvents s + 1)) s));
     naive_solver|].
  all: split; [|by eauto].
  all: try done.
  intros Hwf Hs. apply Hinv; [apply (Hwf _ eq_refl)..|exact Hs].
Qed.

(** ** Runs of a session *)

Lemma filter_nil_of_Forall (f : Effect → bool) (l : list Effect) :
  Forall (λ e, f e = false) l → List.filter f l = [].
Proof. induction 1 as [|x l Hx Hl IH]; simpl; [done|]. by rewrite Hx. Qed.

Lemma not_elem_of_Forall (x : Effect) (l : list Effect) :
  Forall (λ e, e ≠ x) l → x ∉ l.
Proof.
  intros Hall Hin%list_elem_of_In. rewrite Forall_forall in Hall.
  by apply Hall in Hin.
Qed.

Lemma saver_iteration_no_alloc base env s b s' effs :
  saver_iteration base env s = Some (b, s', effs) →
  GpuCreateTexture USAGE_DEFAULT true ∉ effs.
Proof.
  intros Hr. apply not_elem_of_Forall.
  eapply (emits_saver_iteration (λ e, e ≠ GpuCreateTexture USAGE_DEFAULT true));
    [..|exact Hr]; try done; by intros [].
Qed.

Lemma shared_inv_saver s s' :
  shared s' = shared s → (next_handle s ≤ next_handle s')%nat →
  (∀ t, (t < next_handle s)%nat → gpu s' !! t = gpu s !! t) →
  shared_inv s → shared_inv s'.
Proof.
  intros Hsh Hnh Hg. unfold shared_inv. rewrite Hsh.
  destruct (SharedFrame.tex (shared s)) as [t|]; [|done].
  intros (Hlt & T & HT & ?). split; [lia|]. exists T. by rewrite Hg.
Qed.

Lemma run_event_shared base alive ev s alive' s' e :
  run_event base alive ev s = Some (alive', s', e) →
  (is_Some (SharedFrame.tex (shared s'))
   ↔ is_Some (SharedFrame.tex (shared s))
     ∨ GpuCreateTexture USAGE_DEFAULT true ∈ e)
  ∧ (event_wf ev → shared_inv s → shared_inv s').
Proof.
  destruct ev as [env|env]; simpl; intros Hr.
  - apply bind_Some in Hr as (u & s1 & e1 & e2 & Hf & (-> & -> & ->)%ret_Some & ->).
    rewrite app_nil_r.
    apply FrameArrived_inv in Hf as (_ & _ & _ & _ & _ & _ & _ & Htex & Hinv & _).
    done.
  - destruct alive.
    + pose proof (saver_iteration_no_alloc _ _ _ _ _ _ Hr) as Hno.
      apply saver_iteration_inv in Hr as (_ & Hsh & _ & _ & _ & Hnh & Hg & _).
      rewrite Hsh. split; [naive_solver|]. intros _. by apply shared_inv_saver.
    + apply ret_Some in Hr as (-> & -> & ->).
      split; [|done]. rewrite elem_of_nil. naive_solver.
Qed.

Lemma run_events_shared base evs alive s alive' s' e :
  run_events base alive evs s = Some (alive', s', e) →
  (is_Some (SharedFrame.tex (shared s'))
   ↔ is_Some (SharedFrame.tex (shared s))
     ∨ GpuCreateTexture USAGE_DEFAULT true ∈ e)
  ∧ (Forall event_wf evs → shared_inv s → shared_inv s').
Proof.
  revert alive s e. induction evs as [|ev evs IH]; intros alive s e Hr; simpl in Hr.
  - apply ret_Some in Hr as (-> & -> & ->).
    split; [|done]. rewrite elem_of_nil. naive_solver.
  - apply bind_Some in Hr as (a1 & s1 & e1 & e2 & H1 & H2 & ->).
    apply run_event_shared in H1 as (Ht1 & Hi1).
    apply IH in H2 as (Ht2 & Hi2).
    split.
    + rewrite Ht2, Ht1, elem_of_app. tauto.
    + intros Hwf Hs. inversion Hwf; subst. auto.
Qed.

(** C9 — The shared frame buffer starts a session with no texture and a zero
    width and height.  Along every run of a session whose frames are well
    formed: the buffer holds a texture exactly when an allocation for it has
    succeeded in the run; once it holds one, it holds one after whatever
    follows; whenever it holds one, the stored width and height are those of
    that texture and are positive, and the snapshot hands out that texture
    with exactly this width and height; while it holds none, the snapshot
    gives nothing and the stored size is still zero. *)
Theorem shared_frame_invariant (base : string) (evs : list Event) (s0 : State)
    (alive : bool) (s' : State) (effs : list Effect) :
  Forall event_wf evs →
  run_events base true evs (session_start s0) = Some (alive, s', effs) →
  shared (session_start s0) = SharedFrame.mk None 0 0
  ∧ (is_Some (SharedFrame.tex (shared s'))
     ↔ GpuCreateTexture USAGE_DEFAULT true ∈ effs)
  ∧ (∀ evs2 b alive2 s2 effs2,
       is_Some (SharedFrame.tex (shared s')) →
       run_events base b evs2 s' = Some (alive2, s2, effs2) →
       is_Some (SharedFrame.tex (shared s2)))
  ∧ match SharedFrame.tex (shared s') with
    | Some t =>
        snapshot (shared s')
        = Some (t, SharedFrame.w (shared s'), SharedFrame.h (shared s'))
        ∧ 0 < SharedFrame.w (shared s') ∧ 0 < SharedFrame.h (shared s')
        ∧ ∃ T, gpu s' !! t = Some T
               ∧ Width T = SharedFrame.w (shared s')
               ∧ Height T = SharedFrame.h (shared s')
    | None =>
        snapshot (shared s') = None
        ∧ SharedFrame.w (shared s') = 0 ∧ SharedFrame.h (shared s') = 0
    end.
Proof.
  intros Hwf Hr. split; [reflexivity|].
  destruct (run_events_shared _ _ _ _ _ _ _ Hr) as (Htex & Hinv).
  split; [|split].
  - rewrite Htex. simpl. split; [|auto]. intros [[? [=]]|?]; done.
  - intros evs2 b alive2 s2 effs2 Hs Hr2.
    apply run_events_shared in Hr2 as (Htex2 & _). apply Htex2. by left.
  - specialize (Hinv Hwf (conj eq_refl eq_refl)).
    unfold shared_inv in Hinv. unfold snapshot.
    destruct (SharedFrame.tex (shared s')) as [t|]; [|done].
    destruct Hinv as (_ & T & HT & HW & HH & ? & ?). eauto 10.
Qed.

(** ** A session without frames *)

Lemma uint64_one : uint64 (0 + 1) = 1.
Proof. reflexivity. Qed.

Lemma no_frames_run base evs s alive' s' effs :
  run_events base true evs s = Some (alive', s', effs) →
  running s = true → saverRun s = true →
  SharedFrame.tex (shared s) = None →
  Forall (λ n, n = 0) (counter_history base true evs s) →
  files s' = files s
  ∧ List.filter is_frame_file_op effs = []
  ∧ List.filter is_stall_line effs
    = map (λ _, StderrLine capture_stalled_no_events)
          (List.filter (λ env, 2000 <? elapsed_ms env) (ticks evs)).
Proof.
  revert s effs. induction evs as [|ev evs IH]; intros s effs Hr Hrn Hsr Htx Hc;
    simpl in Hr.
  - apply ret_Some in Hr as (-> & -> & ->). done.
  - apply bind_Some in Hr as (a1 & s1 & e1 & e2 & H1 & H2 & ->).
    simpl in Hc. rewrite H1 in Hc.
    inversion Hc as [|? ? Hfe Hc']; subst.
    assert (Hfe1 : frameEvents s1 = 0).
    { destruct evs; simpl in Hc'; by inversion Hc'. }
    rewrite !List.filter_app.
    destruct ev as [env|env]; simpl in H1.
    + apply bind_Some in H1 as (u & s2 & e3 & e4 & Hf & (-> & <- & ->)%ret_Some & ->).
      rewrite app_nil_r.
      apply FrameArrived_inv in Hf
        as (Hfs & Hrn1 & Hsr1 & _ & _ & Hops & Hst & _ & _ & Hcnt).
      destruct Hcnt as [[_ Hsh]|Hcnt];
        [|rewrite Hfe, uint64_one in Hcnt; congruence].
      destruct (IH s1 e2 H2) as (Hf2 & Ho2 & Hs2); try congruence.
      rewrite Hf2, Hfs, Hops, Hst, Ho2, Hs2. done.
    + apply saver_iteration_inv in H1
        as (-> & Hsh & Hrn1 & Hsr1 & _ & _ & _ & Hcase).
      rewrite Hrn, Hsr in *. simpl in *.
      destruct Hcase as [(_ & _ & Hfs & Hops & Hst)|(_ & name & _ & Hsn & _)].
      2:{ unfold snapshot in Hsn. rewrite Htx in Hsn. by destruct Hsn. }
      destruct (IH s1 e2 H2) as (Hf2 & Ho2 & Hs2); try congruence.
      rewrite Hf2, Hfs, Hops, Hst, Ho2, Hs2, Hfe. simpl.
      by destruct (2000 <? elapsed_ms env).
Qed.

(** C6 — In every session in which the frame counter stays zero, the saver
    writes no file (no file operation at all, the files are left as they
    were), and it emits the stall diagnostic at each of its ticks at which
    more than 2000 ms have passed since the session started, and at no
    other. *)
Theorem no_frames_no_files (base : string) (evs : list Event) (s0 : State)
    (alive : bool) (s' : State) (effs : list Effect) :
  run_events base true evs (session_start s0) = Some (alive, s', effs) →
  Forall (λ n, n = 0) (counter_history base true evs (session_start s0)) →
  files s' = files s0
  ∧ List.filter is_frame_file_op effs = []
  ∧ List.filter is_stall_line effs
    = map (λ _, StderrLine capture_stalled_no_events)
          (List.filter (λ env, 2000 <? elapsed_ms env) (ticks evs)).
Proof.
  intros Hr Hc.
  destruct (no_frames_run _ _ _ _ _ _ Hr) as (Hf & Ho & Hs); done.
Qed.

(** ** The latest frame is the one that is saved *)

Lemma saver_iteration_saves base env s src p name :
  saverRun s = true → running s = true →
  holds_frame s src → texture_wf src →
  4 * Width src * Height src ≤ INT_MAX →
  staging_ok (save_env env) = true → map_pitch (save_env env) = Some p →
  4 * Width src ≤ p → p * Height src < 2 ^ 32 →
  fopen_ok (save_env env) = true → rename1_ok (save_env env) = true →
  frame_name (utc env) (msPart env) (saveIdx s) = Some name →
  saveIdx s + 1 ≤ INT_MAX → INT_MIN ≤ saveIdx s + 1 →
  ∃ out s' effs,
    BmpWriter.write true (pixels src) (Width src) (Height src) = Some (Some out)
    ∧ saver_iteration base env s = Some (true, s', effs)
    ∧ files s' = <[base +:+ "/" +:+ name := on_disk (save_env env) out]>
                   (delete (pending (base +:+ "/" +:+ name)) (files s)).
Proof.
  intros Hsr Hrn (t & Ht & Hlt & Hg & Hw & Hh) Hwf Hmax Hst Hmap Hp1 Hp2 Hf Hr
    Hname Hi1 Hi2.
  set (T := mkTexture (Width src) (Height src) (pixels src)) in *.
  assert (HwfT : texture_wf T) by exact Hwf.
  assert (Hsnap : snapshot (shared s)
                  = Some (t, SharedFrame.w (shared s), SharedFrame.h (shared s))).
  { unfold snapshot. by rewrite Ht. }
  assert (Hrun : ∀ s1, gpu s1 = gpu s → files s1 = files s →
    ∃ out s' effs,
      BmpWriter.write true (pixels src) (Width src) (Height src) = Some (Some out)
      ∧ save_staging_to_file (save_env env) t (base +:+ "/" +:+ name) s1
        = Some (tt, s', effs)
      ∧ files s' = <[base +:+ "/" +:+ name := on_disk (save_env env) out]>
                     (delete (pending (base +:+ "/" +:+ name)) (files s))).
  { intros s1 Hg1 Hf1.
    destruct (save_staging_to_file_run (save_env env) t (base +:+ "/" +:+ name)
                s1 T p) as (out & s' & effs & Hout & Hsave & Hfs); try done.
    { by rewrite Hg1. }
    exists out, s', effs. by rewrite <- Hf1. }
  unfold saver_iteration.
  erewrite bind_run by reflexivity.
  erewrite bind_run by reflexivity.
  rewrite Hsr, Hrn. simpl.
  erewrite bind_run by reflexivity.
  erewrite bind_run by reflexivity.
  erewrite bind_run by reflexivity.
  destruct ((frameEvents s =? 0) && (2000 <? elapsed_ms env)).
  - destruct (Hrun (set_saveIdx (saveIdx s + 1) (logged s))
                eq_refl eq_refl) as (out & s' & effs & Hout & Hsave & Hfs).
    exists out. eexists _, _. split; [done|]. split; [|shelve].
    erewrite bind_run by apply log_line_run.
    erewrite bind_run by reflexivity. simpl. rewrite Hsnap.
    erewrite bind_run by reflexivity.
    erewrite bind_run by reflexivity.
    erewrite bind_run by (unfold lift; simpl; rewrite Hname; reflexivity).
    erewrite bind_run
      by (unfold lift, int_add; simpl; rewrite to_int_in_range by done; reflexivity).
    erewrite bind_run by reflexivity.
    erewrite bind_run by exact Hsave.
    erewrite bind_run by reflexivity.
    erewrite bind_run by apply logf_run.
    reflexivity.
    Unshelve. exact Hfs.
  - destruct (Hrun (set_saveIdx (saveIdx s + 1) s) eq_refl eq_refl)
      as (out & s' & effs & Hout & Hsave & Hfs).
    exists out. eexists _, _. split; [done|]. split; [|shelve].
    erewrite bind_run by reflexivity.
    erewrite bind_run by reflexivity. simpl. rewrite Hsnap.
    erewrite bind_run by reflexivity.
    erewrite bind_run by reflexivity.
    erewrite bind_run by (unfold lift; simpl; rewrite Hname; reflexivity).
    erewrite bind_run
      by (unfold lift, int_add; simpl; rewrite to_int_in_range by done; reflexivity).
    erewrite bind_run by reflexivity.
    erewrite bind_run by exact Hsave.
    erewrite bind_run by reflexivity.
    erewrite bind_run by apply logf_run.
    reflexivity.
    Unshelve. exact Hfs.
Qed.

Lemma run_events_app base evs1 evs2 alive s a1 s1 e1 :
  run_events base alive evs1 s = Some (a1, s1, e1) →
  run_events base alive (evs1 ++ evs2) s
  = match run_events base a1 evs2 s1 with
    | Some (a2, s2, e2) => Some (a2, s2, e1 ++ e2)
    | None => None
    end.
Proof.
  revert alive s e1. induction evs1 as [|ev evs1 IH]; intros alive s e1 Hr; simpl in *.
  - apply ret_Some in Hr as (-> & -> & ->).
    by destruct (run_events base alive evs2 s) as [[[??]?]|].
  - apply bind_Some in Hr as (a & s0 & e0 & e0' & H1 & H2 & ->).
    erewrite bind_run by exact H1. rewrite (IH _ _ _ H2).
    destruct (run_events base a1 evs2 s1) as [[[??]?]|]; [|done].
    by rewrite app_assoc.
Qed.

(** C1 — In every session in which a sequence of frames is delivered to the
    callback, each completing its update, and the saver then takes one
    snapshot and its save goes through: the snapshot is the texture that
    holds the content of the last frame delivered; exactly one file is
    written and renamed into place for that tick; and the content of that
    file is the bitmap of the last frame, whatever the frames before it
    were (what reached the disk of that bitmap, and all of it when the
    writes to the file went through). *)
Theorem latest_frame_saved (base : string) (s0 : State)
    (frames : list FrameEnv) (last : FrameEnv) (src : Texture)
    (tick : TickEnv) (p : Z) (name : string) :
  Forall (λ env, ∃ T, completes env T
                      ∧ Width T = Width src ∧ Height T = Height src) frames →
  completes last src → texture_wf src →
  4 * Width src * Height src ≤ INT_MAX →
  staging_ok (save_env tick) = true → map_pitch (save_env tick) = Some p →
  4 * Width src ≤ p → p * Height src < 2 ^ 32 →
  fopen_ok (save_env tick) = true → rename1_ok (save_env tick) = true →
  frame_name (utc tick) (msPart tick) 0 = Some name →
  let path := base +:+ "/" +:+ name in
  ∃ out s1 e1 s' e2,
    run_events base true (map EvFrame (frames ++ [last])) (session_start s0)
    = Some (true, s1, e1)
    ∧ (∃ t, snapshot (shared s1) = Some (t, Width src, Height src)
            ∧ pixels <$> gpu s1 !! t = Some (pixels src))
    ∧ run_events base true [EvTick tick] s1 = Some (true, s', e2)
    ∧ run_events base true (map EvFrame (frames ++ [last]) ++ [EvTick tick])
        (session_start s0)
      = Some (true, s', e1 ++ e2)
    ∧ BmpWriter.write true (pixels src) (Width src) (Height src) = Some (Some out)
    ∧ files s' = <[path := on_disk (save_env tick) out]>
                   (delete (pending path) (files s0))
    ∧ (short_write (save_env tick) = None →
       files s' = <[path := out]> (delete (pending path) (files s0)))
    ∧ List.filter is_frame_file_op (e1 ++ e2)
      = [FsWriteFile (pending path) true; FsRename (pending path) path true].
Proof.
  intros Hall Hlast Hwf Hmax Hst Hmap Hp1 Hp2 Hf Hr Hname path.
  assert (Hall' : Forall (λ env, ∃ T, completes env T) frames).
  { eapply Forall_weaken; [|exact Hall]. intros env (T & ? & _). eauto. }
  destruct (frames_run base src frames last (session_start s0) Hall' Hlast)
    as (s1 & e1 & Hrun1 & Hh & Hf1 & Hrn1 & Hsr1 & Hsi1 & He1); [done..|].
  assert (Hsr1' : saverRun s1 = true) by (by rewrite Hsr1).
  assert (Hname1 : frame_name (utc tick) (msPart tick) (saveIdx s1) = Some name)
    by (by rewrite Hsi1).
  assert (Hb1 : saveIdx s1 + 1 ≤ INT_MAX) by (by rewrite Hsi1).
  assert (Hb2 : INT_MIN ≤ saveIdx s1 + 1) by (by rewrite Hsi1).
  destruct (saver_iteration_saves base tick s1 src p name Hsr1' Hrn1 Hh Hwf Hmax
              Hst Hmap Hp1 Hp2 Hf Hr Hname1 Hb1 Hb2)
    as (out & s' & e2 & Hout & Hrun2 & Hfs).
  assert (Hrun2' : run_events base true [EvTick tick] s1 = Some (true, s', e2 ++ [])).
  { simpl. erewrite bind_run by exact Hrun2. reflexivity. }
  rewrite app_nil_r in Hrun2'.
  exists out, s1, e1, s', e2.
  split; [done|]. split.
  { destruct Hh as (t & Ht & _ & Hg & Hw & Hh). exists t. unfold snapshot.
    rewrite Ht, Hw, Hh, Hg. done. }
  split; [done|]. split.
  { rewrite (run_events_app _ _ _ _ _ _ _ _ Hrun1), Hrun2'. done. }
  split; [done|]. split; [by rewrite Hfs, Hf1|]. split.
  { intros Hs. rewrite Hfs, Hf1. unfold on_disk. by rewrite Hs. }
  apply saver_iteration_inv in Hrun2 as (_ & _ & _ & _ & _ & _ & _ & Hcase).
  rewrite List.filter_app, He1. simpl.
  destruct Hcase as [(Hb & _)|(_ & name' & Hname' & _ & _ & _ & Hops)].
  - destruct Hh as (t & Ht & _). unfold snapshot in Hb. by rewrite Ht in Hb.
  - rewrite Hsi1 in Hname'. simpl in Hname'.
    assert (name' = name) as -> by congruence.
    rewrite Hops, Hst, Hmap. unfold writer_file_ops. by rewrite Hf, Hr.
Qed.

(** ** What the callback does *)

Lemma total_log_line msg : total (log_line msg).
Proof. intros s. rewrite log_line_run. eauto. Qed.

Lemma total_update ok src : total (update ok src).
Proof.
  unfold update. intros s. unfold mbind at 1, M_bind. simpl.
  unfold mbind at 1, M_bind. simpl.
  destruct (_ || _).
  - erewrite bind_run by apply CreateTexture2D_run.
    destruct ok.
    + erewrite bind_run by reflexivity.
      erewrite bind_run by apply logf_run.
      erewrite bind_run by apply CopyResource_run. eauto.
    + eauto.
  - destruct (SharedFrame.tex (shared s)); [|eauto].
    erewrite bind_run by apply CopyResource_run. eauto.
Qed.

Lemma total_FrameArrived env : total (FrameArrived env).
Proof.
  unfold FrameArrived. intros s.
  erewrite bind_run by reflexivity.
  erewrite bind_run by reflexivity.
  destruct (running s); simpl; [|eauto].
  erewrite bind_run by reflexivity.
  destruct (frame_available env); simpl; [|eauto].
  erewrite bind_run by reflexivity.
  erewrite bind_run by reflexivity.
  erewrite bind_run by reflexivity.
  erewrite bind_run by apply logf_run.
  erewrite bind_run by reflexivity.
  destruct (access_ok env); simpl; [|eauto].
  destruct (texture env) as [src|]; [|eauto].
  destruct (total_update (alloc_ok env) src
              (logged
                 (set_frameEvents (uint64 (frameEvents s + 1)) s)))
    as [[[u s'] e] ->].
  eauto.
Qed.

Lemma emits_FrameArrived P env :
  (∀ e, is_log_effect e = true → P e) →
  (∀ e, is_callback_effect e = true → P e) →
  emits P (FrameArrived env).
Proof.
  intros Hlog Hcb. unfold FrameArrived, update, CreateTexture2D, CopyResource.
  solve_emits; auto.
Qed.

Lemma copy_texture_fields dst src s :
  frameEvents (copy_texture dst src s) = frameEvents s
  ∧ shared (copy_texture dst src s) = shared s.
Proof. unfold copy_texture. by repeat case_match. Qed.

Lemma debug_lines_app e1 e2 :
  debug_lines (e1 ++ e2) = debug_lines e1 ++ debug_lines e2.
Proof. apply omap_app. Qed.

Lemma debug_lines_log_effects msg s : debug_lines (log_effects msg s) = [msg].
Proof. unfold log_effects. by destruct (logPath_set s). Qed.

Lemma update_lines ok src s s' effs :
  logPath_set s = true →
  update ok src s = Some (tt, s', effs) →
  got_frame effs = false
  ∧ frameEvents s' = frameEvents s
  ∧ log_lines effs
    = (if allocated effs
       then [shared_texture_recreated (SharedFrame.w (shared s'))
                                      (SharedFrame.h (shared s'))]
       else [])
  ∧ List.filter is_disk_io effs
    = imap (λ i m, FsAppendLine (log_file (base_path s)) m (log_opens s i))
          (log_lines effs)
  ∧ debug_lines effs = log_lines effs.
Proof.
  intros Hlp. unfold update. unfold mbind at 1, M_bind. simpl.
  unfold mbind at 1, M_bind. simpl.
  destruct (_ || _).
  - erewrite bind_run by apply CreateTexture2D_run.
    destruct ok.
    + erewrite bind_run by reflexivity.
      erewrite bind_run by apply logf_run.
      erewrite bind_run by apply CopyResource_run.
      unfold log_effects. simpl. rewrite Hlp. simpl.
      intros [= <- <-].
      destruct (copy_texture_fields (next_handle s) src
                  (logged
                     (set_shared (SharedFrame.mk (Some (next_handle s))
                                    (Width src) (Height src))
                        (alloc_texture (Width src) (Height src) s))))
        as [-> ->].
      done.
    + simpl. by intros [= <- <-].
  - destruct (SharedFrame.tex (shared s)); [|simpl; by intros [= <- <-]].
    erewrite bind_run by apply CopyResource_run.
    simpl. intros [= <- <-].
    destruct (copy_texture_fields h src s) as [-> ->]. done.
Qed.

(** C8 (as the code has it) — Every invocation of the callback returns and
    performs no blocking wait.  It writes one [frame_event] line, with the
    new value of the counter, when the pool hands it a frame, and one
    [shared_texture_recreated] line, with the new size, when it allocates
    the texture of the buffer; these are its only lines, and each goes to
    the debugger and to [stderr].  Its disk I/O is what [log_line] does for
    these lines and nothing else: one [fopen] of the log file, for
    appending, for each line (it opens or not as the platform decides at
    each call), and before the first of them the creation of the directory
    of the log if no line was ever logged before in the process.  Apart
    from logging, its effects are reads of the atomics, a frame-pool
    retrieval, an increment of the counter, a query of the surface, taking
    and releasing the lock, a texture allocation and a copy between GPU
    resources.  It leaves the files of the frames as they are. *)
Theorem callback_effects (env : FrameEnv) (s : State) :
  ∃ s' effs,
    FrameArrived env s = Some (tt, s', effs)
    ∧ Forall (λ e, is_blocking_wait e = false) effs
    ∧ log_lines effs
      = (if got_frame effs then [frame_event (frameEvents s')] else [])
        ++ (if allocated effs
            then [shared_texture_recreated (SharedFrame.w (shared s'))
                                           (SharedFrame.h (shared s'))]
            else [])
    ∧ debug_lines effs = log_lines effs
    ∧ List.filter is_disk_io effs
      = match log_lines effs with
        | [] => []
        | _ :: _ => if logPath_set s then []
                    else [FsCreateDirectories (sessions_dir (base_path s))]
        end
        ++ imap (λ i m, FsAppendLine (log_file (base_path s)) m (log_opens s i))
               (log_lines effs)
    ∧ Forall (λ e, is_log_effect e = true ∨ is_callback_effect e = true) effs
    ∧ files s' = files s.
Proof.
  destruct (total_FrameArrived env s) as [[[[] s'] effs] Hr].
  exists s', effs. split; [done|].
  split.
  { eapply (emits_FrameArrived _ env); [..|exact Hr];
      intros e He; destruct e; simplify_eq/=; auto. }
  assert (Hcls : Forall (λ e, is_log_effect e = true ∨ is_callback_effect e = true) effs).
  { eapply (emits_FrameArrived _ env); [..|exact Hr]; auto. }
  pose proof (FrameArrived_inv _ _ _ _ _ Hr) as (Hfiles & _).
  cut (log_lines effs
       = (if got_frame effs then [frame_event (frameEvents s')] else [])
         ++ (if allocated effs
             then [shared_texture_recreated (SharedFrame.w (shared s'))
                                            (SharedFrame.h (shared s'))]
             else [])
       ∧ debug_lines effs = log_lines effs
       ∧ List.filter is_disk_io effs
         = match log_lines effs with
           | [] => []
           | _ :: _ => if logPath_set s then []
                       else [FsCreateDirectories (sessions_dir (base_path s))]
           end
           ++ imap (λ i m, FsAppendLine (log_file (base_path s)) m (log_opens s i))
                  (log_lines effs)).
  { intros (? & ? & ?). done. }
  clear Hcls Hfiles. revert Hr.
  unfold FrameArrived.
  erewrite bind_run by reflexivity.
  erewrite bind_run by reflexivity.
  destruct (running s); simpl; [|by intros [= <- <-]].
  erewrite bind_run by reflexivity.
  destruct (frame_available env); simpl; [|by intros [= <- <-]].
  erewrite bind_run by reflexivity.
  erewrite bind_run by reflexivity.
  erewrite bind_run by reflexivity.
  erewrite bind_run by apply logf_run.
  erewrite bind_run by reflexivity.
  set (s1 := logged
               (set_frameEvents (uint64 (frameEvents s + 1)) s)).
  assert (Hlines : ∀ s2 e2,
    frameEvents s2 = frameEvents s1 →
    got_frame e2 = false →
    log_lines e2
    = (if allocated e2
       then [shared_texture_recreated (SharedFrame.w (shared s2))
                                      (SharedFrame.h (shared s2))]
       else []) →
    List.filter is_disk_io e2
    = imap (λ i m, FsAppendLine (log_file (base_path s)) m (log_opens s (S i)))
           (log_lines e2) →
    debug_lines e2 = log_lines e2 →
    Some (tt, s2,
          [AtomicLoad a_running]
          ++ [] ++ [PoolTryGetNextFrame true]
          ++ [AtomicFetchAdd a_frameEvents]
          ++ [] ++ [AtomicLoad a_frameEvents]
          ++ log_effects (frame_event (uint64 (frameEvents s + 1)))
               (set_frameEvents (uint64 (frameEvents s + 1)) s)
          ++ [SurfaceQuery (access_ok env)] ++ e2)
    = Some (tt, s', effs) →
    log_lines effs
    = (if got_frame effs then [frame_event (frameEvents s')] else [])
      ++ (if allocated effs
          then [shared_texture_recreated (SharedFrame.w (shared s'))
                                         (SharedFrame.h (shared s'))]
          else [])
    ∧ debug_lines effs = log_lines effs
    ∧ List.filter is_disk_io effs
      = match log_lines effs with
        | [] => []
        | _ :: _ => if logPath_set s then []
                    else [FsCreateDirectories (sessions_dir (base_path s))]
        end
        ++ imap (λ i m, FsAppendLine (log_file (base_path s)) m (log_opens s i))
               (log_lines effs)).
  { intros s2 e2 Hfe Hgf Hll Hio Hdbg [= <- <-].
    split; [|split].
    2: { change (debug_lines
                   ([AtomicLoad a_running; PoolTryGetNextFrame true;
                     AtomicFetchAdd a_frameEvents; AtomicLoad a_frameEvents]
                    ++ log_effects (frame_event (uint64 (frameEvents s + 1)))
                         (set_frameEvents (uint64 (frameEvents s + 1)) s)
                    ++ [SurfaceQuery (access_ok env)] ++ e2)
                 = log_lines
                     ([AtomicLoad a_running; PoolTryGetNextFrame true;
                       AtomicFetchAdd a_frameEvents; AtomicLoad a_frameEvents]
                      ++ log_effects (frame_event (uint64 (frameEvents s + 1)))
                           (set_frameEvents (uint64 (frameEvents s + 1)) s)
                      ++ [SurfaceQuery (access_ok env)] ++ e2)).
         rewrite !debug_lines_app, !log_lines_app, Hdbg,
           debug_lines_log_effects, log_lines_log_effects.
         reflexivity. }
    all: unfold log_effects; rewrite ?Hfe; destruct s; simpl in *;
      destruct logPath_set0; simpl; unfold allocated in *; simpl;
      rewrite ?Hio, ?Hll; done. }
  destruct ((if negb (access_ok env) then skip
             else match texture env with
                  | Some src => update (alloc_ok env) src
                  | None => skip
                  end) s1) as [[[[] s2] e2]|] eqn:Hu; [|done].
  simpl. intros H. apply (Hlines s2 e2); [..|exact H]; clear H Hlines;
    revert Hu.
  all: destruct (access_ok env); simpl; [|by intros [= <- <-]].
  all: destruct (texture env) as [src|]; [|by intros [= <- <-]].
  all: intros Hu; by apply (update_lines _ _ s1) in Hu as (? & ? & ? & ? & ?).
Qed.

(** C8, as stated, fails: an invocation that gets a frame opens the log
    file and appends a line to it, which is disk I/O. *)
Lemma callback_disk_io_counterexample :
  ∃ s' effs,
    FrameArrived a_frame (session_start (initial_state "base"))
    = Some (tt, s', effs)
    ∧ FsAppendLine (log_file "base") (frame_event 1) true ∈ effs
    ∧ is_disk_io (FsAppendLine (log_file "base") (frame_event 1) true) = true
    ∧ ¬ Forall (λ e, is_disk_io e = false) effs.
Proof.
  eexists _, _. split; [vm_compute; reflexivity|].
  split; [|split; [reflexivity|]].
  - apply list_elem_of_In. vm_compute. tauto.
  - intros H. rewrite Forall_forall in H.
    specialize (H (FsAppendLine (log_file "base") (frame_event 1) true)).
    discriminate H. vm_compute. tauto.
Qed.

(** ** The supervisor *)

Lemma emits_run_event P base alive ev :
  (∀ e, is_session_effect e = true → P e) → emits P (run_event base alive ev).
Proof.
  intros HP. destruct ev as [env|env]; simpl.
  - apply emits_bind; [|intros; apply emits_ret].
    apply emits_FrameArrived; intros e He; apply HP; unfold is_session_effect;
      rewrite He; by rewrite ?orb_true_r.
  - destruct alive; [|apply emits_ret].
    apply emits_saver_iteration; intros; apply HP; try done;
      unfold is_session_effect;
      repeat match goal with H : _ = true |- _ => rewrite H end;
      by rewrite ?orb_true_r.
Qed.

Lemma emits_run_events P base evs alive :
  (∀ e, is_session_effect e = true → P e) → emits P (run_events base alive evs).
Proof.
  intros HP. revert alive. induction evs as [|ev evs IH]; intros alive; simpl.
  - apply emits_ret.
  - apply emits_bind; [by apply emits_run_event|]. intros. apply IH.
Qed.

Lemma run_events_filter (f : Effect → bool) base evs alive s a s' e :
  (∀ x, is_session_effect x = true → f x = false) →
  run_events base alive evs s = Some (a, s', e) → List.filter f e = [].
Proof.
  intros Hf Hr. apply filter_nil_of_Forall.
  by eapply (emits_run_events (λ x, f x = false)).
Qed.

Lemma run_events_flags base evs alive s a s' e :
  run_events base alive evs s = Some (a, s', e) →
  running s' = running s ∧ saverRun s' = saverRun s.
Proof.
  revert alive s e. induction evs as [|ev evs IH]; intros alive s e Hr; simpl in Hr.
  - by apply ret_Some in Hr as (-> & -> & ->).
  - apply bind_Some in Hr as (a1 & s1 & e1 & e2 & H1 & H2 & ->).
    apply IH in H2 as (-> & ->).
    destruct ev as [env|env]; simpl in H1.
    + apply bind_Some in H1 as (u & s2 & e3 & e4 & Hf & (-> & <- & ->)%ret_Some & ->).
      by apply FrameArrived_inv in Hf as (_ & -> & -> & _).
    + destruct alive.
      * by apply saver_iteration_inv in H1 as (_ & _ & -> & -> & _).
      * by apply ret_Some in H1 as (-> & -> & ->).
Qed.

Lemma repeat_M_filter (f : Effect → bool) n m s a s' e :
  (∀ s a s' e, m s = Some (a, s', e) → s' = s ∧ List.filter f e = []) →
  repeat_M n m s = Some (a, s', e) → s' = s ∧ List.filter f e = [].
Proof.
  intros Hm. revert s e. induction n as [|n IH]; intros s e Hr; simpl in Hr.
  - by apply skip_Some in Hr as (-> & ->).
  - apply bind_Some in Hr as (u & s1 & e1 & e2 & H1 & H2 & ->).
    apply Hm in H1 as (-> & He1). apply IH in H2 as (-> & He2).
    by rewrite List.filter_app, He1, He2.
Qed.

Lemma filter_logs (f : Effect → bool) msg s :
  (∀ x, is_log_effect x = true → f x = false) →
  List.filter f (log_effects msg s) = [].
Proof. intros Hf. apply filter_log_effects; [done|apply log_effects_log]. Qed.

Ltac filters :=
  repeat progress
    (rewrite ?List.filter_app; simpl;
     rewrite ?(filter_logs is_open_process), ?(filter_logs is_teardown_op),
       ?(filter_logs is_terminate) by (by intros []);
     rewrite ?app_nil_r; simpl).

Lemma run_session_shape env s o s' effs :
  run_session env s = Some (o, s', effs) →
  iteration_shape (if open_ok env then ProcessExited else OpenFailed) o s' effs.
Proof.
  intros Hr. unfold run_session in Hr.
  apply bind_Some in Hr as (? & ? & ? & ? & (-> & ->)%emit_Some & Hr & ->).
  apply bind_Some in Hr as (? & ? & ? & ? & (-> & ->)%emit_Some & Hr & ->).
  apply bind_Some in Hr as (? & ? & ? & ? & (-> & ->)%emit_Some & Hr & ->).
  apply bind_Some in Hr as (? & ? & ? & ? & (-> & ->)%log_line_Some & Hr & ->).
  apply bind_Some in Hr as (baseDir & ? & ? & ? & Hfd & Hr & ->).
  rewrite frames_dir_run in Hfd. injection Hfd as <- <- <-.
  apply bind_Some in Hr as (? & ? & ? & ? & (-> & ->)%modify_Some & Hr & ->).
  apply bind_Some in Hr as (? & ? & ? & ? & (-> & ->)%emit_Some & Hr & ->).
  apply bind_Some in Hr as (? & ? & ? & ? & (-> & ->)%emit_Some & Hr & ->).
  apply bind_Some in Hr as (? & ? & ? & ? & (-> & ->)%emit_Some & Hr & ->).
  apply bind_Some in Hr as (a1 & s1 & e1 & ? & Hev1 & Hr & ->).
  pose proof (run_events_flags _ _ _ _ _ _ _ Hev1) as (Hrn1 & Hsr1).
  pose proof (run_events_filter is_open_process _ _ _ _ _ _ _ ltac:(by intros []) Hev1) as Ho1.
  pose proof (run_events_filter is_teardown_op _ _ _ _ _ _ _ ltac:(by intros []) Hev1) as Ht1.
  pose proof (run_events_filter is_terminate _ _ _ _ _ _ _ ltac:(by intros []) Hev1) as Hx1.
  apply bind_Some in Hr as (? & ? & ? & ? & (-> & ->)%emit_Some & Hr & ->).
  destruct (open_ok env); simpl in Hr.
  - apply bind_Some in Hr as (? & ? & ? & ? & (-> & ->)%emit_Some & Hr & ->).
    apply bind_Some in Hr as (? & s2 & e2 & ? & Hw & Hr & ->).
    apply bind_Some in Hr as (a3 & s3 & e3 & ? & Hev2 & Hr & ->).
    pose proof (run_events_filter is_open_process _ _ _ _ _ _ _ ltac:(by intros []) Hev2) as Ho2.
    pose proof (run_events_filter is_teardown_op _ _ _ _ _ _ _ ltac:(by intros []) Hev2) as Ht2.
    pose proof (run_events_filter is_terminate _ _ _ _ _ _ _ ltac:(by intros []) Hev2) as Hx2.
    apply bind_Some in Hr as (? & ? & ? & ? & (-> & ->)%emit_Some & Hr & ->).
    apply bind_Some in Hr as (? & ? & ? & ? & (-> & ->)%emit_Some & Hr & ->).
    apply bind_Some in Hr as (? & ? & ? & ? & (-> & ->)%emit_Some & Hr & ->).
    apply bind_Some in Hr as (? & s4 & e4 & ? & Hg & Hr & ->).
    assert (Hwait : ∀ f, f (WaitForSingleObject 500 false) = false →
              s2 = s1 ∧ List.filter f e2 = []).
    { intros f Hf. eapply (repeat_M_filter f); [|exact Hw].
      intros ? ? ? ? (-> & ->)%emit_Some. simpl. by rewrite Hf. }
    assert (Hgrace : ∀ f, f SteadyClock = false → (∀ ms, f (SleepFor ms) = false) →
              s4 = s3 ∧ List.filter f e4 = []).
    { intros f Hf1 Hf2. eapply (repeat_M_filter f); [|exact Hg].
      intros ? ? ? ? Hm. step_inv. simpl. by rewrite Hf1, Hf2. }
    destruct (Hwait is_open_process eq_refl) as (-> & Ho3).
    destruct (Hwait is_teardown_op eq_refl) as (_ & Ht3).
    destruct (Hwait is_terminate eq_refl) as (_ & Hx3).
    destruct (Hgrace is_open_process eq_refl ltac:(done)) as (-> & Ho4).
    destruct (Hgrace is_teardown_op eq_refl ltac:(done)) as (_ & Ht4).
    destruct (Hgrace is_terminate eq_refl ltac:(done)) as (_ & Hx4).
    step_inv. unfold iteration_shape, code_teardown_order. simpl.
    filters. rewrite Ho1, Ho2, Ho3, Ho4, Ht1, Ht2, Ht3, Ht4, Hx1, Hx2, Hx3, Hx4.
    done.
  - step_inv. unfold iteration_shape. simpl in *.
    filters. rewrite Ho1, Ht1, Hx1. done.
Qed.

Lemma main_iteration_shape env s o s' effs :
  main_iteration env s = Some (o, s', effs) →
  iteration_shape NoSession o s' effs
  ∨ iteration_shape (if open_ok env then ProcessExited else OpenFailed) o s' effs.
Proof.
  intros Hr. unfold main_iteration, locate, find_window, continue_after in Hr.
  step_inv;
    try (left; unfold iteration_shape; filters; done).
  all: right;
    match goal with
    | Hs : run_session _ _ = Some _ |- _ => apply run_session_shape in Hs
    end;
    destruct (open_ok env); unfold iteration_shape in *;
    filters; naive_solver.
Qed.

Lemma filter_elem_of (f : Effect → bool) (x : Effect) (l : list Effect) :
  x ∈ l → f x = true → x ∈ List.filter f l.
Proof. intros Hin Hf. apply list_elem_of_In, filter_In. by rewrite <- list_elem_of_In. Qed.

Lemma elem_of_filter (f : Effect → bool) (x : Effect) (l : list Effect) :
  x ∈ List.filter f l → x ∈ l.
Proof.
  intros Hin%list_elem_of_In%filter_In. apply list_elem_of_In. by destruct Hin.
Qed.

(** C2 (as the code has it) — In every iteration of the supervisor that has
    opened the process handle, that is in every normal teardown, the steps
    come in this order: release the process handle, clear the running flag,
    unregister the callback, close the capture session, close the frame
    pool, clear the run flag of the saver, join its thread; both flags are
    then clear and the loop goes round. *)
Theorem teardown_order (env : MainEnv) (s : State) (o : Outcome) (s' : State)
    (effs : list Effect) :
  main_iteration env s = Some (o, s', effs) →
  OpenProcess true ∈ effs →
  List.filter is_teardown_op effs
  = [CloseHandle; AtomicStore a_running false; RevokeFrameArrived; SessionClose;
     FramePoolClose; AtomicStore a_saverRun false; ThreadJoin]
  ∧ o = Continue ∧ running s' = false ∧ saverRun s' = false.
Proof.
  intros Hr Hin.
  apply (filter_elem_of is_open_process) in Hin; [|done].
  apply main_iteration_shape in Hr as [Hk|Hk].
  - destruct Hk as (_ & Ho & _). rewrite Ho in Hin. by apply elem_of_nil in Hin.
  - destruct (open_ok env); simpl in Hk.
    + by destruct Hk as (-> & -> & -> & _ & -> & _).
    + destruct Hk as (_ & _ & _ & Ho & _). rewrite Ho in Hin.
      apply list_elem_of_singleton in Hin. discriminate Hin.
Qed.

(** C2, as stated, fails: the process handle is released first, not last. *)
Lemma teardown_order_counterexample :
  List.filter is_teardown_op
    (effects_of (main_iteration (a_lifecycle true 2)) (initial_state "base"))
  ≠ spec_teardown_order.
Proof. vm_compute. discriminate. Qed.

(** C3 — what the code does when [OpenProcess] fails after the session was
    started: it unregisters the callback and closes the pool and the
    session, but neither clears a flag nor joins the saver; leaving the body
    then destroys the joinable thread, and the process is terminated. *)
Theorem open_failure_terminates (env : MainEnv) (s : State) (o : Outcome)
    (s' : State) (effs : list Effect) :
  main_iteration env s = Some (o, s', effs) →
  OpenProcess false ∈ effs →
  o = Terminated
  ∧ Terminate ∈ effs
  ∧ (ThreadJoin ∉ effs)
  ∧ (AtomicStore a_saverRun false ∉ effs)
  ∧ (AtomicStore a_running false ∉ effs)
  ∧ running s' = true ∧ saverRun s' = true.
Proof.
  intros Hr Hin.
  apply (filter_elem_of is_open_process) in Hin; [|done].
  apply main_iteration_shape in Hr as [Hk|Hk].
  - destruct Hk as (_ & Ho & _). rewrite Ho in Hin. by apply elem_of_nil in Hin.
  - destruct (open_ok env); simpl in Hk.
    + destruct Hk as (_ & _ & _ & Ho & _). rewrite Ho in Hin.
      apply list_elem_of_singleton in Hin. discriminate Hin.
    + destruct Hk as (-> & -> & -> & _ & Ht & Hx).
      assert (Hno : ∀ x, is_teardown_op x = true →
                x ∉ [RevokeFrameArrived; FramePoolClose; SessionClose] → x ∉ effs).
      { intros x Hx1 Hx2 Hx3. apply Hx2. rewrite <- Ht. by apply filter_elem_of. }
      split; [done|]. split.
      { apply (elem_of_filter is_terminate). rewrite Hx. by left. }
      repeat split; try apply Hno; try done;
        rewrite !elem_of_cons, elem_of_nil; naive_solver.
Qed.

(** ** File names *)

Lemma string_app_cons (c : ascii) (a b : string) :
  String c a +:+ b = String c (a +:+ b).
Proof. reflexivity. Qed.

Lemma string_app_nil (b : string) : "" +:+ b = b.
Proof. reflexivity. Qed.

Lemma string_app_assoc (a b c : string) : (a +:+ b) +:+ c = a +:+ (b +:+ c).
Proof.
  induction a as [|x a IH]; [done|]. by rewrite !string_app_cons, IH.
Qed.

Lemma string_app_length (a b : string) :
  String.length (a +:+ b) = (String.length a + String.length b)%nat.
Proof.
  induction a as [|x a IH]; [done|]. rewrite string_app_cons. simpl. by rewrite IH.
Qed.

Lemma lex_assoc c1 c2 c3 : lex (lex c1 c2) c3 = lex c1 (lex c2 c3).
Proof. by destruct c1. Qed.

Lemma ascii_compare_refl (c : ascii) : Ascii.compare c c = Eq.
Proof. unfold Ascii.compare. apply N.compare_refl. Qed.

Lemma compare_String (c1 c2 : ascii) (r1 r2 : string) :
  String.compare (String c1 r1) (String c2 r2)
  = lex (Ascii.compare c1 c2) (String.compare r1 r2).
Proof. simpl. by destruct (Ascii.compare c1 c2). Qed.

Lemma compare_cons (c : ascii) (r1 r2 : string) :
  String.compare (String c r1) (String c r2) = String.compare r1 r2.
Proof. simpl. by rewrite ascii_compare_refl. Qed.

Lemma string_compare_refl (s : string) : String.compare s s = Eq.
Proof. induction s as [|c s IH]; [done|]. by rewrite compare_cons. Qed.

Lemma compare_prefix (a r1 r2 : string) :
  String.compare (a +:+ r1) (a +:+ r2) = String.compare r1 r2.
Proof.
  induction a as [|c a IH]; [done|]. by rewrite !string_app_cons, compare_cons.
Qed.

Lemma digit_compare (x y : Z) :
  0 ≤ x < 10 → 0 ≤ y < 10 → Ascii.compare (digit x) (digit y) = (x ?= y).
Proof.
  intros Hx Hy. unfold Ascii.compare, digit, ascii_of_nat.
  rewrite !N_ascii_embedding by lia.
  rewrite <- N2Z.inj_compare, !nat_N_Z.
  rewrite !Nat2Z.inj_add, !Z2Nat.id by lia.
  change (Z.of_nat 48) with 48. apply Z.add_compare_mono_l.
Qed.

Lemma digits_compare (x y u v : Z) :
  0 ≤ u < 10 → 0 ≤ v < 10 →
  lex (x ?= y) (u ?= v) = (10 * x + u ?= 10 * y + v).
Proof.
  intros Hu Hv. unfold lex.
  destruct (Z.compare_spec x y) as [->|Hlt|Hgt].
  - symmetry. apply Z.add_compare_mono_l.
  - symmetry. apply Z.compare_lt_iff. lia.
  - symmetry. apply Z.compare_gt_iff. lia.
Qed.

Lemma low_digits_length (k : nat) (n : Z) : String.length (low_digits k n) = k.
Proof.
  revert n. induction k as [|k IH]; intros n; simpl; [done|].
  rewrite string_app_length, IH. simpl. lia.
Qed.

(** Numbers printed with one width compare as their digits do. *)
Lemma low_digits_compare (k : nat) (a b : Z) (r1 r2 : string) :
  0 ≤ a < 10 ^ Z.of_nat k → 0 ≤ b < 10 ^ Z.of_nat k →
  String.compare (low_digits k a +:+ r1) (low_digits k b +:+ r2)
  = lex (a ?= b) (String.compare r1 r2).
Proof.
  revert a b r1 r2. induction k as [|k IH]; intros a b r1 r2 Ha Hb.
  - simpl in *. assert (a = 0) as -> by lia. assert (b = 0) as -> by lia. done.
  - rewrite Nat2Z.inj_succ, Z.pow_succ_r in Ha, Hb by lia.
    cbn [low_digits]. rewrite !string_app_assoc.
    rewrite IH.
    2,3: split; [apply Z.div_pos; lia|apply Z.div_lt_upper_bound; lia].
    rewrite !string_app_cons, !string_app_nil.
    rewrite compare_String.
    pose proof (Z.mod_pos_bound a 10 ltac:(lia)) as Ham.
    pose proof (Z.mod_pos_bound b 10 ltac:(lia)) as Hbm.
    rewrite digit_compare by done.
    rewrite <- lex_assoc, digits_compare by done.
    by rewrite <- !Z.div_mod by lia.
Qed.

Lemma num_digits_le (f k : nat) (n : Z) :
  (1 ≤ k)%nat → n < 10 ^ Z.of_nat k → (num_digits f n ≤ k)%nat.
Proof.
  revert k n. induction f as [|f IH]; intros k n Hk Hn; simpl; [done|].
  destruct (Z.ltb_spec n 10); [done|].
  destruct k as [|[|k]]; [lia|simpl in Hn; lia|].
  apply le_n_S, IH; [lia|].
  rewrite Nat2Z.inj_succ, Z.pow_succ_r in Hn by lia.
  apply Z.div_lt_upper_bound; lia.
Qed.

Lemma num_digits_bound (f : nat) (n : Z) :
  0 ≤ n < 10 ^ Z.of_nat (S f) → n < 10 ^ Z.of_nat (num_digits f n).
Proof.
  revert n. induction f as [|f IH]; intros n Hn.
  - simpl in *. lia.
  - cbn [num_digits]. destruct (Z.ltb_spec n 10); [simpl; lia|].
    rewrite Nat2Z.inj_succ, Z.pow_succ_r by lia.
    rewrite (Nat2Z.inj_succ (S f)), Z.pow_succ_r in Hn by lia.
    assert (n / 10 < 10 ^ Z.of_nat (num_digits f (n / 10))).
    { apply IH. split; [apply Z.div_pos; lia|apply Z.div_lt_upper_bound; lia]. }
    pose proof (Z.div_mod n 10 ltac:(lia)).
    pose proof (Z.mod_pos_bound n 10 ltac:(lia)). lia.
Qed.

Lemma num_digits_pos (f : nat) (n : Z) : (1 ≤ num_digits f n)%nat.
Proof. destruct f; simpl; [done|]. destruct (n <? 10); lia. Qed.

(** A number that fits the width is printed with exactly that width. *)
Lemma fmt_0d_fits (k : nat) (n : Z) :
  (1 ≤ k)%nat → 0 ≤ n < 10 ^ Z.of_nat k → fmt_0d k n = low_digits k n.
Proof.
  intros Hk Hn. unfold fmt_0d.
  destruct (Z.ltb_spec n 0); [lia|].
  rewrite Nat.max_l; [done|]. apply num_digits_le; lia.
Qed.

(** The sequence number is printed with the digits of some width in which
    it fits. *)
Lemma fmt_0d_nonneg (k : nat) (n : Z) :
  0 ≤ n ≤ INT_MAX →
  ∃ K, fmt_0d k n = low_digits K n ∧ 0 ≤ n < 10 ^ Z.of_nat K.
Proof.
  intros Hn. unfold fmt_0d. destruct (Z.ltb_spec n 0); [lia|].
  exists (k `max` num_digits 20 n)%nat. split; [done|]. split; [lia|].
  assert (Hb : n < 10 ^ Z.of_nat (num_digits 20 n)).
  { apply num_digits_bound. unfold INT_MAX in Hn.
    change (10 ^ Z.of_nat 21) with 1000000000000000000000. lia. }
  eapply Z.lt_le_trans; [exact Hb|].
  apply Z.pow_le_mono_r; lia.
Qed.

Lemma fmt_0d_inj (k : nat) (a b : Z) (r : string) :
  0 ≤ a ≤ INT_MAX → 0 ≤ b ≤ INT_MAX →
  fmt_0d k a +:+ r = fmt_0d k b +:+ r → a = b.
Proof.
  intros Ha Hb Heq.
  destruct (fmt_0d_nonneg k a Ha) as (Ka & Ea & Hka).
  destruct (fmt_0d_nonneg k b Hb) as (Kb & Eb & Hkb).
  rewrite Ea, Eb in Heq.
  assert (Ka = Kb) as ->.
  { apply (f_equal String.length) in Heq.
    rewrite !string_app_length, !low_digits_length in Heq. lia. }
  apply (f_equal (λ s, String.compare s (low_digits Kb b +:+ r))) in Heq.
  rewrite !low_digits_compare in Heq by done.
  rewrite Z.compare_refl, string_compare_refl in Heq. simpl in Heq.
  destruct (Z.compare_spec a b) as [->|?|?]; [done|..]; discriminate.
Qed.

Lemma has_char_app c a b : has_char c (a +:+ b) = has_char c a || has_char c b.
Proof.
  induction a as [|x a IH]; [done|]. rewrite string_app_cons. simpl.
  by destruct (Ascii.eqb x c).
Qed.

Lemma split_at_char c a1 a2 r1 r2 :
  has_char c a1 = false → has_char c a2 = false →
  a1 +:+ String c r1 = a2 +:+ String c r2 → a1 = a2 ∧ r1 = r2.
Proof.
  revert a2. induction a1 as [|x a1 IH]; intros [|y a2] H1 H2 Heq;
    rewrite ?string_app_cons, ?string_app_nil in Heq; simpl in *.
  - by injection Heq as ->.
  - injection Heq as <- _. by rewrite Ascii.eqb_refl in H2.
  - injection Heq as -> _. by rewrite Ascii.eqb_refl in H1.
  - injection Heq as -> Heq.
    destruct (Ascii.eqb y c); [done|].
    destruct (IH a2 H1 H2 Heq) as (-> & ->). done.
Qed.

Lemma digit_not_underscore x : 0 ≤ x < 10 → Ascii.eqb (digit x) "_" = false.
Proof.
  intros Hx.
  assert (H : x = 0 ∨ x = 1 ∨ x = 2 ∨ x = 3 ∨ x = 4 ∨ x = 5 ∨ x = 6 ∨ x = 7
              ∨ x = 8 ∨ x = 9) by lia.
  repeat destruct H as [->|H]; try subst x; reflexivity.
Qed.

Lemma has_char_low_digits k n : has_char "_" (low_digits k n) = false.
Proof.
  revert n. induction k as [|k IH]; intros n; [done|].
  cbn [low_digits]. rewrite has_char_app, IH. cbn [has_char orb].
  rewrite digit_not_underscore; [done|]. apply Z.mod_pos_bound. lia.
Qed.

Lemma has_char_fmt k n : has_char "_" (fmt_0d k n) = false.
Proof.
  unfold fmt_0d. destruct (n <? 0).
  - rewrite string_app_cons, string_app_nil. cbn [has_char].
    change (Ascii.eqb "-" "_") with false. cbv iota. apply has_char_low_digits.
  - apply has_char_low_digits.
Qed.

(** A file name, cut at its underscore. *)
Lemma frame_name_split utc ms k n :
  frame_name utc ms k = Some n →
  ∃ stamp, has_char "_" stamp = false
           ∧ n = stamp +:+ String "_" (fmt_0d 5 k +:+ ".bmp").
Proof.
  unfold frame_name. intros H.
  destruct (int_add (tm_year utc) 1900) as [year|]; [|done].
  destruct (int_add (tm_mon utc) 1) as [mon|]; [|done].
  cbn [mbind option_bind] in H. injection H as <-.
  exists (fmt_0d 4 year +:+ "-" +:+ fmt_0d 2 mon +:+ "-" +:+ fmt_0d 2 (tm_mday utc)
          +:+ "T" +:+ fmt_0d 2 (tm_hour utc) +:+ "-" +:+ fmt_0d 2 (tm_min utc)
          +:+ "-" +:+ fmt_0d 2 (tm_sec utc) +:+ "." +:+ fmt_0d 3 ms +:+ "Z").
  split.
  - rewrite !has_char_app, !has_char_fmt. cbn [has_char orb].
    reflexivity.
  - rewrite !string_app_assoc, !string_app_cons, !string_app_nil. reflexivity.
Qed.

(** File names with different sequence numbers differ. *)
Lemma frame_name_inj utc1 ms1 k1 utc2 ms2 k2 n :
  0 ≤ k1 ≤ INT_MAX → 0 ≤ k2 ≤ INT_MAX →
  frame_name utc1 ms1 k1 = Some n → frame_name utc2 ms2 k2 = Some n → k1 = k2.
Proof.
  intros Hk1 Hk2 (st1 & Hs1 & ->)%frame_name_split (st2 & Hs2 & Heq)%frame_name_split.
  apply split_at_char in Heq as (_ & Heq); [|done..].
  by apply fmt_0d_inj in Heq.
Qed.

(** File names compare as their stamps, then their sequence numbers, when
    all the fields fit the widths of the format. *)
Lemma frame_name_compare e1 k1 n1 e2 k2 n2 :
  stamp_in_format e1 → stamp_in_format e2 →
  0 ≤ k1 < 100000 → 0 ≤ k2 < 100000 →
  frame_name (utc e1) (msPart e1) k1 = Some n1 →
  frame_name (utc e2) (msPart e2) k2 = Some n2 →
  String.compare n1 n2 = lex (stamp_compare e1 e2) (k1 ?= k2).
Proof.
  intros (Hy1 & Hm1 & Hd1 & Hh1 & Hi1 & Hs1 & Hms1)
         (Hy2 & Hm2 & Hd2 & Hh2 & Hi2 & Hs2 & Hms2) Hk1 Hk2 H1 H2.
  unfold frame_name, int_add in H1, H2.
  rewrite !to_int_in_range in H1, H2 by (unfold INT_MIN, INT_MAX; lia).
  cbn [mbind option_bind] in H1, H2. injection H1 as <-. injection H2 as <-.
  rewrite !(fmt_0d_fits 4), !(fmt_0d_fits 2), !(fmt_0d_fits 3), !(fmt_0d_fits 5)
    by (simpl; lia).
  unfold stamp_compare.
  assert (Hc : ∀ a b c, (a ?= b) = (a + c ?= b + c)).
  { intros a b c. rewrite !(Z.add_comm _ c). symmetry. apply Z.add_compare_mono_l. }
  rewrite (Hc (tm_year (utc e1)) _ 1900), (Hc (tm_mon (utc e1)) _ 1). clear Hc.
  repeat (rewrite low_digits_compare by (simpl; lia);
          rewrite ?string_app_cons, ?string_app_nil, ?compare_cons).
  rewrite string_compare_refl.
  rewrite !lex_assoc. f_equal. f_equal. f_equal. f_equal. f_equal. f_equal. f_equal.
  by destruct (k1 ?= k2).
Qed.

Lemma saved_names_app e1 e2 :
  saved_names (e1 ++ e2) = saved_names e1 ++ saved_names e2.
Proof. apply omap_app. Qed.

Lemma saved_names_filter e :
  saved_names (List.filter is_frame_file_op e) = saved_names e.
Proof.
  induction e as [|x e IH]; [done|]. simpl.
  destruct x; simpl; rewrite ?IH; try done.
Qed.

Lemma saved_names_writer env p :
  saved_names (writer_file_ops env p)
  = if fopen_ok env && (rename1_ok env || rename2_ok env) then [p] else [].
Proof.
  unfold writer_file_ops.
  by destruct (fopen_ok env), (rename1_ok env), (rename2_ok env).
Qed.

(** What one event adds to the saved files. *)
Lemma run_event_saves base alive ev s a s' e :
  run_event base alive ev s = Some (a, s', e) →
  saveIdx s ≤ saveIdx s'
  ∧ (saved_names e = []
     ∨ ∃ env p, ev = EvTick env ∧ saved_names e = [p]
         ∧ save_path base (env, saveIdx s) = Some p
         ∧ saveIdx s' = saveIdx s + 1 ∧ saveIdx s' ≤ INT_MAX).
Proof.
  destruct ev as [env|env]; simpl; intros Hr.
  - apply bind_Some in Hr as (? & s1 & e1 & e2 & Hf & (-> & -> & ->)%ret_Some & ->).
    apply FrameArrived_inv in Hf as (_ & _ & _ & Hi & _ & Hops & _).
    rewrite Hi, app_nil_r, <- saved_names_filter, Hops. split; [lia|by left].
  - destruct alive.
    2:{ apply ret_Some in Hr as (-> & -> & ->). split; [lia|by left]. }
    apply saver_iteration_inv in Hr
      as (_ & _ & _ & _ & _ & _ & _ & [(_ & Hi & _ & Hops & _)|(_ & n & Hn & _ & Hi & Hmax & Hops)]).
    + rewrite Hi, <- saved_names_filter, Hops. split; [lia|by left].
    + rewrite Hi. split; [lia|].
      rewrite <- saved_names_filter, Hops.
      destruct (staging_ok (save_env env) && bool_decide (is_Some (map_pitch (save_env env))));
        [|by left].
      rewrite saved_names_writer.
      destruct (fopen_ok (save_env env) && (rename1_ok (save_env env) || rename2_ok (save_env env)));
        [|by left].
      right. exists env, (base +:+ "/" +:+ n). repeat split; try done.
      unfold save_path. simpl. by rewrite Hn.
Qed.

(** The files that a run saves: each one at a tick of the run and under the
    sequence number that the saver had reached; the sequence numbers grow,
    and the ticks come in the order of the run. *)
Lemma run_events_saves (S : relation TickEnv) base evs : ∀ alive s a s' e,
  run_events base alive evs s = Some (a, s', e) →
  StronglySorted S (ticks evs) →
  ∃ saves : list (TickEnv * Z),
    Forall2 (λ p sv, save_path base sv = Some p) (saved_names e) saves
    ∧ Forall (λ sv, sv.1 ∈ ticks evs ∧ saveIdx s ≤ sv.2 < saveIdx s'
                    ∧ sv.2 < INT_MAX) saves
    ∧ StronglySorted (λ a b, a.2 < b.2 ∧ S a.1 b.1) saves
    ∧ saveIdx s ≤ saveIdx s'.
Proof.
  induction evs as [|ev evs IH]; intros alive s a s' e Hr Hs.
  - apply ret_Some in Hr as (-> & -> & ->). exists []. simpl.
    repeat split; try constructor. lia.
  - simpl in Hr.
    apply bind_Some in Hr as (a1 & s1 & e1 & e2 & H1 & H2 & ->).
    apply run_event_saves in H1 as (Hle & H1).
    assert (Hs' : StronglySorted S (ticks evs)).
    { destruct ev; simpl in Hs; [done|]. by apply StronglySorted_inv in Hs as (? & _). }
    destruct (IH _ _ _ _ _ H2 Hs') as (saves & Hn & Hall & Hsorted & Hle').
    rewrite saved_names_app.
    destruct H1 as [->|(env & p & -> & -> & Hp & Hi & Hmax)].
    + exists saves. simpl. repeat split; try done; [|lia].
      eapply Forall_weaken; [|exact Hall]. intros sv (Hin & Hb & Hm). simpl in *.
      repeat split; try lia.
      destruct ev; simpl; [done|]. by right.
    + exists ((env, saveIdx s) :: saves). simpl.
      apply StronglySorted_inv in Hs as (_ & Hhd).
      repeat split; try lia.
      * by constructor.
      * constructor.
        -- simpl. repeat split; try lia. by left.
        -- eapply Forall_weaken; [|exact Hall]. intros sv (Hin & Hb & Hm). simpl in *.
           repeat split; try lia. by right.
      * constructor; [done|].
        rewrite Forall_lookup in Hall. apply Forall_lookup. intros i sv Hsv.
        destruct (Hall i sv Hsv) as (Hin & Hb & _). simpl. split; [lia|].
        rewrite Forall_lookup in Hhd.
        apply list_elem_of_lookup in Hin as (j & Hj). by eapply Hhd.
Qed.

Lemma Forall2_StronglySorted {A B} (P : A → B → Prop) (Q : B → Prop)
    (R : relation B) (T : relation A) l k :
  (∀ p q a b, P p a → P q b → Q a → Q b → R a b → T p q) →
  Forall2 P l k → Forall Q k → StronglySorted R k → StronglySorted T l.
Proof.
  intros HT H2. induction H2 as [|p a l k Hpa H2 IH]; intros HQ HR.
  - constructor.
  - pose proof (Forall_inv HQ) as Ha. apply Forall_inv_tail in HQ.
    apply StronglySorted_inv in HR as (HR & Hhd).
    constructor; [by apply IH|].
    clear IH HR. induction H2 as [|q b l k Hqb H2 IH]; [constructor|].
    pose proof (Forall_inv HQ) as Hb. apply Forall_inv_tail in HQ.
    pose proof (Forall_inv Hhd) as Hab. apply Forall_inv_tail in Hhd.
    constructor; [by eapply HT|by apply IH].
Qed.

Lemma StronglySorted_NoDup {A} (l : list A) :
  StronglySorted (λ p q, p ≠ q) l → NoDup l.
Proof.
  induction 1 as [|p l _ IH Hhd]; constructor; [|done].
  intros Hin. rewrite Forall_lookup in Hhd.
  apply list_elem_of_lookup in Hin as (i & Hi). by eapply Hhd.
Qed.

Lemma save_path_inj base e1 k1 e2 k2 p :
  0 ≤ k1 ≤ INT_MAX → 0 ≤ k2 ≤ INT_MAX →
  save_path base (e1, k1) = Some p → save_path base (e2, k2) = Some p → k1 = k2.
Proof.
  unfold save_path. simpl. intros Hk1 Hk2 H1 H2.
  destruct (frame_name (utc e1) (msPart e1) k1) as [n1|] eqn:E1; [|done].
  destruct (frame_name (utc e2) (msPart e2) k2) as [n2|] eqn:E2; [|done].
  simpl in H1, H2. injection H1 as <-. injection H2 as H2.
  apply (inj (String.app base)), (inj (String.app "/")) in H2 as ->.
  eapply frame_name_inj; eauto.
Qed.

Lemma save_path_lt base e1 k1 e2 k2 p q :
  stamp_in_format e1 → stamp_in_format e2 →
  0 ≤ k1 < 100000 → 0 ≤ k2 < 100000 →
  save_path base (e1, k1) = Some p → save_path base (e2, k2) = Some q →
  stamp_le e1 e2 → k1 < k2 → name_lt p q.
Proof.
  unfold save_path, name_lt, stamp_le. simpl. intros Hf1 Hf2 Hk1 Hk2 H1 H2 Hle Hlt.
  destruct (frame_name (utc e1) (msPart e1) k1) as [n1|] eqn:E1; [|done].
  destruct (frame_name (utc e2) (msPart e2) k2) as [n2|] eqn:E2; [|done].
  simpl in H1, H2. injection H1 as <-. injection H2 as <-.
  rewrite !compare_prefix.
  rewrite (frame_name_compare _ _ _ _ _ _ Hf1 Hf2 Hk1 Hk2 E1 E2).
  apply Z.compare_lt_iff in Hlt. rewrite Hlt.
  by destruct (stamp_compare e1 e2).
Qed.

(** C5 (amended): within one session, every saved file is named after the
    wall-clock reading of its tick and the sequence number that the saver
    had reached; a file saved later has a strictly greater sequence number,
    and no two names are equal, whatever the clock reads. The names sort in
    the order of saving when, in addition, the wall clock never steps back
    between the ticks of the session, every reading fills exactly the widths
    of the format, and the sequence numbers stay below 100000. *)
Theorem file_names_increase base evs s0 alive s' effs :
  run_events base true evs (session_start s0) = Some (alive, s', effs) →
  ∃ saves : list (TickEnv * Z),
    Forall2 (λ p sv, save_path base sv = Some p) (saved_names effs) saves
    ∧ Forall (λ sv, sv.1 ∈ ticks evs ∧ 0 ≤ sv.2 < saveIdx s') saves
    ∧ StronglySorted (λ a b, a.2 < b.2) saves
    ∧ NoDup (saved_names effs)
    ∧ (Forall stamp_in_format (ticks evs) →
       StronglySorted stamp_le (ticks evs) →
       saveIdx s' ≤ 100000 →
       StronglySorted name_lt (saved_names effs)).
Proof.
  intros Hr.
  assert (Htriv : StronglySorted (λ _ _ : TickEnv, True) (ticks evs)).
  { induction (ticks evs); constructor; [done|]. by apply Forall_forall. }
  destruct (run_events_saves _ _ _ _ _ _ _ _ Hr Htriv)
    as (saves & Hn & Hall & Hsorted & _).
  change (saveIdx (session_start s0)) with 0 in Hall.
  exists saves. split; [done|]. split.
  { eapply Forall_weaken; [|exact Hall]. simpl. intros sv (? & ? & _). done. }
  split.
  { clear -Hsorted. induction Hsorted as [|sv l _ IH Hhd]; constructor; [done|].
    eapply Forall_weaken; [|exact Hhd]. simpl. by intros ? (? & _). }
  split.
  { apply StronglySorted_NoDup.
    eapply (Forall2_StronglySorted _ (λ sv, 0 ≤ sv.2 ≤ INT_MAX)); [|exact Hn| |exact Hsorted].
    - intros p q [e1 k1] [e2 k2] Hp Hq Hk1 Hk2 (Hlt & _) ->. cbn [fst snd] in *.
      pose proof (save_path_inj _ _ _ _ _ _ Hk1 Hk2 Hp Hq). lia.
    - eapply Forall_weaken; [|exact Hall]. simpl. intros sv (_ & ? & ?). lia. }
  intros Hfmt Hmono Hmax. clear saves Hn Hall Hsorted.
  destruct (run_events_saves _ _ _ _ _ _ _ _ Hr Hmono)
    as (saves & Hn & Hall & Hsorted & _).
  change (saveIdx (session_start s0)) with 0 in Hall.
  eapply (Forall2_StronglySorted _ (λ sv, stamp_in_format sv.1 ∧ 0 ≤ sv.2 < 100000));
    [|exact Hn| |exact Hsorted].
  - intros p q [e1 k1] [e2 k2] Hp Hq (Hf1 & Hk1) (Hf2 & Hk2) (Hlt & Hle).
    cbn [fst snd] in *.
    exact (save_path_lt _ _ _ _ _ _ _ Hf1 Hf2 Hk1 Hk2 Hp Hq Hle Hlt).
  - rewrite Forall_lookup in Hfmt.
    eapply Forall_weaken; [|exact Hall]. simpl. intros sv (Hin & ? & _).
    split; [|lia]. apply list_elem_of_lookup in Hin as (i & Hi). by eapply Hfmt.
Qed.

Lemma file_names_increase_witness :
  ∃ alive s' effs,
    run_events "frames" true [EvFrame a_frame; EvTick (tick_early 1000);
                              EvTick (tick_late 2000)]
      (session_start (initial_state "base")) = Some (alive, s', effs)
    ∧ ∃ saves : list (TickEnv * Z),
        Forall2 (λ p sv, save_path "frames" sv = Some p) (saved_names effs) saves
        ∧ Forall (λ sv, sv.1 ∈ ticks [EvFrame a_frame; EvTick (tick_early 1000);
                                       EvTick (tick_late 2000)]
                        ∧ 0 ≤ sv.2 < saveIdx s') saves
        ∧ StronglySorted (λ a b, a.2 < b.2) saves
        ∧ NoDup (saved_names effs)
        ∧ (Forall stamp_in_format (ticks [EvFrame a_frame; EvTick (tick_early 1000);
                                          EvTick (tick_late 2000)]) →
           StronglySorted stamp_le (ticks [EvFrame a_frame; EvTick (tick_early 1000);
                                           EvTick (tick_late 2000)]) →
           saveIdx s' ≤ 100000 →
           StronglySorted name_lt (saved_names effs)).
Proof.
  eexists _, _, _. split; [vm_compute; reflexivity|].
  eapply (file_names_increase "frames" _ (initial_state "base")).
  vm_compute. reflexivity.
Defined.

(** C5 as the specification states it does not hold: when the wall clock is
    set back between two ticks, the file saved second has the smaller
    name. *)
Lemma file_names_order_counterexample :
  ∃ alive s' effs p q,
    run_events "frames" true [EvFrame a_frame; EvTick (tick_late 1000);
                              EvTick (tick_early 2000)]
      (session_start (initial_state "base")) = Some (alive, s', effs)
    ∧ saved_names effs = [p; q]
    ∧ name_lt q p.
Proof.
  eexists _, _, _, _, _. split; [vm_compute; reflexivity|].
  split; vm_compute; reflexivity.
Qed.

(** ** Instances of the theorems *)

Lemma bmp_write_layout_witness :
  ∃ out,
    (0 < 3 ∧ 0 < 2 ∧ Z.of_nat (length (map Z.of_nat (seq 1 24))) = 4 * 3 * 2
     ∧ BmpWriter.write true (map Z.of_nat (seq 1 24)) 3 2 = Some (Some out))
    ∧ (let pad := (4 - (3 * 3) mod 4) mod 4 in
       let line := 3 * 3 + pad in
       Z.of_nat (length out) = 54 + line * 2
       ∧ get32 out 2 = 54 + line * 2
       ∧ (∀ y x k, 0 ≤ y < 2 → 0 ≤ x < 3 → 0 ≤ k < 3 →
            out !! Z.to_nat (54 + y * line + 3 * x + k)
            = map Z.of_nat (seq 1 24) !! Z.to_nat (4 * (y * 3 + x) + k))
       ∧ (∀ y j, 0 ≤ y < 2 → 0 ≤ j < pad →
            out !! Z.to_nat (54 + y * line + 3 * 3 + j) = Some 0)
       ∧ get16 out 28 = 24
       ∧ get32 out 30 = BmpWriter.BI_RGB
       ∧ get32s out 22 = - 2).
Proof.
  eexists. split.
  - split; [lia|]. split; [lia|]. split; [reflexivity|]. vm_compute. reflexivity.
  - apply (bmp_write_layout true (map Z.of_nat (seq 1 24)) 3 2);
      [lia | lia | reflexivity | vm_compute; reflexivity].
Defined.

Lemma update_spec_witness :
  shared_consistent (initial_state "base")
  ∧ (let s := initial_state "base" in
     let need := SharedFrame.tex (shared s) = None
                 ∨ SharedFrame.w (shared s) ≠ Width a_texture
                 ∨ SharedFrame.h (shared s) ≠ Height a_texture in
     ∃ s' effs,
       update true a_texture s = Some (tt, s', effs)
       ∧ ((∃ b, GpuCreateTexture USAGE_DEFAULT b ∈ effs) ↔ need)
       ∧ (need → true = false →
            shared s' = shared s ∧ gpu s' = gpu s
            ∧ ∀ d, GpuCopyResource d ∉ effs)
       ∧ (¬ (need ∧ true = false) →
            ∃ t T, SharedFrame.tex (shared s') = Some t
              ∧ gpu s' !! t = Some T
              ∧ pixels T = pixels a_texture
              ∧ Width T = Width a_texture ∧ Height T = Height a_texture
              ∧ SharedFrame.w (shared s') = Width a_texture
              ∧ SharedFrame.h (shared s') = Height a_texture
              ∧ GpuCopyResource t ∈ effs)).
Proof.
  split; [exact I|]. apply (update_spec true a_texture (initial_state "base")).
  exact I.
Defined.


Lemma shared_frame_invariant_witness :
  ∃ alive s' effs,
    (Forall event_wf [EvFrame a_frame; EvTick (tick_early 1000)]
     ∧ run_events "frames" true [EvFrame a_frame; EvTick (tick_early 1000)]
         (session_start (initial_state "base")) = Some (alive, s', effs))
    ∧ shared (session_start (initial_state "base")) = SharedFrame.mk None 0 0
    ∧ (is_Some (SharedFrame.tex (shared s'))
       ↔ GpuCreateTexture USAGE_DEFAULT true ∈ effs)
    ∧ (∀ evs2 b alive2 s2 effs2,
         is_Some (SharedFrame.tex (shared s')) →
         run_events "frames" b evs2 s' = Some (alive2, s2, effs2) →
         is_Some (SharedFrame.tex (shared s2)))
    ∧ match SharedFrame.tex (shared s') with
      | Some t =>
          snapshot (shared s')
          = Some (t, SharedFrame.w (shared s'), SharedFrame.h (shared s'))
          ∧ 0 < SharedFrame.w (shared s') ∧ 0 < SharedFrame.h (shared s')
          ∧ ∃ T, gpu s' !! t = Some T
                 ∧ Width T = SharedFrame.w (shared s')
                 ∧ Height T = SharedFrame.h (shared s')
      | None =>
          snapshot (shared s') = None
          ∧ SharedFrame.w (shared s') = 0 ∧ SharedFrame.h (shared s') = 0
      end.
Proof.
  assert (Hwf : Forall event_wf [EvFrame a_frame; EvTick (tick_early 1000)]).
  { constructor; [|constructor; [exact I|constructor]].
    intros T [= <-]. unfold texture_wf. simpl. lia. }
  eexists _, _, _. split.
  - split; [exact Hwf|]. vm_compute. reflexivity.
  - eapply (shared_frame_invariant "frames" _ (initial_state "base"));
      [exact Hwf | vm_compute; reflexivity].
Defined.

Lemma no_frames_no_files_witness :
  ∃ alive s' effs,
    (run_events "frames" true [EvTick (tick_early 1000); EvTick (tick_late 3000)]
       (session_start (initial_state "base")) = Some (alive, s', effs)
     ∧ Forall (λ n, n = 0)
         (counter_history "frames" true
            [EvTick (tick_early 1000); EvTick (tick_late 3000)]
            (session_start (initial_state "base"))))
    ∧ files s' = files (initial_state "base")
    ∧ List.filter is_frame_file_op effs = []
    ∧ List.filter is_stall_line effs
      = map (λ _, StderrLine capture_stalled_no_events)
            (List.filter (λ env, 2000 <? elapsed_ms env)
               (ticks [EvTick (tick_early 1000); EvTick (tick_late 3000)])).
Proof.
  assert (Hz : Forall (λ n, n = 0)
                 (counter_history "frames" true
                    [EvTick (tick_early 1000); EvTick (tick_late 3000)]
                    (session_start (initial_state "base")))).
  { vm_compute. repeat constructor. }
  eexists _, _, _. split.
  - split; [vm_compute; reflexivity|exact Hz].
  - eapply (no_frames_no_files "frames" _ (initial_state "base"));
      [vm_compute; reflexivity | exact Hz].
Defined.

Lemma teardown_order_witness :
  ∃ o s' effs,
    (main_iteration (a_lifecycle true 2) (initial_state "base") = Some (o, s', effs)
     ∧ OpenProcess true ∈ effs)
    ∧ List.filter is_teardown_op effs
      = [CloseHandle; AtomicStore a_running false; RevokeFrameArrived;
         SessionClose; FramePoolClose; AtomicStore a_saverRun false; ThreadJoin]
    ∧ o = Continue ∧ running s' = false ∧ saverRun s' = false.
Proof.
  assert (H : ∃ o s' effs,
             main_iteration (a_lifecycle true 2) (initial_state "base")
             = Some (o, s', effs)
             ∧ OpenProcess true ∈ effs).
  { eexists _, _, _. split; [vm_compute; reflexivity|]. repeat constructor. }
  destruct H as (o & s' & effs & Hr & Hin).
  exists o, s', effs. split; [done|].
  exact (teardown_order _ _ _ _ _ Hr Hin).
Defined.

Lemma open_failure_terminates_witness :
  ∃ o s' effs,
    (main_iteration (a_lifecycle false 2) (initial_state "base") = Some (o, s', effs)
     ∧ OpenProcess false ∈ effs)
    ∧ o = Terminated
    ∧ Terminate ∈ effs
    ∧ (ThreadJoin ∉ effs)
    ∧ (AtomicStore a_saverRun false ∉ effs)
    ∧ (AtomicStore a_running false ∉ effs)
    ∧ running s' = true ∧ saverRun s' = true.
Proof.
  assert (H : ∃ o s' effs,
             main_iteration (a_lifecycle false 2) (initial_state "base")
             = Some (o, s', effs)
             ∧ OpenProcess false ∈ effs).
  { eexists _, _, _. split; [vm_compute; reflexivity|]. repeat constructor. }
  destruct H as (o & s' & effs & Hr & Hin).
  exists o, s', effs. split; [done|].
  exact (open_failure_terminates _ _ _ _ _ Hr Hin).
Defined.

Lemma latest_frame_saved_witness :
  let path := "frames" +:+ "/" +:+ "2024-05-01T12-00-04.500Z_00000.bmp" in
  ∃ out s1 e1 s' e2,
    run_events "frames" true (map EvFrame ([an_earlier_frame] ++ [a_frame]))
      (session_start (initial_state "base"))
    = Some (true, s1, e1)
    ∧ (∃ t, snapshot (shared s1) = Some (t, Width a_texture, Height a_texture)
            ∧ pixels <$> gpu s1 !! t = Some (pixels a_texture))
    ∧ run_events "frames" true [EvTick (tick_early 1000)] s1 = Some (true, s', e2)
    ∧ run_events "frames" true
        (map EvFrame ([an_earlier_frame] ++ [a_frame]) ++ [EvTick (tick_early 1000)])
        (session_start (initial_state "base"))
      = Some (true, s', e1 ++ e2)
    ∧ BmpWriter.write true (pixels a_texture) (Width a_texture) (Height a_texture)
      = Some (Some out)
    ∧ files s' = <[path := on_disk (save_env (tick_early 1000)) out]>
                   (delete (pending path) (files (initial_state "base")))
    ∧ (short_write (save_env (tick_early 1000)) = None →
       files s' = <[path := out]>
                    (delete (pending path) (files (initial_state "base"))))
    ∧ List.filter is_frame_file_op (e1 ++ e2)
      = [FsWriteFile (pending path) true; FsRename (pending path) path true].
Proof.
  apply (latest_frame_saved "frames" (initial_state "base") [an_earlier_frame]
           a_frame a_texture (tick_early 1000) 4
           "2024-05-01T12-00-04.500Z_00000.bmp").
  - constructor; [|constructor].
    exists (mkTexture 1 1 [1; 2; 3; 255]). by repeat split.
  - by repeat split.
  - unfold texture_wf. simpl. lia.
  - vm_compute. discriminate.
  - reflexivity.
  - reflexivity.
  - simpl. lia.
  - simpl. lia.
  - reflexivity.
  - reflexivity.
  - vm_compute. reflexivity.
Defined.

(** * Further properties of the code *)

(** ** [BmpWriter::write] *)

(** For every image of a positive size whose [4 * w * h] bytes an [int] can
    count, [BmpWriter::write] stays within defined behaviour (no signed
    overflow, no read outside the buffer) and returns [true] exactly when
    the file could be opened. *)
Theorem bmp_write_returns (ok : bool) (bgra : list Z) (w h : Z) :
  0 < w → 0 < h → 4 * w * h ≤ INT_MAX →
  Z.of_nat (length bgra) = 4 * w * h →
  ∃ r, BmpWriter.write ok bgra w h = Some r ∧ (is_Some r ↔ ok = true).
Proof.
  intros Hw Hh Hmax Hlen.
  destruct (write_defined bgra w h Hw Hh Hmax Hlen) as [out Ho].
  destruct ok.
  { exists (Some out). split; [done|]. split; [done|]. intros _. by exists out. }
  exists None. split; [|split; [by intros [? [=]]|done]].
  unfold BmpWriter.write in *.
  destruct (int_neg h); [|done]. cbn [mbind option_bind] in *.
  destruct (int_mul w 3); [|done]. cbn [mbind option_bind] in *.
  destruct (int_add _ _); [|done]. cbn [mbind option_bind] in *.
  destruct (int_mul _ h); [|done]. reflexivity.
Qed.

Lemma bmp_write_returns_witness :
  ∃ r, BmpWriter.write false [10; 20; 30; 255] 1 1 = Some r
       ∧ (is_Some r ↔ false = true).
Proof.
  apply (bmp_write_returns false [10; 20; 30; 255] 1 1);
    [lia | lia | vm_compute; discriminate | reflexivity].
Defined.

Lemma rd_ext (b1 b2 : list Z) (i : Z) :
  (∀ n : nat, (n mod 4 ≠ 3)%nat → b1 !! n = b2 !! n) →
  i mod 4 ≠ 3 → rd b1 i = rd b2 i.
Proof.
  intros Hb Hi. unfold rd. destruct (Z.ltb_spec i 0); [done|].
  apply Hb. intros Hn. apply Hi.
  rewrite <- (Z2Nat.id i) by lia.
  change 4 with (Z.of_nat 4). rewrite <- Nat2Z.inj_mod, Hn. done.
Qed.

(** The alpha bytes of the input play no part: two buffers that agree on
    their B, G and R bytes give the same result. *)
Theorem bmp_write_ignores_alpha (ok : bool) (b1 b2 : list Z) (w h : Z) :
  (∀ n : nat, (n mod 4 ≠ 3)%nat → b1 !! n = b2 !! n) →
  BmpWriter.write ok b1 w h = BmpWriter.write ok b2 w h.
Proof.
  intros Hb. unfold BmpWriter.write.
  destruct (int_neg h); [|done]. cbn [mbind option_bind].
  destruct (int_mul w 3); [|done]. cbn [mbind option_bind].
  destruct (int_add _ _) as [sp|]; [|done]. cbn [mbind option_bind].
  destruct (int_mul sp h); [|done]. cbn [mbind option_bind].
  destruct (negb ok); [done|]. destruct (sp <? 0); [done|].
  erewrite mapM_ext; [reflexivity|].
  intros y. unfold BmpWriter.row.
  destruct (int_mul y w) as [yw|]; [|done]. cbn [mbind option_bind].
  destruct (int_mul yw 4) as [src|] eqn:Es; [|done]. cbn [mbind option_bind].
  apply int_mul_Some in Es as [-> _].
  erewrite mapM_ext; [reflexivity|].
  intros x. unfold BmpWriter.pixel.
  destruct (int_mul x 4) as [x4|] eqn:Ex; [|done]. cbn [mbind option_bind].
  apply int_mul_Some in Ex as [-> _].
  assert (Hk : ∀ k, 0 ≤ k < 3 → (yw * 4 + (x * 4 + k)) mod 4 ≠ 3).
  { intros k Hk. replace (yw * 4 + (x * 4 + k)) with (k + (yw + x) * 4) by ring.
    rewrite Z_mod_plus_full, Z.mod_small; lia. }
  rewrite !(rd_ext b1 b2) by (try done; apply Hk; lia). done.
Qed.

Lemma bmp_write_ignores_alpha_witness :
  BmpWriter.write true [10; 20; 30; 255] 1 1
  = BmpWriter.write true [10; 20; 30; 0] 1 1.
Proof.
  apply (bmp_write_ignores_alpha true [10; 20; 30; 255] [10; 20; 30; 0] 1 1).
  intros [|[|[|[|n]]]] Hn; try reflexivity. by destruct Hn.
Defined.

(** The fixed part of the two headers: the file starts with the letters
    [BM]; the reserved fields are zero; the pixel data start at offset 54,
    right after the two headers; the info header gives its own size, 40,
    the width [w] and a single plane. *)
Theorem bmp_write_header (ok : bool) (bgra : list Z) (w h : Z) (out : list Z) :
  0 < w → 0 < h →
  BmpWriter.write ok bgra w h = Some (Some out) →
  take 2 out = [66; 77]
  ∧ get16 out 6 = 0 ∧ get16 out 8 = 0
  ∧ get32 out 10 = 54
  ∧ get32 out 14 = 40
  ∧ get32 out 18 = w
  ∧ get16 out 26 = 1.
Proof.
  intros Hw Hh Hwr.
  destruct (write_Some _ _ _ _ _ Hw Hh Hwr) as (rows & -> & Hsz & -> & _).
  unfold INT_MAX in Hsz.
  assert (Hwb : 0 ≤ w < 2 ^ 32).
  { assert (0 ≤ (4 - (3 * w) mod 4) mod 4) by (apply Z.mod_pos_bound; lia). nia. }
  repeat split.
  - unfold get32.
    cbn [drop app BmpWriter.fh_bytes BmpWriter.ih_bytes le16 le32 BmpWriter.biWidth].
    rewrite le32_value. apply Z.mod_small. done.
Qed.

Lemma bmp_write_header_witness :
  ∃ out,
    BmpWriter.write true (map Z.of_nat (seq 1 24)) 3 2 = Some (Some out)
    ∧ take 2 out = [66; 77]
    ∧ get16 out 6 = 0 ∧ get16 out 8 = 0
    ∧ get32 out 10 = 54
    ∧ get32 out 14 = 40
    ∧ get32 out 18 = 3
    ∧ get16 out 26 = 1.
Proof.
  eexists. split; [vm_compute; reflexivity|].
  apply (bmp_write_header true (map Z.of_nat (seq 1 24)) 3 2);
    [lia | lia | vm_compute; reflexivity].
Defined.

(** Every line of the file takes the same number of bytes, the least
    multiple of four that holds the [3 * w] bytes of its pixels. *)
Theorem bmp_write_lines_aligned (ok : bool) (bgra : list Z) (w h : Z) (out : list Z) :
  0 < w → 0 < h →
  BmpWriter.write ok bgra w h = Some (Some out) →
  ∃ line, Z.of_nat (length out) = 54 + line * h
          ∧ line mod 4 = 0 ∧ 3 * w ≤ line < 3 * w + 4.
Proof.
  intros Hw Hh Hwr.
  destruct (write_Some _ _ _ _ _ Hw Hh Hwr) as (rows & -> & Hsz & -> & Hrows).
  set (pad := (4 - (3 * w) mod 4) mod 4) in *.
  assert (Hpad : 0 ≤ pad < 4) by (apply Z.mod_pos_bound; lia).
  exists (3 * w + pad). split; [|split; [|lia]].
  - assert (Hrl : length rows = Z.to_nat h).
    { apply Forall2_length in Hrows as <-. by rewrite length_seqZ. }
    assert (Hall : Forall (λ r : list Z, length r = Z.to_nat (3 * w + pad)) rows).
    { apply Forall_lookup. intros i r Hi.
      edestruct @Forall2_lookup_r as (y & _ & Hy); [exact Hrows|exact Hi|].
      apply row_Some in Hy as (_ & Hl & _); lia. }
    rewrite app_assoc, length_app, header_length.
    rewrite (concat_length_uniform _ _ Hall), Hrl.
    rewrite Nat2Z.inj_add, Nat2Z.inj_mul, !Z2Nat.id by lia.
    change (Z.of_nat 54) with 54. ring.
  - unfold pad. rewrite Z.add_mod_idemp_r by lia.
    replace (3 * w + (4 - (3 * w) mod 4)) with (3 * w - (3 * w) mod 4 + 1 * 4) by ring.
    rewrite Z_mod_plus_full, Zminus_mod_idemp_r, Z.sub_diag. done.
Qed.

Lemma bmp_write_lines_aligned_witness :
  ∃ out,
    BmpWriter.write true (map Z.of_nat (seq 1 24)) 3 2 = Some (Some out)
    ∧ ∃ line, Z.of_nat (length out) = 54 + line * 2
              ∧ line mod 4 = 0 ∧ 3 * 3 ≤ line < 3 * 3 + 4.
Proof.
  eexists. split; [vm_compute; reflexivity|].
  apply (bmp_write_lines_aligned true (map Z.of_nat (seq 1 24)) 3 2);
    [lia | lia | vm_compute; reflexivity].
Defined.

(** ** [save_staging_to_file] *)

Lemma mapM_logf_lines msgs : ∀ s a s' e,
  mapM logf msgs s = Some (a, s', e) → log_lines e = msgs.
Proof.
  induction msgs as [|m msgs IH]; intros s a s' e Hr.
  - apply ret_Some in Hr as (_ & _ & ->). done.
  - simpl in Hr.
    apply bind_Some in Hr as (? & s1 & e1 & e2 & H1 & Hr & ->).
    apply bind_Some in Hr as (? & s2 & e3 & e4 & H2 & (_ & _ & ->)%ret_Some & ->).
    rewrite logf_run in H1. injection H1 as _ <- <-.
    rewrite !log_lines_app, log_lines_log_effects, (IH _ _ _ _ H2).
    simpl. by rewrite app_nil_r.
Qed.

Lemma probe_msgs bgra W H msgs :
  probe bgra W H = Some msgs → Forall (λ m, is_probe_msg m = true) msgs.
Proof.
  unfold probe. destruct (_ && _); [|by intros [= <-]].
  intros Hp.
  repeat match type of Hp with
  | (?o ≫= _) = Some _ => destruct o as [?|]; cbn [mbind option_bind] in Hp; [|done]
  end.
  repeat case_match; injection Hp as <-; repeat constructor.
Qed.

(** The lines of the probe block: none once the probe has been logged. *)
Lemma log_probe_lines bgra W H s a s' e :
  log_probe bgra W H s = Some (a, s', e) →
  loggedProbe s' = true
  ∧ Forall (λ m, is_probe_msg m = true) (log_lines e)
  ∧ (loggedProbe s = true → e = [])
  ∧ (loggedProbe s = false → probe bgra W H = Some (log_lines e)).
Proof.
  unfold log_probe. intros Hr.
  apply bind_Some in Hr as (s0 & s1 & e1 & e2 & (-> & -> & ->)%get_Some & Hr & ->).
  destruct (loggedProbe s) eqn:El.
  - apply skip_Some in Hr as (-> & ->). repeat split; try done; constructor.
  - apply bind_Some in Hr as (msgs & s1 & e1 & e3 & (Hp & -> & ->)%lift_Some & Hr & ->).
    apply bind_Some in Hr as (u & s2 & e4 & e5 & Hm & (-> & ->)%modify_Some & ->).
    apply mapM_logf_lines in Hm.
    rewrite !app_nil_l, app_nil_r, Hm.
    split; [done|]. split; [by eapply probe_msgs|]. done.
Qed.

Lemma write_and_rename_lines env bgra W H outPath s s' effs :
  write_and_rename env bgra W H outPath s = Some (tt, s', effs) →
  loggedProbe s' = true
  ∧ ∃ msgs, Forall (λ m, is_probe_msg m = true) msgs
      ∧ (loggedProbe s = true → msgs = [])
      ∧ log_lines effs = msgs ++ (if fopen_ok env then [frame_written] else []).
Proof.
  unfold write_and_rename. intros Hr.
  apply bind_Some in Hr as (? & s1 & e1 & e2 & Hp & Hr & ->).
  apply log_probe_lines in Hp as (Hl1 & Hmsgs & Hnone & _).
  apply bind_Some in Hr as (r & ? & ? & e3 & (Hw & -> & ->)%lift_Some & Hr & ->).
  apply write_result_ok in Hw.
  apply bind_Some in Hr as (? & ? & ? & e4 & (-> & ->)%emit_Some & Hr & ->).
  destruct r as [bytes|]; simpl in Hw; rewrite <- Hw.
  - step_inv;
      (split; [unfold rename_file; simpl; repeat case_match; done|]);
      exists (log_lines e1); (split; [done|]); (split; [by intros ->%Hnone|]);
      repeat progress (rewrite ?log_lines_app, ?log_lines_log_effects; simpl);
      by rewrite ?app_nil_r.
  - apply skip_Some in Hr as (-> & ->).
    split; [done|]. exists (log_lines e1). split; [done|].
    split; [by intros ->%Hnone|]. by rewrite !log_lines_app, !app_nil_r.
Qed.

Lemma save_staging_lines env src outPath s s' effs :
  save_staging_to_file env src outPath s = Some (tt, s', effs) →
  ∃ msgs, Forall (λ m, is_probe_msg m = true) msgs
    ∧ (loggedProbe s = true → msgs = [])
    ∧ log_lines effs
      = (if staging_ok env && bool_decide (is_Some (map_pitch env))
         then msgs ++ (if fopen_ok env then [frame_written] else [])
         else [])
    ∧ loggedProbe s'
      = (staging_ok env && bool_decide (is_Some (map_pitch env))) || loggedProbe s.
Proof.
  intros Hr. unfold save_staging_to_file in Hr.
  destruct (staging_ok env), (map_pitch env) as [p|]; step_inv;
    try (exists []; repeat split; try done; unfold copy_texture, alloc_texture;
         simpl; repeat case_match; done).
  match goal with
  | Hw : write_and_rename _ _ _ _ _ _ = Some _ |- _ =>
      apply write_and_rename_lines in Hw as (Hl & msgs & Hm & Hnone & Hlines)
  end.
  exists msgs. split; [done|]. split.
  - intros Hs. apply Hnone. revert Hs.
    unfold copy_texture, alloc_texture; simpl; repeat case_match; done.
  - done.
Qed.

Lemma pending_ne (p : string) : pending p ≠ p.
Proof.
  unfold pending. intros H. apply (f_equal String.length) in H.
  rewrite string_app_length in H. simpl in H. lia.
Qed.

(** The files after a save whose pending file was written. *)
Lemma write_and_rename_outcome env bgra W H outPath s out :
  fopen_ok env = true →
  is_Some (probe bgra W H) →
  BmpWriter.write true bgra (int_of_uint W) (int_of_uint H) = Some (Some out) →
  ∃ s' effs,
    write_and_rename env bgra W H outPath s = Some (tt, s', effs)
    ∧ files s' =
        let f1 := <[pending outPath := on_disk env out]> (files s) in
        if rename1_ok env
        then <[outPath := on_disk env out]> (delete (pending outPath) f1)
        else
          let f2 := if remove_ok env then delete outPath f1 else f1 in
          if rename2_ok env
          then <[outPath := on_disk env out]> (delete (pending outPath) f2)
          else f2.
Proof.
  intros Hf Hp Hw.
  destruct (log_probe_run bgra W H s Hp) as (s1 & e1 & Hrun).
  pose proof Hrun as (_ & (_ & Hfiles & _))%log_probe_Some.
  pose proof (pending_ne outPath) as Hne.
  unfold write_and_rename. rewrite Hf, Hw.
  erewrite bind_run by exact Hrun.
  erewrite bind_run by reflexivity.
  erewrite bind_run by reflexivity.
  erewrite bind_run by reflexivity.
  erewrite bind_run by apply fs_rename_run.
  destruct (rename1_ok env).
  - erewrite bind_run by reflexivity.
    rewrite log_line_run.
    eexists _, _. split; [reflexivity|].
    unfold rename_file. simpl. rewrite lookup_insert_eq. simpl.
    by rewrite Hfiles.
  - erewrite (bind_run (fs_remove _ _ ≫= _)).
    2:{ erewrite bind_run by apply fs_remove_run.
        erewrite bind_run by apply fs_rename_run. reflexivity. }
    rewrite log_line_run.
    eexists _, _. split; [reflexivity|].
    destruct (rename2_ok env), (remove_ok env); unfold rename_file; simpl;
      rewrite ?lookup_delete_ne, ?lookup_insert_eq by done; simpl;
      by rewrite Hfiles.
Qed.

(** A save that reaches the writer, as far as the writer. *)
Lemma save_reaches_writer env src outPath s T p :
  gpu s !! src = Some T → texture_wf T →
  4 * Width T * Height T ≤ INT_MAX →
  staging_ok env = true → map_pitch env = Some p →
  4 * Width T ≤ p → p * Height T < 2 ^ 32 →
  ∃ s1, files s1 = files s ∧ loggedProbe s1 = loggedProbe s
    ∧ ∀ s' effs,
        write_and_rename env (pixels T) (Width T) (Height T) outPath s1
        = Some (tt, s', effs) →
        save_staging_to_file env src outPath s
        = Some (tt, s', [GpuCreateTexture USAGE_STAGING true;
                         GpuCopyResource (next_handle s); GpuMap true; GpuUnmap]
                        ++ effs).
Proof.
  intros HT Hwf Hmax Hst Hmap Hp1 Hp2.
  pose proof Hwf as (HW & HH & Hlen). unfold INT_MAX in Hmax.
  set (stg := mkTexture (Width T) (Height T) (pixels T)).
  assert (Hstg : texture_wf stg) by done.
  pose proof (download_ok stg p Hstg ltac:(simpl; lia) Hp1 Hp2) as Hd. simpl in Hd.
  set (s1 := copy_texture (next_handle s) T (alloc_texture (Width T) (Height T) s)).
  assert (Hs1 : gpu s1 !! next_handle s = Some stg).
  { unfold s1, copy_texture, alloc_texture. simpl.
    rewrite lookup_insert_eq. simpl. rewrite !Z.eqb_refl. simpl.
    by rewrite lookup_insert_eq. }
  exists s1. split; [|split].
  { unfold s1, copy_texture, alloc_texture. simpl.
    rewrite lookup_insert_eq. simpl. by rewrite !Z.eqb_refl. }
  { unfold s1, copy_texture, alloc_texture. simpl.
    rewrite lookup_insert_eq. simpl. by rewrite !Z.eqb_refl. }
  intros s' effs Hrun.
  unfold save_staging_to_file.
  erewrite bind_run by reflexivity.
  erewrite bind_run by (unfold lift; rewrite HT; reflexivity).
  erewrite bind_run by apply CreateTexture2D_run.
  rewrite Hst.
  erewrite bind_run by apply CopyResource_run. fold s1.
  erewrite bind_run by reflexivity.
  rewrite Hmap.
  erewrite bind_run by reflexivity.
  erewrite bind_run by (unfold lift; rewrite Hs1; reflexivity).
  erewrite bind_run by (unfold lift; rewrite Hd; reflexivity).
  erewrite bind_run by reflexivity.
  rewrite Hrun. reflexivity.
Qed.

(** What a save leaves on disk once the pending file has been written: when
    one of the two renames succeeds, the final path holds the new bitmap and
    no pending file is left; when both fail, the bitmap stays under the
    pending name, and the previous file of the final path is gone if its
    removal succeeded.  No other file is touched.  The bitmap is there as
    far as the writes to the pending file went, which the save does not
    check: all of it when they went through. *)
Theorem save_outcome env src outPath s T p :
  gpu s !! src = Some T → texture_wf T →
  4 * Width T * Height T ≤ INT_MAX →
  staging_ok env = true → map_pitch env = Some p →
  4 * Width T ≤ p → p * Height T < 2 ^ 32 →
  fopen_ok env = true →
  ∃ out s' effs,
    BmpWriter.write true (pixels T) (Width T) (Height T) = Some (Some out)
    ∧ save_staging_to_file env src outPath s = Some (tt, s', effs)
    ∧ (short_write env = None → on_disk env out = out)
    ∧ (if rename1_ok env || rename2_ok env
       then files s' !! outPath = Some (on_disk env out)
            ∧ files s' !! pending outPath = None
       else files s' !! pending outPath = Some (on_disk env out)
            ∧ files s' !! outPath
              = if remove_ok env then None else files s !! outPath)
    ∧ (∀ q, q ≠ outPath → q ≠ pending outPath → files s' !! q = files s !! q).
Proof.
  intros HT Hwf Hmax Hst Hmap Hp1 Hp2 Hf.
  pose proof Hwf as (HW & HH & Hlen).
  destruct (write_defined (pixels T) (Width T) (Height T) HW HH Hmax Hlen) as [out Hout].
  destruct (save_reaches_writer env src outPath s T p HT Hwf Hmax Hst Hmap Hp1 Hp2)
    as (s1 & Hfs1 & _ & Hsave).
  unfold INT_MAX in Hmax.
  destruct (write_and_rename_outcome env (pixels T) (Width T) (Height T) outPath s1 out)
    as (s' & effs & Hrun & Hfs); [done| |..].
  { by apply probe_defined. }
  { rewrite !int_of_uint_small by nia. done. }
  exists out, s'. eexists. split; [done|]. split; [by apply Hsave|].
  split; [by unfold on_disk; intros ->|].
  rewrite Hfs, Hfs1. clear Hfs Hsave Hrun.
  pose proof (pending_ne outPath) as Hne.
  cbv zeta.
  destruct (rename1_ok env), (rename2_ok env), (remove_ok env); simpl;
    (split; [split|]);
    try (intros q Hq1 Hq2);
    rewrite ?lookup_insert_eq, ?lookup_insert_ne, ?lookup_delete_eq,
      ?lookup_delete_ne, ?lookup_insert_eq, ?lookup_insert_ne by done;
    done.
Qed.

Lemma save_outcome_witness :
  ∃ out s' effs,
    BmpWriter.write true (pixels a_texture) (Width a_texture) (Height a_texture)
    = Some (Some out)
    ∧ save_staging_to_file save_ok 0%nat "frames/a.bmp" a_state = Some (tt, s', effs)
    ∧ (short_write save_ok = None → on_disk save_ok out = out)
    ∧ (if rename1_ok save_ok || rename2_ok save_ok
       then files s' !! "frames/a.bmp" = Some (on_disk save_ok out)
            ∧ files s' !! pending "frames/a.bmp" = None
       else files s' !! pending "frames/a.bmp" = Some (on_disk save_ok out)
            ∧ files s' !! "frames/a.bmp"
              = if remove_ok save_ok then None else files a_state !! "frames/a.bmp")
    ∧ (∀ q, q ≠ "frames/a.bmp" → q ≠ pending "frames/a.bmp" →
         files s' !! q = files a_state !! q).
Proof.
  apply (save_outcome save_ok 0%nat "frames/a.bmp" a_state a_texture 4).
  - reflexivity.
  - unfold texture_wf. simpl. lia.
  - vm_compute. discriminate.
  - reflexivity.
  - reflexivity.
  - simpl. lia.
  - simpl. lia.
  - reflexivity.
Defined.

(** When the staging texture cannot be created, or cannot be mapped, the
    save returns at once: no file is touched and no diagnostic line is
    written. *)
Theorem save_dropped_silently env src outPath s T :
  gpu s !! src = Some T →
  staging_ok env = false ∨ map_pitch env = None →
  ∃ s' effs,
    save_staging_to_file env src outPath s = Some (tt, s', effs)
    ∧ files s' = files s
    ∧ List.filter is_disk_io effs = []
    ∧ log_lines effs = [].
Proof.
  intros HT Hfail. unfold save_staging_to_file.
  erewrite bind_run by reflexivity.
  erewrite bind_run by (unfold lift; rewrite HT; reflexivity).
  erewrite bind_run by apply CreateTexture2D_run.
  destruct (staging_ok env) eqn:Est.
  - destruct Hfail as [?|Hmap]; [done|].
    erewrite bind_run by apply CopyResource_run.
    erewrite bind_run by reflexivity.
    rewrite Hmap. eexists _, _. split; [reflexivity|].
    unfold copy_texture, alloc_texture. simpl.
    rewrite lookup_insert_eq. simpl. rewrite !Z.eqb_refl. done.
  - eexists _, _. split; [reflexivity|]. done.
Qed.

Lemma save_dropped_silently_witness :
  ∃ s' effs,
    save_staging_to_file (mkSaveEnv true None true None true true true) 0%nat
      "frames/a.bmp" a_state = Some (tt, s', effs)
    ∧ files s' = files a_state
    ∧ List.filter is_disk_io effs = []
    ∧ log_lines effs = [].
Proof.
  apply (save_dropped_silently (mkSaveEnv true None true None true true true) 0%nat
           "frames/a.bmp" a_state a_texture).
  - reflexivity.
  - right. reflexivity.
Defined.

(** The probe lines are written by the first save of the process that maps
    its staging texture, and by no save after it: such a save sets the
    static flag, a save that finds it set logs no probe line and leaves it
    set. *)
Theorem probe_logged_once env src outPath s s' effs :
  save_staging_to_file env src outPath s = Some (tt, s', effs) →
  loggedProbe s'
  = (staging_ok env && bool_decide (is_Some (map_pitch env))) || loggedProbe s
  ∧ (loggedProbe s = true →
     Forall (λ m, is_probe_msg m = false) (log_lines effs)).
Proof.
  intros (msgs & Hm & Hnone & Hlines & Hflag)%save_staging_lines.
  split; [done|]. intros Hs. rewrite Hlines, (Hnone Hs).
  destruct (_ && _); [|constructor].
  destruct (fopen_ok env); repeat constructor.
Qed.

Lemma probe_logged_once_witness :
  ∃ s' effs,
    save_staging_to_file save_ok 0%nat "frames/a.bmp" a_state = Some (tt, s', effs)
    ∧ loggedProbe s'
      = (staging_ok save_ok && bool_decide (is_Some (map_pitch save_ok)))
        || loggedProbe a_state
    ∧ (loggedProbe a_state = true →
       Forall (λ m, is_probe_msg m = false) (log_lines effs)).
Proof.
  eexists _, _. split; [vm_compute; reflexivity|].
  eapply (probe_logged_once save_ok 0%nat "frames/a.bmp" a_state).
  vm_compute. reflexivity.
Defined.

(** [frame_written] is logged exactly when the pending file was written,
    whatever became of the renames. *)
Theorem frame_written_logged env src outPath s s' effs :
  save_staging_to_file env src outPath s = Some (tt, s', effs) →
  frame_written ∈ log_lines effs
  ↔ staging_ok env = true ∧ is_Some (map_pitch env) ∧ fopen_ok env = true.
Proof.
  intros (msgs & Hm & _ & Hlines & _)%save_staging_lines. rewrite Hlines.
  assert (Hno : frame_written ∉ msgs).
  { intros Hin. rewrite Forall_lookup in Hm.
    apply list_elem_of_lookup in Hin as (i & Hi). by specialize (Hm i _ Hi). }
  destruct (staging_ok env), (map_pitch env) as [p|], (fopen_ok env); simpl;
    rewrite ?app_nil_r, ?elem_of_app, ?elem_of_cons, ?elem_of_nil;
    split; try naive_solver.
  all: intros _; try (right; by left); repeat split; try done; by eexists.
Qed.

Lemma frame_written_logged_witness :
  ∃ s' effs,
    save_staging_to_file (mkSaveEnv true (Some 4) true None false false false) 0%nat
      "frames/a.bmp" a_state = Some (tt, s', effs)
    ∧ (frame_written ∈ log_lines effs
       ↔ true = true ∧ is_Some (Some 4) ∧ true = true).
Proof.
  eexists _, _. split; [vm_compute; reflexivity|].
  eapply (frame_written_logged (mkSaveEnv true (Some 4) true None false false false)
            0%nat "frames/a.bmp" a_state).
  vm_compute. reflexivity.
Defined.

(** A save changes nothing of the session: the shared frame buffer, the two
    flags, the frame counter and the sequence number are as before, and so
    is every texture that the device held. *)
Theorem save_keeps_session env src outPath s s' effs :
  save_staging_to_file env src outPath s = Some (tt, s', effs) →
  shared s' = shared s ∧ running s' = running s ∧ saverRun s' = saverRun s
  ∧ frameEvents s' = frameEvents s ∧ saveIdx s' = saveIdx s
  ∧ (∀ t T, gpu s !! t = Some T → (t < next_handle s)%nat → gpu s' !! t = Some T).
Proof.
  intros (? & ? & ? & ? & ? & _ & Hg)%save_staging_preserves.
  repeat split; try done. intros t T Ht Hlt. by rewrite Hg.
Qed.

Lemma save_keeps_session_witness :
  ∃ s' effs,
    save_staging_to_file save_ok 0%nat "frames/a.bmp" a_state = Some (tt, s', effs)
    ∧ shared s' = shared a_state ∧ running s' = running a_state
    ∧ saverRun s' = saverRun a_state
    ∧ frameEvents s' = frameEvents a_state ∧ saveIdx s' = saveIdx a_state
    ∧ (∀ t T, gpu a_state !! t = Some T → (t < next_handle a_state)%nat →
              gpu s' !! t = Some T).
Proof.
  eexists _, _. split; [vm_compute; reflexivity|].
  eapply (save_keeps_session save_ok 0%nat "frames/a.bmp" a_state).
  vm_compute. reflexivity.
Defined.

(** The copy out of the mapped staging texture drops the filling of the
    lines: whatever the row pitch, the buffer handed to the encoder is the
    content of the texture, [4 * Width] bytes a line. *)
Theorem download_strips_pitch (T : Texture) (pitch : Z) :
  texture_wf T →
  4 * Width T * Height T < 2 ^ 32 →
  4 * Width T ≤ pitch → pitch * Height T < 2 ^ 32 →
  download (mapped_image T pitch) pitch (Width T) (Height T) = Some (pixels T).
Proof. apply download_ok. Qed.

Lemma download_strips_pitch_witness :
  download (mapped_image (mkTexture 2 2 (map Z.of_nat (seq 1 16))) 12) 12 2 2
  = Some (map Z.of_nat (seq 1 16)).
Proof.
  apply (download_strips_pitch (mkTexture 2 2 (map Z.of_nat (seq 1 16))) 12).
  - unfold texture_wf. simpl. lia.
  - simpl. lia.
  - simpl. lia.
  - simpl. lia.
Defined.

(** ** The file operations of a save *)







(** ** The saver thread *)

Lemma saver_iteration_stopped base env s b s' effs :
  saver_iteration base env s = Some (b, s', effs) →
  saverRun s && running s = false →
  b = false ∧ s' = s
  ∧ effs = AtomicLoad a_saverRun
           :: (if saverRun s then [SleepUntil; AtomicLoad a_running] else []).
Proof.
  intros Hr Hflags. unfold saver_iteration in Hr.
  apply bind_Some in Hr as (? & ? & ? & ? & (-> & ->)%emit_Some & Hr & ->).
  apply bind_Some in Hr as (? & ? & ? & ? & (-> & -> & ->)%get_Some & Hr & ->).
  destruct (saverRun s) eqn:Esr; simpl in Hr.
  2:{ by apply ret_Some in Hr as (-> & -> & ->). }
  apply bind_Some in Hr as (? & ? & ? & ? & (-> & ->)%emit_Some & Hr & ->).
  apply bind_Some in Hr as (? & ? & ? & ? & (-> & ->)%emit_Some & Hr & ->).
  destruct (running s) eqn:Er; simpl in Hr; [done|].
  by apply ret_Some in Hr as (-> & -> & ->).
Qed.

(** The loop of the saver ends as soon as one of the two flags is clear, and
    the iteration that finds it so changes nothing, touches no file and
    writes no diagnostic line. *)
Theorem saver_stops base env s b s' effs :
  saver_iteration base env s = Some (b, s', effs) →
  b = saverRun s && running s
  ∧ (b = false → s' = s ∧ List.filter is_disk_io effs = [] ∧ log_lines effs = []).
Proof.
  intros Hr. pose proof (saver_iteration_inv _ _ _ _ _ _ Hr) as (Hb & _).
  split; [done|]. intros ->.
  destruct (saver_iteration_stopped _ _ _ _ _ _ Hr) as (_ & -> & ->); [done|].
  by destruct (saverRun s).
Qed.

Lemma saver_stops_witness :
  ∃ b s' effs,
    saver_iteration "frames" (tick_early 1000) (initial_state "base")
    = Some (b, s', effs)
    ∧ b = saverRun (initial_state "base") && running (initial_state "base")
    ∧ (b = false → s' = initial_state "base"
                   ∧ List.filter is_disk_io effs = [] ∧ log_lines effs = []).
Proof.
  eexists _, _, _. split; [vm_compute; reflexivity|].
  eapply (saver_stops "frames" (tick_early 1000) (initial_state "base")).
  vm_compute. reflexivity.
Defined.

(** At every tick at which the buffer holds a frame the sequence number goes
    up by one and the line [frame_saved], with the number used, closes the
    iteration: whether the file was written or not. *)
Theorem saver_counts_attempts base env s b s' effs t w h :
  saver_iteration base env s = Some (b, s', effs) →
  saverRun s = true → running s = true →
  snapshot (shared s) = Some (t, w, h) →
  saveIdx s' = saveIdx s + 1
  ∧ ∃ before,
      log_lines effs = before ++ [frame_saved (saveIdx s) w h (frameEvents s)].
Proof.
  intros Hr Hsr Hrn Hsnap. unfold saver_iteration in Hr.
  apply bind_Some in Hr as (? & ? & ? & ? & (-> & ->)%emit_Some & Hr & ->).
  apply bind_Some in Hr as (? & ? & ? & ? & (-> & -> & ->)%get_Some & Hr & ->).
  rewrite Hsr, Hrn, Hsnap in Hr. simpl in Hr.
  step_inv;
    repeat match goal with u : () |- _ => destruct u end;
    match goal with
    | Hs : save_staging_to_file _ _ _ _ = Some _ |- _ =>
        pose proof (save_staging_preserves _ _ _ _ _ _ Hs)
          as (_ & _ & _ & _ & Hsi & _)
    end;
    match goal with
    | Hi : int_add _ 1 = Some _ |- _ => apply int_add_Some in Hi as [-> Hb]
    end;
    simpl in *;
    (split; [done|]);
    repeat progress (rewrite ?log_lines_app, ?log_lines_log_effects; simpl);
    replace (saveIdx s + 1 - 1) with (saveIdx s) by lia;
    match goal with
    | |- ∃ _, ?c :: ?l ++ _ = _ => exists (c :: l)
    | |- ∃ _, ?l ++ _ = _ => exists l
    end; reflexivity.
Qed.

Lemma saver_counts_attempts_witness :
  ∃ b s' effs,
    saver_iteration "frames"
      (mkTickEnv 1000 (mk_tm 124 4 1 12 0 4) 500
         (mkSaveEnv false None false None false false false)) a_session_state
    = Some (b, s', effs)
    ∧ saveIdx s' = saveIdx a_session_state + 1
    ∧ ∃ before,
        log_lines effs
        = before ++ [frame_saved (saveIdx a_session_state) 1 1
                       (frameEvents a_session_state)].
Proof.
  eexists _, _, _. split; [vm_compute; reflexivity|].
  eapply (saver_counts_attempts "frames"
            (mkTickEnv 1000 (mk_tm 124 4 1 12 0 4) 500
               (mkSaveEnv false None false None false false false))
            a_session_state _ _ _ 0%nat 1 1);
    [vm_compute; reflexivity | reflexivity | reflexivity | reflexivity].
Defined.

(** ** The callback and the saver along a session *)

Lemma FrameArrived_counter env s a s' e :
  FrameArrived env s = Some (a, s', e) →
  frameEvents s'
  = (if running s && frame_available env
     then uint64 (frameEvents s + 1) else frameEvents s)
  ∧ (running s = false → s' = s ∧ e = [AtomicLoad a_running]).
Proof.
  intros Hr. unfold FrameArrived in Hr.
  apply bind_Some in Hr as (? & ? & ? & ? & (-> & ->)%emit_Some & Hr & ->).
  apply bind_Some in Hr as (? & ? & ? & ? & (-> & -> & ->)%get_Some & Hr & ->).
  destruct (running s) eqn:Er; simpl in Hr.
  2:{ by apply skip_Some in Hr as (-> & ->). }
  split; [|done].
  apply bind_Some in Hr as (? & ? & ? & ? & (-> & ->)%emit_Some & Hr & ->).
  destruct (frame_available env) eqn:Ef; simpl in Hr.
  2:{ by apply skip_Some in Hr as (-> & ->). }
  step_inv;
    repeat match goal with u : () |- _ => destruct u end;
    try match goal with
    | Hu : update _ _ _ = Some _ |- _ =>
        apply update_inv in Hu as (_ & _ & _ & _ & -> & _)
    end; done.
Qed.

(** The frame counter counts the frames that the pool handed to the
    callback, modulo [2 ^ 64]: one for each, and nothing else moves it. *)
Theorem frames_counted base evs alive s0 a s' e :
  run_events base alive evs (session_start s0) = Some (a, s', e) →
  frameEvents s' = uint64 (Z.of_nat (delivered evs)).
Proof.
  assert (Hgen : ∀ evs alive s a s' e,
    run_events base alive evs s = Some (a, s', e) → running s = true →
    uint64 (frameEvents s') = uint64 (frameEvents s + Z.of_nat (delivered evs))
    ∧ (frameEvents s' = frameEvents s ∨ frameEvents s' = uint64 (frameEvents s')));
    [clear|].
  { induction evs as [|ev evs IH]; intros alive s a s' e Hr Hrn.
    - apply ret_Some in Hr as (_ & -> & _). unfold delivered. simpl.
      rewrite Z.add_0_r. auto.
    - simpl in Hr.
      apply bind_Some in Hr as (a1 & s1 & e1 & e2 & H1 & H2 & ->).
      assert (Hrn1 : running s1 = true).
      { assert (Hone : run_events base alive [ev] s = Some (a1, s1, e1 ++ [])).
        { simpl. erewrite bind_run by exact H1. reflexivity. }
        apply run_events_flags in Hone as (-> & _). done. }
      destruct (IH _ _ _ _ _ H2 Hrn1) as (IH1 & IH2).
      assert (Hstep : frameEvents s1
                = if match ev with
                     | EvFrame env => frame_available env
                     | EvTick _ => false
                     end
                  then uint64 (frameEvents s + 1) else frameEvents s).
      { destruct ev as [env|env]; simpl in H1.
        - apply bind_Some in H1 as (? & ? & ? & ? & Hf & (-> & -> & ->)%ret_Some & ->).
          apply FrameArrived_counter in Hf as (-> & _). by rewrite Hrn.
        - destruct alive.
          + by apply saver_iteration_inv in H1 as (_ & _ & _ & _ & -> & _).
          + by apply ret_Some in H1 as (_ & -> & _). }
      unfold delivered in *. cbn [List.filter].
      destruct (match ev with EvFrame env => frame_available env | EvTick _ => false end).
      + cbn [length]. rewrite Hstep in *. split.
        * rewrite IH1. unfold uint64.
          rewrite Z.add_mod_idemp_l by lia. f_equal. lia.
        * right. destruct IH2 as [E|E]; [|exact E].
          rewrite E. unfold uint64. by rewrite Z.mod_mod by lia.
      + rewrite Hstep in *. done. }
  intros Hr. destruct (Hgen _ _ _ _ _ _ Hr eq_refl) as (H1 & [H2|H2]).
  - rewrite H2 in H1 |- *. change (frameEvents (session_start s0)) with 0 in *.
    rewrite Z.add_0_l in H1. rewrite <- H1. reflexivity.
  - rewrite H2, H1. done.
Qed.

Lemma frames_counted_witness :
  ∃ a s' e,
    run_events "frames" true
      [EvFrame an_earlier_frame; EvTick (tick_early 1000); EvFrame a_frame]
      (session_start (initial_state "base")) = Some (a, s', e)
    ∧ frameEvents s'
      = uint64 (Z.of_nat (delivered [EvFrame an_earlier_frame;
                                     EvTick (tick_early 1000); EvFrame a_frame])).
Proof.
  eexists _, _, _. split; [vm_compute; reflexivity|].
  eapply (frames_counted "frames" _ true (initial_state "base")).
  vm_compute. reflexivity.
Defined.

Lemma run_events_no_tick base evs : ∀ s alive a s' e,
  run_events base alive evs s = Some (a, s', e) → ticks evs = [] → a = alive.
Proof.
  induction evs as [|ev evs IH]; intros s alive a s' e Hr Et.
  - by apply ret_Some in Hr as (-> & _).
  - destruct ev; [|simpl in Et; done].
    simpl in Hr, Et.
    apply bind_Some in Hr as (? & ? & ? & ? & H1 & H2 & ->).
    apply bind_Some in H1 as (? & ? & ? & ? & _ & (-> & _)%ret_Some & _).
    by eapply IH.
Qed.

(** Once the running flag is clear, nothing of the session moves any more:
    the callbacks return without asking the pool for a frame, the saver
    leaves its loop at its next tick, and the state and the files are as
    they were. *)
Theorem stopped_session_inert base evs alive s a s' e :
  run_events base alive evs s = Some (a, s', e) →
  running s = false →
  s' = s
  ∧ (∀ b, PoolTryGetNextFrame b ∉ e)
  ∧ List.filter is_disk_io e = []
  ∧ (ticks evs ≠ [] → a = false).
Proof.
  revert alive s a s' e.
  induction evs as [|ev evs IH]; intros alive s a s' e Hr Hrn.
  - apply ret_Some in Hr as (_ & -> & ->). repeat split; try done.
    intros b Hb. by apply elem_of_nil in Hb.
  - simpl in Hr.
    apply bind_Some in Hr as (a1 & s1 & e1 & e2 & H1 & H2 & ->).
    assert (Hstep : s1 = s ∧ (∀ b, PoolTryGetNextFrame b ∉ e1)
                    ∧ List.filter is_disk_io e1 = []
                    ∧ (ticks [ev] ≠ [] → a1 = false)).
    { destruct ev as [env|env]; simpl in H1.
      - apply bind_Some in H1 as (? & ? & ? & ? & Hf & (-> & -> & ->)%ret_Some & ->).
        apply FrameArrived_counter in Hf as (_ & Hf).
        destruct (Hf Hrn) as (-> & ->). repeat split; try done.
        intros b Hb%list_elem_of_In. simpl in Hb. intuition discriminate.
      - destruct alive.
        + apply saver_iteration_stopped in H1 as (-> & -> & ->);
            [|by rewrite Hrn, andb_false_r].
          repeat split; try done.
          * intros b Hb%list_elem_of_In.
            destruct (saverRun s); simpl in Hb; intuition discriminate.
          * by destruct (saverRun s).
        + apply ret_Some in H1 as (-> & -> & ->). repeat split; try done.
          intros b Hb. by apply elem_of_nil in Hb. }
    destruct Hstep as (-> & Hp1 & Hd1 & Ha1).
    destruct (IH _ _ _ _ _ H2 Hrn) as (-> & Hp2 & Hd2 & Ha2).
    split; [done|]. split; [|split].
    + intros b [Hb|Hb]%elem_of_app; [by eapply Hp1|by eapply Hp2].
    + by rewrite List.filter_app, Hd1, Hd2.
    + intros Hticks. destruct (ticks evs) eqn:Et.
      * assert (Hev : a1 = false).
        { apply Ha1. destruct ev; simpl in *; [by rewrite Et in Hticks|done]. }
        subst a1. by eapply run_events_no_tick.
      * by apply Ha2.
Qed.

Lemma stopped_session_inert_witness :
  ∃ a s' e,
    run_events "frames" true [EvFrame a_frame; EvTick (tick_early 1000)]
      (set_saverRun true (initial_state "base")) = Some (a, s', e)
    ∧ s' = set_saverRun true (initial_state "base")
    ∧ (∀ b, PoolTryGetNextFrame b ∉ e)
    ∧ List.filter is_disk_io e = []
    ∧ (ticks [EvFrame a_frame; EvTick (tick_early 1000)] ≠ [] → a = false).
Proof.
  eexists _, _, _. split; [vm_compute; reflexivity|].
  eapply (stopped_session_inert "frames" _ true (set_saverRun true (initial_state "base")));
    [vm_compute; reflexivity | reflexivity].
Defined.

(** ** The file names of the saver *)

Lemma fmt_0d_length_le (w k : nat) (z : Z) :
  (w ≤ k)%nat → (1 ≤ k)%nat → - 10 ^ Z.of_nat k < z < 10 ^ Z.of_nat k →
  (String.length (fmt_0d w z) ≤ k + 1)%nat.
Proof.
  intros Hw Hk Hz. unfold fmt_0d. destruct (Z.ltb_spec z 0).
  - rewrite string_app_cons, string_app_nil. cbn [String.length].
    rewrite low_digits_length.
    pose proof (num_digits_le 20 k (- z) Hk ltac:(lia)). lia.
  - rewrite low_digits_length.
    pose proof (num_digits_le 20 k z Hk ltac:(lia)). lia.
Qed.

(** The name of a frame always fits the 128 characters of the buffer that
    [swprintf] fills, whatever the clock reads and whatever the sequence
    number; with a reading in the format and fewer than 100000 saves it
    takes exactly 34 characters. *)
Theorem frame_name_fits (e : TickEnv) (k : Z) (n : string) :
  Forall (λ z, INT_MIN ≤ z ≤ INT_MAX)
    [tm_mday (utc e); tm_hour (utc e); tm_min (utc e); tm_sec (utc e); k] →
  - 2 ^ 63 ≤ msPart e < 2 ^ 63 →
  frame_name (utc e) (msPart e) k = Some n →
  (String.length n < 128)%nat
  ∧ (stamp_in_format e → 0 ≤ k < 100000 → String.length n = 34%nat).
Proof.
  intros Hall Hms Hn.
  apply Forall_cons_1 in Hall as (Hd & Hall).
  apply Forall_cons_1 in Hall as (Hh & Hall).
  apply Forall_cons_1 in Hall as (Hi & Hall).
  apply Forall_cons_1 in Hall as (Hs & Hall).
  apply Forall_cons_1 in Hall as (Hk & _).
  unfold frame_name in Hn.
  destruct (int_add (tm_year (utc e)) 1900) as [year|] eqn:Ey; [|done].
  destruct (int_add (tm_mon (utc e)) 1) as [mon|] eqn:Em; [|done].
  cbn [mbind option_bind] in Hn. injection Hn as <-.
  apply int_add_Some in Ey as (-> & Hy). apply int_add_Some in Em as (-> & Hm).
  unfold INT_MIN, INT_MAX in *.
  assert (Hint : ∀ w z, (w ≤ 5)%nat → - 2 ^ 31 ≤ z ≤ 2 ^ 31 - 1 →
                        (String.length (fmt_0d w z) ≤ 11)%nat).
  { intros w z Hw Hz. apply (fmt_0d_length_le w 10); [lia|lia|].
    change (10 ^ Z.of_nat 10) with 10000000000. lia. }
  assert (Hll : (String.length (fmt_0d 3 (msPart e)) ≤ 20)%nat).
  { apply (fmt_0d_length_le 3 19); [lia|lia|].
    change (10 ^ Z.of_nat 19) with 10000000000000000000. lia. }
  split.
  - pose proof (Hint 4%nat _ ltac:(lia) Hy).
    pose proof (Hint 2%nat _ ltac:(lia) Hm).
    pose proof (Hint 2%nat _ ltac:(lia) Hd).
    pose proof (Hint 2%nat _ ltac:(lia) Hh).
    pose proof (Hint 2%nat _ ltac:(lia) Hi).
    pose proof (Hint 2%nat _ ltac:(lia) Hs).
    pose proof (Hint 5%nat _ ltac:(lia) Hk).
    rewrite !string_app_length. cbn [String.length]. lia.
  - intros (Hy' & Hm' & Hd' & Hh' & Hi' & Hs' & Hms') Hk'.
    rewrite !(fmt_0d_fits 4), !(fmt_0d_fits 2), !(fmt_0d_fits 3), !(fmt_0d_fits 5)
      by (simpl; lia).
    rewrite !string_app_length, !low_digits_length. reflexivity.
Qed.

Lemma frame_name_fits_witness :
  ∃ n,
    frame_name (utc (tick_early 1000)) (msPart (tick_early 1000)) 7 = Some n
    ∧ (String.length n < 128)%nat
    ∧ (stamp_in_format (tick_early 1000) → 0 ≤ 7 < 100000 →
       String.length n = 34%nat).
Proof.
  eexists. split; [vm_compute; reflexivity|].
  apply (frame_name_fits (tick_early 1000) 7).
  - repeat constructor; vm_compute; discriminate.
  - split; [vm_compute; discriminate|reflexivity].
  - vm_compute. reflexivity.
Defined.

(** ** The supervisor *)

Lemma main_iteration_end env s o s' effs :
  main_iteration env s = Some (o, s', effs) →
  (o = Terminated ↔ OpenProcess false ∈ effs)
  ∧ (o = Terminated ↔ Terminate ∈ effs)
  ∧ (o = Terminated → open_ok env = false).
Proof.
  intros Hr.
  assert (Hmem : ∀ (f : Effect → bool) x, f x = true →
            (x ∈ effs ↔ x ∈ List.filter f effs)).
  { intros f x Hf. split; [by intros ?%(filter_elem_of f)|apply elem_of_filter]. }
  rewrite (Hmem is_open_process (OpenProcess false)) by done.
  rewrite (Hmem is_terminate Terminate) by done.
  apply main_iteration_shape in Hr as [Hk|Hk].
  - destruct Hk as (-> & -> & _ & ->). rewrite !elem_of_nil. naive_solver.
  - destruct (open_ok env); simpl in Hk.
    + destruct Hk as (-> & _ & _ & -> & _ & ->).
      rewrite elem_of_nil, list_elem_of_singleton. naive_solver.
    + destruct Hk as (-> & _ & _ & -> & _ & ->).
      rewrite !list_elem_of_singleton. naive_solver.
Qed.

Lemma run_session_last env s s' effs :
  run_session env s = Some (Terminated, s', effs) →
  ∃ before, effs = before ++ [Terminate].
Proof.
  intros Hr. pose proof (run_session_shape _ _ _ _ _ Hr) as Hk.
  destruct (open_ok env) eqn:Eo; simpl in Hk; [by destruct Hk as (? & _)|].
  clear Hk. unfold run_session in Hr. rewrite Eo in Hr. cbn [negb] in Hr.
  do 15 (apply bind_Some in Hr as (? & ? & ? & ? & _ & Hr & ->)).
  unfold leave_scope in Hr.
  apply bind_Some in Hr as (? & ? & ? & ? & (-> & ->)%emit_Some & Hr & ->).
  apply ret_Some in Hr as (_ & -> & ->).
  rewrite app_nil_r, !app_assoc. by eexists.
Qed.

Lemma ends_cons {A} (x a : A) (l : list A) :
  (∃ b, l = b ++ [x]) → ∃ b, a :: l = b ++ [x].
Proof. intros (b & ->). by exists (a :: b). Qed.

Lemma ends_app {A} (x : A) (l0 l : list A) :
  (∃ b, l = b ++ [x]) → ∃ b, l0 ++ l = b ++ [x].
Proof. intros (b & ->). exists (l0 ++ b). by rewrite app_assoc. Qed.

Lemma main_iteration_last env s s' effs :
  main_iteration env s = Some (Terminated, s', effs) →
  ∃ before, effs = before ++ [Terminate].
Proof.
  intros Hr. unfold main_iteration, locate, find_window, continue_after in Hr.
  step_inv;
    match goal with
    | Hs : run_session _ _ = Some _ |- _ =>
        apply run_session_last in Hs as (before & ->)
    end;
    repeat lazymatch goal with
    | |- ∃ b, ?l ++ [?x] = b ++ [?x] => fail
    | |- ∃ _, _ :: _ = _ => apply ends_cons
    | |- ∃ _, _ ++ _ = _ => apply ends_app
    end; by eexists.
Qed.

Lemma main_iteration_terminate env s o s' effs :
  main_iteration env s = Some (o, s', effs) →
  List.filter is_terminate effs
  = match o with Continue => [] | Terminated => [Terminate] end.
Proof.
  intros Hr. apply main_iteration_shape in Hr as [Hk|Hk].
  - by destruct Hk as (-> & _ & _ & ->).
  - destruct (open_ok env); simpl in Hk.
    + by destruct Hk as (-> & _ & _ & _ & _ & ->).
    + by destruct Hk as (-> & _ & _ & _ & _ & ->).
Qed.

(** In the loop of [main], a failed [OpenProcess] after the start of a
    session ends the service.  The iteration in which it fails is the last
    one: the iterations that the loop would have run after it never run
    (the run is that of the iterations up to this one, whatever follows
    them), its outcome is the termination of the process, and that
    termination is the last effect of the run and the only one of its
    kind.  (Nothing is said here of the other ways in which the service may
    end.) *)
Theorem service_ends_on_open_failure envs s o s' effs :
  main_loop envs s = Some (o, s', effs) →
  OpenProcess false ∈ effs →
  o = Terminated
  ∧ (∃ before, effs = before ++ [Terminate])
  ∧ List.filter is_terminate effs = [Terminate]
  ∧ ∃ ran env rest,
      envs = ran ++ env :: rest
      ∧ open_ok env = false
      ∧ ∀ others, main_loop (ran ++ env :: others) s = Some (Terminated, s', effs).
Proof.
  revert s o s' effs. induction envs as [|env envs IH]; intros s o s' effs Hr Hin.
  - apply ret_Some in Hr as (_ & _ & ->). by apply elem_of_nil in Hin.
  - simpl in Hr.
    apply bind_Some in Hr as (o1 & s1 & e1 & e2 & H1 & H2 & ->).
    pose proof (main_iteration_end _ _ _ _ _ H1) as (Ho & _ & Hopen).
    pose proof (main_iteration_terminate _ _ _ _ _ H1) as Ht.
    destruct o1.
    + apply elem_of_app in Hin as [Hin|Hin]; [by apply Ho in Hin|].
      destruct (IH _ _ _ _ H2 Hin)
        as (-> & (before & ->) & IHt & ran & env' & rest & -> & Hf & Hrun).
      split; [done|]. split; [exists (e1 ++ before); by rewrite app_assoc|].
      split; [by rewrite List.filter_app, Ht, IHt|].
      exists (env :: ran), env', rest. split; [done|]. split; [done|].
      intros others. change ((env :: ran) ++ env' :: others)
        with (env :: (ran ++ env' :: others)).
      cbn [main_loop]. erewrite bind_run by exact H1.
      cbn beta iota. by rewrite Hrun.
    + apply ret_Some in H2 as (-> & -> & ->). rewrite app_nil_r in *.
      split; [done|]. split; [by apply main_iteration_last in H1|].
      split; [done|].
      exists [], env, envs. split; [done|]. split; [by apply Hopen|].
      intros others. change ([] ++ env :: others) with (env :: others).
      cbn [main_loop]. erewrite bind_run by exact H1.
      cbn. by rewrite app_nil_r.
Qed.

Lemma service_ends_on_open_failure_witness :
  ∃ o s' effs,
    (main_loop [a_lifecycle true 1; a_lifecycle false 1; a_lifecycle true 1]
       (initial_state "base") = Some (o, s', effs)
     ∧ OpenProcess false ∈ effs)
    ∧ o = Terminated
    ∧ (∃ before, effs = before ++ [Terminate])
    ∧ List.filter is_terminate effs = [Terminate]
    ∧ ∃ ran env rest,
        [a_lifecycle true 1; a_lifecycle false 1; a_lifecycle true 1]
        = ran ++ env :: rest
        ∧ open_ok env = false
        ∧ ∀ others, main_loop (ran ++ env :: others) (initial_state "base")
                    = Some (Terminated, s', effs).
Proof.
  eexists _, _, _. split.
  - split; [vm_compute; reflexivity|].
    apply list_elem_of_In. vm_compute. tauto.
  - eapply (service_ends_on_open_failure
              [a_lifecycle true 1; a_lifecycle false 1; a_lifecycle true 1]
              (initial_state "base")).
    + vm_compute. reflexivity.
    + apply list_elem_of_In. vm_compute. tauto.
Defined.

Lemma main_iteration_nothing env s o s' effs :
  nothing_found env →
  main_iteration env s = Some (o, s', effs) →
  o = Continue ∧ scanCount s' = scanCount s + 1
  ∧ log_lines effs
    = (if Z.rem (scanCount s) 15 =? 0 then [waiting_for_process] else [])
  ∧ List.filter is_sleep effs = [SleepFor 2000].
Proof.
  intros (Hp & Ht) Hr. unfold main_iteration, locate in Hr. rewrite Hp in Hr.
  destruct Ht as [Ht|Ht]; rewrite Ht in Hr; simpl in Hr;
    step_inv;
    match goal with
    | Hi : int_add _ 1 = Some _ |- _ => apply int_add_Some in Hi as [-> _]
    end;
    repeat progress (rewrite ?log_lines_app, ?log_lines_log_effects,
                       ?List.filter_app, ?(filter_logs is_sleep) by (by intros []);
                     simpl);
    done.
Qed.

(** While neither the process nor a window with the title is found, the
    supervisor sleeps two seconds after each scan and writes
    [waiting_for_process] at the scans whose number is a multiple of 15, and
    no other line: one line every thirty seconds. *)
Theorem waiting_line_throttled envs s o s' effs :
  Forall nothing_found envs →
  main_loop envs s = Some (o, s', effs) →
  o = Continue
  ∧ scanCount s' = scanCount s + Z.of_nat (length envs)
  ∧ log_lines effs
    = map (λ _, waiting_for_process)
          (List.filter (λ c, Z.rem c 15 =? 0)
             (seqZ (scanCount s) (Z.of_nat (length envs))))
  ∧ List.filter is_sleep effs = map (λ _, SleepFor 2000) envs.
Proof.
  intros Hall. revert s o s' effs.
  induction Hall as [|env envs Henv Hall IH]; intros s o s' effs Hr.
  - apply ret_Some in Hr as (-> & -> & ->). simpl. repeat split; try done. lia.
  - simpl in Hr.
    apply bind_Some in Hr as (o1 & s1 & e1 & e2 & H1 & H2 & ->).
    apply (main_iteration_nothing _ _ _ _ _ Henv) in H1 as (-> & Hc & Hl & Hs).
    apply IH in H2 as (-> & Hc2 & Hl2 & Hs2).
    split; [done|]. split; [rewrite Hc2, Hc; cbn [length]; lia|]. split.
    + rewrite log_lines_app, Hl, Hl2, Hc.
      rewrite (seqZ_cons (scanCount s)) by (cbn [length]; lia).
      replace (Z.pred (Z.of_nat (length (env :: envs)))) with (Z.of_nat (length envs))
        by (cbn [length]; lia).
      replace (Z.succ (scanCount s)) with (scanCount s + 1) by lia.
      cbn [List.filter]. by destruct (Z.rem (scanCount s) 15 =? 0).
    + by rewrite List.filter_app, Hs, Hs2.
Qed.

Lemma waiting_line_throttled_witness :
  ∃ o s' effs,
    main_loop (replicate 16 (mkMainEnv None None false false false false (0, 0) []
                               false 0 [] 0 0 0))
      (initial_state "base") = Some (o, s', effs)
    ∧ o = Continue
    ∧ scanCount s' = scanCount (initial_state "base") + Z.of_nat 16
    ∧ log_lines effs = [waiting_for_process; waiting_for_process]
    ∧ length (List.filter is_sleep effs) = 16%nat.
Proof.
  assert (Hall : Forall nothing_found
            (replicate 16 (mkMainEnv None None false false false false (0, 0) []
                             false 0 [] 0 0 0))).
  { apply Forall_replicate. split; [reflexivity|left; reflexivity]. }
  assert (H : ∃ o s' effs,
            main_loop (replicate 16 (mkMainEnv None None false false false false
                                       (0, 0) [] false 0 [] 0 0 0))
              (initial_state "base") = Some (o, s', effs)).
  { eexists _, _, _. vm_compute. reflexivity. }
  destruct H as (o & s' & effs & Hr). exists o, s', effs. split; [exact Hr|].
  destruct (waiting_line_throttled _ _ _ _ _ Hall Hr) as (Ho & Hc & Hl & Hs).
  split; [exact Ho|]. split; [exact Hc|]. split; [exact Hl|].
  rewrite Hs. reflexivity.
Defined.

Lemma run_session_starts env s o s' effs :
  run_session env s = Some (o, s', effs) →
  List.filter is_start effs
  = [CreateFramePool; CreateCaptureSession; StartCapture; RegisterFrameArrived;
     ThreadStart].
Proof.
  intros Hr. unfold run_session in Hr.
  apply bind_Some in Hr as (? & ? & ? & ? & (-> & ->)%emit_Some & Hr & ->).
  apply bind_Some in Hr as (? & ? & ? & ? & (-> & ->)%emit_Some & Hr & ->).
  apply bind_Some in Hr as (? & ? & ? & ? & (-> & ->)%emit_Some & Hr & ->).
  apply bind_Some in Hr as (? & ? & ? & ? & (-> & ->)%log_line_Some & Hr & ->).
  apply bind_Some in Hr as (baseDir & ? & ? & ? & Hfd & Hr & ->).
  rewrite frames_dir_run in Hfd. injection Hfd as <- <- <-.
  apply bind_Some in Hr as (? & ? & ? & ? & (-> & ->)%modify_Some & Hr & ->).
  apply bind_Some in Hr as (? & ? & ? & ? & (-> & ->)%emit_Some & Hr & ->).
  apply bind_Some in Hr as (? & ? & ? & ? & (-> & ->)%emit_Some & Hr & ->).
  apply bind_Some in Hr as (? & ? & ? & ? & (-> & ->)%emit_Some & Hr & ->).
  apply bind_Some in Hr as (a1 & s1 & e1 & ? & Hev1 & Hr & ->).
  pose proof (run_events_filter is_start _ _ _ _ _ _ _ ltac:(by intros []) Hev1) as Ho1.
  apply bind_Some in Hr as (? & ? & ? & ? & (-> & ->)%emit_Some & Hr & ->).
  destruct (open_ok env); simpl in Hr.
  - apply bind_Some in Hr as (? & ? & ? & ? & (-> & ->)%emit_Some & Hr & ->).
    apply bind_Some in Hr as (? & s2 & e2 & ? & Hw & Hr & ->).
    apply bind_Some in Hr as (a3 & s3 & e3 & ? & Hev2 & Hr & ->).
    pose proof (run_events_filter is_start _ _ _ _ _ _ _ ltac:(by intros []) Hev2) as Ho2.
    apply bind_Some in Hr as (? & ? & ? & ? & (-> & ->)%emit_Some & Hr & ->).
    apply bind_Some in Hr as (? & ? & ? & ? & (-> & ->)%emit_Some & Hr & ->).
    apply bind_Some in Hr as (? & ? & ? & ? & (-> & ->)%emit_Some & Hr & ->).
    apply bind_Some in Hr as (? & s4 & e4 & ? & Hg & Hr & ->).
    assert (Hwait : s2 = s1 ∧ List.filter is_start e2 = []).
    { eapply (repeat_M_filter is_start); [|exact Hw].
      by intros ? ? ? ? (-> & ->)%emit_Some. }
    assert (Hgrace : s4 = s3 ∧ List.filter is_start e4 = []).
    { eapply (repeat_M_filter is_start); [|exact Hg].
      intros ? ? ? ? Hm. by step_inv. }
    destruct Hwait as (-> & Ho3). destruct Hgrace as (-> & Ho4).
    step_inv; simpl;
      repeat progress (rewrite ?List.filter_app, ?(filter_logs is_start) by (by intros []);
                       simpl);
      rewrite Ho1, Ho2, Ho3, Ho4; done.
  - step_inv; simpl;
      repeat progress (rewrite ?List.filter_app, ?(filter_logs is_start) by (by intros []);
                       simpl);
      rewrite Ho1; done.
Qed.

Lemma main_iteration_starts env s o s' effs :
  main_iteration env s = Some (o, s', effs) →
  (target_ready env
   ∧ List.filter is_start effs
     = [CreateFramePool; CreateCaptureSession; StartCapture;
        RegisterFrameArrived; ThreadStart])
  ∨ (¬ target_ready env ∧ List.filter is_start effs = [] ∧ o = Continue).
Proof.
  intros Hr. unfold main_iteration, locate, find_window, continue_after in Hr.
  step_inv;
    try match goal with
    | Hs : run_session _ _ = Some _ |- _ => apply run_session_starts in Hs
    end;
    repeat progress (rewrite ?List.filter_app, ?(filter_logs is_start) by (by intros []);
                     simpl);
    repeat match goal with
    | H : negb _ = false |- _ => apply negb_false_iff in H
    | H : negb _ = true |- _ => apply negb_true_iff in H
    | H : _ || _ = false |- _ => apply orb_false_iff in H as [? ?]
    | H : _ || _ = true |- _ => apply orb_true_iff in H
    | H : (_ <=? _) = false |- _ => apply Z.leb_gt in H
    | H : (_ <=? _) = true |- _ => apply Z.leb_le in H
    | H : (_ =? _) = false |- _ => apply Z.eqb_neq in H
    | H : (_ =? _) = true |- _ => apply Z.eqb_eq in H
    end;
    unfold target_ready.
  all: try (left; split; [|done || (rewrite ?app_nil_r; congruence)];
            repeat split; eauto; lia).
  all: right; (split; [|done]); intros (Hp & Hw & Hd & Hi & Hs1 & Hs2).
  all: try (destruct Hp as [[? Hp]|(? & Hp & ?)]; destruct Hw; congruence || lia).
Qed.

(** A capture is started, and the saver thread with it, exactly when the
    iteration has found a process, a window, a device and a capture item
    and the size of the item is positive both ways; otherwise the iteration
    creates nothing of a session. *)
Theorem capture_starts_iff env s o s' effs :
  main_iteration env s = Some (o, s', effs) →
  (StartCapture ∈ effs ↔ target_ready env)
  ∧ (ThreadStart ∈ effs ↔ target_ready env)
  ∧ (¬ target_ready env → List.filter is_start effs = [] ∧ o = Continue).
Proof.
  intros Hr.
  assert (Hmem : ∀ x, is_start x = true →
            (x ∈ effs ↔ x ∈ List.filter is_start effs)).
  { intros x Hx. split; [by intros ?%(filter_elem_of is_start)|apply elem_of_filter]. }
  rewrite (Hmem StartCapture), (Hmem ThreadStart) by done.
  destruct (main_iteration_starts _ _ _ _ _ Hr) as [(Hready & ->)|(Hnot & Hnil & ->)].
  - split; [|split].
    + split; [done|]. intros _. rewrite !elem_of_cons. auto.
    + split; [done|]. intros _. rewrite !elem_of_cons. auto 10.
    + done.
  - rewrite Hnil. rewrite !elem_of_nil. done.
Qed.

Lemma capture_starts_iff_witness :
  ∃ o s' effs,
    main_iteration (mkMainEnv (Some 4242) None true false true true (0, 1080) []
                      true 0 [] 0 0 0) (initial_state "base")
    = Some (o, s', effs)
    ∧ (StartCapture ∈ effs
       ↔ target_ready (mkMainEnv (Some 4242) None true false true true (0, 1080) []
                         true 0 [] 0 0 0))
    ∧ (ThreadStart ∈ effs
       ↔ target_ready (mkMainEnv (Some 4242) None true false true true (0, 1080) []
                         true 0 [] 0 0 0))
    ∧ (¬ target_ready (mkMainEnv (Some 4242) None true false true true (0, 1080) []
                         true 0 [] 0 0 0) →
       List.filter is_start effs = [] ∧ o = Continue).
Proof.
  eexists _, _, _. split; [vm_compute; reflexivity|].
  eapply (capture_starts_iff
            (mkMainEnv (Some 4242) None true false true true (0, 1080) []
               true 0 [] 0 0 0) (initial_state "base")).
  vm_compute. reflexivity.
Defined.

(** ** The searches for the process and for its window *)

Lemma find_first_with {A} (p : A → bool) (P : A → Prop) (l : list A) :
  (∀ x, p x = true ↔ P x) →
  match List.find p l with
  | Some x => first_with P l x
  | None => ∀ x, x ∈ l → ¬ P x
  end.
Proof.
  intros Hp. induction l as [|a l IH]; simpl.
  - intros x Hx. by apply elem_of_nil in Hx.
  - destruct (p a) eqn:Ea.
    + exists 0%nat. split; [done|]. split; [by apply Hp|]. intros j y Hj. lia.
    + assert (Ha : ¬ P a). { rewrite <- Hp, Ea. done. }
      destruct (List.find p l) as [x|].
      * destruct IH as (i & Hi & Hx & Hlt). exists (S i).
        split; [done|]. split; [done|].
        intros [|j] y Hj Hy; [by injection Hy as <-|].
        apply (Hlt j); [lia|done].
      * intros x [->|Hx]%elem_of_cons; [done|by apply IH].
Qed.

Lemma enum_windows_find {C} (p : Window → C → bool) (set : Window → C → C)
    (wins : list Window) (c : C) :
  enum_windows (λ h c, if p h c then (set h c, false) else (c, true)) wins c
  = match List.find (λ h, p h c) wins with
    | Some h => set h c
    | None => c
    end.
Proof.
  induction wins as [|h wins IH]; simpl; [done|].
  by destruct (p h c).
Qed.

Lemma find_main_hwnd_find wins pid :
  find_main_hwnd wins pid
  = hwnd <$> List.find (λ h, (wpid h =? pid) && bool_decide (owner h = None)
                               && visible h) wins.
Proof.
  unfold find_main_hwnd.
  rewrite (enum_windows_find
             (λ h (c : Z * option Z),
                (wpid h =? c.1) && bool_decide (owner h = None) && visible h)
             (λ h c, (c.1, Some (hwnd h)))).
  simpl. by destruct (List.find _ wins).
Qed.

(** [find_main_hwnd] returns the first window, in the order of the
    enumeration, that belongs to the process, has no owner and is visible;
    it returns [NULL] exactly when there is no such window. *)
Theorem find_main_hwnd_first (wins : list Window) (pid : Z) :
  match find_main_hwnd wins pid with
  | Some h => ∃ w, hwnd w = h ∧ first_with (main_window_of pid) wins w
  | None => ∀ w, w ∈ wins → ¬ main_window_of pid w
  end.
Proof.
  rewrite find_main_hwnd_find.
  pose proof (find_first_with
                (λ h, (wpid h =? pid) && bool_decide (owner h = None) && visible h)
                (main_window_of pid) wins) as Hf.
  destruct (List.find _ wins) as [w|]; simpl.
  - exists w. split; [done|]. apply Hf.
    intros x. unfold main_window_of.
    rewrite !andb_true_iff, Z.eqb_eq, bool_decide_eq_true. tauto.
  - apply Hf. intros x. unfold main_window_of.
    rewrite !andb_true_iff, Z.eqb_eq, bool_decide_eq_true. tauto.
Qed.

Lemma starts_with_spec (n t : list Z) :
  starts_with n t = true ↔ ∃ after, t = n ++ after.
Proof.
  revert t. induction n as [|x n IH]; intros t; simpl.
  - split; [by exists t|done].
  - destruct t as [|y t].
    + split; [done|]. by intros (? & ?).
    + rewrite andb_true_iff, Z.eqb_eq, IH. split.
      * intros (-> & after & ->). by exists after.
      * intros (after & [= -> ->]). split; [done|by exists after].
Qed.

Lemma wfind_spec (n t : list Z) :
  is_Some (wfind n t) ↔ ∃ before after, t = before ++ n ++ after.
Proof.
  induction t as [|y t IH]; simpl.
  - destruct (starts_with n []) eqn:Es.
    + split; [|by eexists]. intros _.
      apply starts_with_spec in Es as (after & ->). by exists [], after.
    + split; [by intros [? [=]]|].
      intros (before & after & Heq). exfalso.
      destruct before; [|done]. simpl in Heq.
      assert (starts_with n [] = true) by (apply starts_with_spec; by exists after).
      congruence.
  - destruct (starts_with n (y :: t)) eqn:Es.
    + split; [|by eexists]. intros _.
      apply starts_with_spec in Es as (after & ->). by exists [], after.
    + rewrite fmap_is_Some, IH. split.
      * intros (before & after & ->). by exists (y :: before), after.
      * intros ([|z before] & after & Heq).
        -- exfalso. simpl in Heq.
           assert (starts_with n (y :: t) = true)
             by (apply starts_with_spec; by exists after).
           congruence.
        -- injection Heq as -> ->. by exists before, after.
Qed.

Lemma find_window_by_title_find towlower wins needle :
  find_window_by_title_substring towlower wins needle
  = hwnd <$> List.find
      (λ h, visible h && negb (bool_decide (window_text h = []))
            && bool_decide (is_Some (wfind needle (map towlower (window_text h)))))
      wins.
Proof.
  unfold find_window_by_title_substring.
  induction wins as [|h wins IH]; simpl; [done|].
  destruct (visible h); simpl; [|exact IH].
  destruct (bool_decide (window_text h = [])); simpl; [exact IH|].
  destruct (bool_decide (is_Some _)); simpl; [done|exact IH].
Qed.

Lemma titled_decide towlower needle (w : Window) :
  visible w && negb (bool_decide (window_text w = []))
  && bool_decide (is_Some (wfind needle (map towlower (window_text w)))) = true
  ↔ titled towlower needle w.
Proof.
  unfold titled.
  rewrite !andb_true_iff, negb_true_iff, bool_decide_eq_false, bool_decide_eq_true.
  rewrite wfind_spec. tauto.
Qed.

(** [find_window_by_title_substring] returns the first window, in the order
    of the enumeration, that is visible, has a text, and whose text, cut
    at 511 characters and lowered, holds the needle; it returns [NULL]
    exactly when there is no such window.  The process that owns the window
    plays no part. *)
Theorem find_window_by_title_first towlower (wins : list Window) (needle : list Z) :
  match find_window_by_title_substring towlower wins needle with
  | Some h => ∃ w, hwnd w = h ∧ first_with (titled towlower needle) wins w
  | None => ∀ w, w ∈ wins → ¬ titled towlower needle w
  end.
Proof.
  rewrite find_window_by_title_find.
  pose proof (find_first_with _ (titled towlower needle) wins
                (titled_decide towlower needle)) as Hf.
  destruct (List.find _ wins) as [w|]; simpl; [|done].
  by exists w.
Qed.

(** The needle has to be in lower case: one that holds a character which
    [towlower] never yields, such as a capital letter, matches no window
    whatever. *)
Theorem title_needle_must_be_lower towlower (wins : list Window)
    (needle : list Z) (c : Z) :
  c ∈ needle → (∀ x, towlower x ≠ c) →
  find_window_by_title_substring towlower wins needle = None.
Proof.
  intros Hc Hlow. rewrite find_window_by_title_find.
  pose proof (find_first_with _ (titled towlower needle) wins
                (titled_decide towlower needle)) as Hf.
  destruct (List.find _ wins) as [w|]; simpl; [|done]. exfalso.
  destruct Hf as (_ & _ & (_ & _ & before & after & Heq) & _).
  assert (Hin : c ∈ map towlower (window_text w)).
  { rewrite Heq, !elem_of_app. auto. }
  apply list_elem_of_fmap in Hin as (x & Hx & _). by eapply Hlow.
Qed.

Lemma title_needle_must_be_lower_witness :
  find_window_by_title_substring ascii_towlower
    [mkWindow 100 4242 None true (wide "Heroes of the Storm")]
    (wide "Heroes of the storm") = None.
Proof.
  apply (title_needle_must_be_lower ascii_towlower _ _ 72).
  - vm_compute. left.
  - intros x. unfold ascii_towlower.
    destruct ((65 <=? x) && (x <=? 90)) eqn:E; [|intros ->; done].
    apply andb_true_iff in E as (?%Z.leb_le & ?%Z.leb_le). lia.
Defined.

Lemma scan_processes_spec towlower rest : ∀ pe pid found pid' calls,
  scan_processes towlower pe rest pid = (found, pid', calls) →
  (if found
   then ∃ x, first_with (λ pe, is_target towlower pe = true) (pe :: rest) x
             ∧ pid' = th32ProcessID x
   else pid' = pid ∧ ∀ x, x ∈ pe :: rest → is_target towlower x = false)
  ∧ ∃ before, calls = before ++ [CloseSnapshot] ∧ CloseSnapshot ∉ before.
Proof.
  induction rest as [|pe' rest IH]; intros pe pid found pid' calls Hs; simpl in Hs.
  - destruct (is_target towlower pe) eqn:Et; injection Hs as <- <- <-.
    + split; [|exists []; split; [done|by intros ?%elem_of_nil]].
      exists pe. split; [|done]. exists 0%nat. split; [done|]. split; [done|].
      intros j y Hj. lia.
    + split.
      * split; [done|]. by intros x ->%list_elem_of_singleton.
      * exists [Process32Next false]. split; [done|].
        by intros [=]%list_elem_of_singleton.
  - destruct (is_target towlower pe) eqn:Et.
    + injection Hs as <- <- <-.
      split; [|exists []; split; [done|by intros ?%elem_of_nil]].
      exists pe. split; [|done]. exists 0%nat. split; [done|]. split; [done|].
      intros j y Hj. lia.
    + destruct (scan_processes towlower pe' rest pid) as [[f p] c] eqn:Es.
      injection Hs as <- <- <-.
      destruct (IH _ _ _ _ _ Es) as (Hres & before & -> & Hno).
      split.
      * destruct f.
        -- destruct Hres as (x & (i & Hi & Hx & Hlt) & ->).
           exists x. split; [|done]. exists (S i). split; [done|]. split; [done|].
           intros [|j] y Hj Hy; [injection Hy as <-; by rewrite Et|].
           apply (Hlt j); [lia|done].
        -- destruct Hres as (-> & Hall). split; [done|].
           intros x [->|Hx]%elem_of_cons; [done|by apply Hall].
      * exists (Process32Next true :: before). split; [done|].
        intros [[=]|Hin]%elem_of_cons. by apply Hno.
Qed.

(** [find_process] returns [true] with the id of the first entry of the
    snapshot whose name is one of the two names of the game, whatever the
    case of its letters; when there is none, or no snapshot, it returns
    [false] and leaves [pid] as it was.  On every path on which the snapshot
    was taken, its handle is closed, once, as the last call. *)
Theorem find_process_spec towlower snap pid found pid' calls :
  find_process towlower snap pid = (found, pid', calls) →
  (if found
   then ∃ pes pe, snap = Some pes
          ∧ first_with (λ pe, is_target towlower pe = true) pes pe
          ∧ pid' = th32ProcessID pe
   else pid' = pid
        ∧ ∀ pes pe, snap = Some pes → pe ∈ pes → is_target towlower pe = false)
  ∧ match snap with
    | None => CloseSnapshot ∉ calls
    | Some _ => ∃ before, calls = before ++ [CloseSnapshot] ∧ CloseSnapshot ∉ before
    end.
Proof.
  intros Hf. unfold find_process in Hf.
  destruct snap as [[|pe rest]|].
  - injection Hf as <- <- <-. split.
    + split; [done|]. intros pes pe [= <-] Hin. by apply elem_of_nil in Hin.
    + exists [CreateSnapshot true; Process32First false]. split; [done|].
      intros Hin%list_elem_of_In. simpl in Hin. intuition discriminate.
  - destruct (scan_processes towlower pe rest pid) as [[f p] c] eqn:Es.
    injection Hf as <- <- <-.
    destruct (scan_processes_spec _ _ _ _ _ _ _ Es) as (Hres & before & -> & Hno).
    split.
    + destruct f.
      * destruct Hres as (x & Hx & ->). by exists (pe :: rest), x.
      * destruct Hres as (-> & Hall). split; [done|].
        intros pes x [= <-]. apply Hall.
    + exists (CreateSnapshot true :: Process32First true :: before). split; [done|].
      intros [[=]|[[=]|Hin]%elem_of_cons]%elem_of_cons. by apply Hno.
  - injection Hf as <- <- <-. split.
    + split; [done|]. by intros pes pe [=].
    + by intros [=]%list_elem_of_singleton.
Qed.

Lemma find_process_spec_witness :
  ∃ pid' calls,
    find_process ascii_towlower
      (Some [mkProcess (wide "explorer.exe") 812;
             mkProcess (wide "heroesofthestorm_X64.EXE") 4242;
             mkProcess (wide "HeroesOfTheStorm.exe") 5000]) 0
    = (true, pid', calls)
    ∧ (∃ pes pe,
         Some [mkProcess (wide "explorer.exe") 812;
               mkProcess (wide "heroesofthestorm_X64.EXE") 4242;
               mkProcess (wide "HeroesOfTheStorm.exe") 5000] = Some pes
         ∧ first_with (λ pe, is_target ascii_towlower pe = true) pes pe
         ∧ pid' = th32ProcessID pe)
    ∧ ∃ before, calls = before ++ [CloseSnapshot] ∧ CloseSnapshot ∉ before.
Proof.
  eexists _, _. split; [vm_compute; reflexivity|].
  apply (find_process_spec ascii_towlower
           (Some [mkProcess (wide "explorer.exe") 812;
                  mkProcess (wide "heroesofthestorm_X64.EXE") 4242;
                  mkProcess (wide "HeroesOfTheStorm.exe") 5000]) 0 true).
  vm_compute. reflexivity.
Defined.

(** ** The probe of the first save *)

Lemma probe_cell_sum bgra W H sB sG sR count d :
  0 < W → 0 < H → 4 * W * H ≤ INT_MAX →
  Z.of_nat (length bgra) = 4 * W * H →
  Forall (λ b, 0 ≤ b < 256) bgra →
  -5 ≤ d.1 ≤ 5 → -5 ≤ d.2 ≤ 5 → 0 ≤ count ≤ 1000 →
  0 ≤ sB ≤ 255 * count → 0 ≤ sG ≤ 255 * count → 0 ≤ sR ≤ 255 * count →
  let p := (W / 2 + d.2, H / 2 + d.1) in
  if in_image W H p
  then probe_cell bgra W H (W / 2) (H / 2) (Some (sB, sG, sR, count)) d
       = Some (sB + channel bgra W 0 p, sG + channel bgra W 1 p,
               sR + channel bgra W 2 p, count + 1)
       ∧ 0 ≤ channel bgra W 0 p ≤ 255 ∧ 0 ≤ channel bgra W 1 p ≤ 255
       ∧ 0 ≤ channel bgra W 2 p ≤ 255
  else probe_cell bgra W H (W / 2) (H / 2) (Some (sB, sG, sR, count)) d
       = Some (sB, sG, sR, count).
Proof.
  intros HW HH Hmax Hlen Hbytes Hd1 Hd2 Hc HsB HsG HsR p. unfold INT_MAX in Hmax.
  assert (HWb : W < 2 ^ 29) by nia.
  assert (HHb : H < 2 ^ 29) by nia.
  assert (Hcx : 0 ≤ W / 2 < W).
  { split; [apply Z.div_pos; lia|apply Z.div_lt_upper_bound; lia]. }
  assert (Hcy : 0 ≤ H / 2 < H).
  { split; [apply Z.div_pos; lia|apply Z.div_lt_upper_bound; lia]. }
  unfold probe_cell. cbn [mbind option_bind].
  rewrite !int_of_uint_small by lia.
  unfold int_add.
  rewrite (to_int_in_range (W / 2 + d.2)) by (unfold INT_MIN, INT_MAX; lia).
  cbn [mbind option_bind].
  rewrite (to_int_in_range (H / 2 + d.1)) by (unfold INT_MIN, INT_MAX; lia).
  cbn [mbind option_bind].
  unfold in_image, p. cbn [fst snd].
  destruct (_ && _) eqn:E; [|done].
  apply andb_true_iff in E as [E Hy%Z.ltb_lt].
  apply andb_true_iff in E as [E Hx%Z.ltb_lt].
  apply andb_true_iff in E as [Hx0%Z.leb_le Hy0%Z.leb_le].
  set (x := W / 2 + d.2) in *. set (y := H / 2 + d.1) in *.
  rewrite (uint32_small y), (uint32_small x) by lia.
  rewrite (uint32_small (y * W + x)) by nia.
  rewrite (uint32_small ((y * W + x) * 4)) by nia.
  assert (Hch : ∀ c, 0 ≤ c < 4 →
            rd bgra ((y * W + x) * 4 + c) = Some (channel bgra W c (x, y))
            ∧ 0 ≤ channel bgra W c (x, y) ≤ 255).
  { intros c Hk. rewrite rd_lookup by nia. unfold channel. cbn [fst snd].
    replace (4 * (y * W + x) + c) with ((y * W + x) * 4 + c) by lia.
    destruct (lookup_lt_is_Some_2 bgra (Z.to_nat ((y * W + x) * 4 + c)))
      as [v Hv]; [nia|].
    rewrite Hv. split; [done|].
    pose proof (Forall_lookup_1 _ _ _ _ Hbytes Hv) as Hr. simpl in *. lia. }
  destruct (Hch 0 ltac:(lia)) as [H0 B0]. rewrite Z.add_0_r in H0. rewrite H0.
  destruct (Hch 1 ltac:(lia)) as [-> B1].
  destruct (Hch 2 ltac:(lia)) as [-> B2]. cbn [mbind option_bind].
  rewrite !uint32_small by lia. done.
Qed.

Lemma probe_fold_sum bgra W H :
  0 < W → 0 < H → 4 * W * H ≤ INT_MAX →
  Z.of_nat (length bgra) = 4 * W * H →
  Forall (λ b, 0 ≤ b < 256) bgra →
  ∀ l sB sG sR count,
    Forall (λ d, -5 ≤ d.1 ≤ 5 ∧ -5 ≤ d.2 ≤ 5) l →
    0 ≤ count → count + Z.of_nat (length l) ≤ 1000 →
    0 ≤ sB ≤ 255 * count → 0 ≤ sG ≤ 255 * count → 0 ≤ sR ≤ 255 * count →
    let cells := List.filter (in_image W H)
                   (map (λ d : Z * Z, (W / 2 + d.2, H / 2 + d.1)) l) in
    foldl (probe_cell bgra W H (W / 2) (H / 2)) (Some (sB, sG, sR, count)) l
    = Some (sB + cells_sum bgra W 0 cells, sG + cells_sum bgra W 1 cells,
            sR + cells_sum bgra W 2 cells, count + Z.of_nat (length cells)).
Proof.
  intros HW HH Hmax Hlen Hbytes.
  induction l as [|d l IH]; intros sB sG sR count Hl Hc Hn HsB HsG HsR;
    cbn [foldl map List.filter].
  - unfold cells_sum. simpl. by rewrite !Z.add_0_r.
  - inversion Hl as [|? ? [Hd1 Hd2] Hl']; subst.
    cbn [length] in Hn.
    pose proof (probe_cell_sum bgra W H sB sG sR count d HW HH Hmax Hlen Hbytes
                  Hd1 Hd2 ltac:(lia) HsB HsG HsR) as Hcell.
    cbn zeta in Hcell.
    destruct (in_image W H (W / 2 + d.2, H / 2 + d.1)).
    + destruct Hcell as (-> & B0 & B1 & B2).
      rewrite IH by (done || lia).
      unfold cells_sum. cbn [map foldr length].
      f_equal. f_equal; [f_equal; [f_equal|]|]; lia.
    + rewrite Hcell. by rewrite IH by (done || lia).
Qed.

(** On every image of a positive size that an [int] can index, the probe
    reads inside the buffer and writes its two lines.  The first gives the
    four bytes of the pixel at the centre [(W / 2, H / 2)].  The second
    gives, for each of the channels B, G and R, the sum of that byte over
    the pixels of the image that lie in the window of ten by ten around the
    centre, from five before it to four after it each way, divided (towards
    zero) by the number of these pixels; the centre is one of them, so the
    window is never empty. *)
Theorem probe_lines bgra W H :
  0 < W → 0 < H → 4 * W * H ≤ INT_MAX →
  Z.of_nat (length bgra) = 4 * W * H →
  Forall (λ b, 0 ≤ b < 256) bgra →
  ∃ b g r a,
    probe bgra W H
    = Some [probe_center b g r a;
            probe_avg10x10 (window_sum bgra W H 0 / window_count W H)
                           (window_sum bgra W H 1 / window_count W H)
                           (window_sum bgra W H 2 / window_count W H)]
    ∧ take 4 (drop (Z.to_nat (4 * (H / 2 * W + W / 2))) bgra) = [b; g; r; a]
    ∧ (W / 2, H / 2) ∈ probe_window W H
    ∧ 1 ≤ window_count W H ≤ 100.
Proof.
  intros HW HH Hmax Hlen Hbytes.
  pose proof (probe_fold_sum bgra W H HW HH Hmax Hlen Hbytes probe_offsets
                0 0 0 0 probe_offsets_range ltac:(lia)
                ltac:(vm_compute; discriminate) ltac:(lia) ltac:(lia) ltac:(lia))
    as Hfold.
  cbn zeta in Hfold. rewrite !Z.add_0_l in Hfold.
  fold (probe_window W H) in Hfold.
  fold (window_sum bgra W H 0) (window_sum bgra W H 1) (window_sum bgra W H 2)
       (window_count W H) in Hfold.
  unfold INT_MAX in Hmax.
  assert (Hcx : 0 ≤ W / 2 < W).
  { split; [apply Z.div_pos; lia|apply Z.div_lt_upper_bound; lia]. }
  assert (Hcy : 0 ≤ H / 2 < H).
  { split; [apply Z.div_pos; lia|apply Z.div_lt_upper_bound; lia]. }
  assert (Hcentre : (W / 2, H / 2) ∈ probe_window W H).
  { apply list_elem_of_In, filter_In. split.
    - apply in_map_iff. exists (0, 0). cbn [fst snd]. rewrite !Z.add_0_r.
      split; [done|]. vm_compute. tauto.
    - unfold in_image. cbn [fst snd].
      rewrite !andb_true_iff, !Z.leb_le, !Z.ltb_lt. lia. }
  assert (Hcount : 1 ≤ window_count W H ≤ 100).
  { unfold window_count. split.
    - destruct (probe_window W H); [by apply elem_of_nil in Hcentre|].
      cbn [length]. lia.
    - unfold probe_window.
      pose proof (List.filter_length_le (in_image W H)
                    (map (λ d : Z * Z, (W / 2 + d.2, H / 2 + d.1)) probe_offsets))
        as Hle.
      rewrite length_map in Hle.
      change (length probe_offsets) with 100%nat in Hle. lia. }
  unfold probe.
  rewrite (proj2 (Z.ltb_lt _ _) (proj2 Hcx)), (proj2 (Z.ltb_lt _ _) (proj2 Hcy)).
  cbn [andb].
  rewrite (uint32_small (H / 2 * W)) by nia.
  rewrite (uint32_small (H / 2 * W + W / 2)) by nia.
  rewrite (uint32_small ((H / 2 * W + W / 2) * 4)) by nia.
  assert (Hin : ∀ k, 0 ≤ k < 4 → is_Some (rd bgra ((H / 2 * W + W / 2) * 4 + k))).
  { intros k Hk. apply rd_in_bounds. nia. }
  destruct (Hin 0 ltac:(lia)) as [p0 Hp0]. rewrite Z.add_0_r in Hp0. rewrite Hp0.
  destruct (Hin 1 ltac:(lia)) as [p1 Hp1]. rewrite Hp1.
  destruct (Hin 2 ltac:(lia)) as [p2 Hp2]. rewrite Hp2.
  destruct (Hin 3 ltac:(lia)) as [p3 Hp3]. rewrite Hp3.
  cbn [mbind option_bind]. rewrite Hfold. cbn [mbind option_bind].
  destruct (Z.eqb_spec (window_count W H) 0); [lia|].
  exists p0, p1, p2, p3. split; [reflexivity|].
  split; [|done].
  apply rd_Some in Hp0 as (_ & Hp0). apply rd_Some in Hp1 as (_ & Hp1).
  apply rd_Some in Hp2 as (_ & Hp2). apply rd_Some in Hp3 as (_ & Hp3).
  set (i := Z.to_nat (4 * (H / 2 * W + W / 2))).
  replace (Z.to_nat ((H / 2 * W + W / 2) * 4)) with i in Hp0 by (unfold i; lia).
  replace (Z.to_nat ((H / 2 * W + W / 2) * 4 + 1)) with (i + 1)%nat in Hp1
    by (unfold i; lia).
  replace (Z.to_nat ((H / 2 * W + W / 2) * 4 + 2)) with (i + 2)%nat in Hp2
    by (unfold i; lia).
  replace (Z.to_nat ((H / 2 * W + W / 2) * 4 + 3)) with (i + 3)%nat in Hp3
    by (unfold i; lia).
  apply list_eq. intros [|[|[|[|k]]]];
    rewrite lookup_take, ?lookup_drop; simpl;
    rewrite ?Nat.add_0_r; try done.
  all: try (by rewrite lookup_take_ge by lia).
Qed.

Lemma probe_lines_witness :
  ∃ b g r a,
    probe [10; 20; 30; 255] 1 1
    = Some [probe_center b g r a;
            probe_avg10x10 (window_sum [10; 20; 30; 255] 1 1 0 / window_count 1 1)
                           (window_sum [10; 20; 30; 255] 1 1 1 / window_count 1 1)
                           (window_sum [10; 20; 30; 255] 1 1 2 / window_count 1 1)]
    ∧ take 4 (drop (Z.to_nat (4 * (1 / 2 * 1 + 1 / 2))) [10; 20; 30; 255])
      = [b; g; r; a]
    ∧ (1 / 2, 1 / 2) ∈ probe_window 1 1
    ∧ 1 ≤ window_count 1 1 ≤ 100.
Proof.
  apply (probe_lines [10; 20; 30; 255] 1 1);
    [lia | lia | vm_compute; discriminate | reflexivity |].
  repeat (constructor; [lia|]). constructor.
Defined.

(** ** Edge cases *)

(** A frame whose surface gives no texture is counted and its line is
    written, and that is all: the lock is not taken, and the shared frame
    buffer, the textures and the files are left as they were. *)
Theorem frame_without_texture env s a s' e :
  FrameArrived env s = Some (a, s', e) →
  running s = true → frame_available env = true →
  access_ok env = false ∨ texture env = None →
  frameEvents s' = uint64 (frameEvents s + 1)
  ∧ log_lines e = [frame_event (uint64 (frameEvents s + 1))]
  ∧ shared s' = shared s ∧ gpu s' = gpu s ∧ files s' = files s
  ∧ (MutexLock ∉ e).
Proof.
  intros Hr Hrn Hav Hno. unfold FrameArrived in Hr.
  apply bind_Some in Hr as (? & ? & ? & ? & (-> & ->)%emit_Some & Hr & ->).
  apply bind_Some in Hr as (? & ? & ? & ? & (-> & -> & ->)%get_Some & Hr & ->).
  rewrite Hrn, Hav in Hr. simpl in Hr.
  assert (Hskip : (if negb (access_ok env) then skip
                   else match texture env with
                        | Some src => update (alloc_ok env) src
                        | None => skip
                        end) = skip).
  { destruct Hno as [-> | ->]; [done|]. by destruct (access_ok env). }
  rewrite Hskip in Hr. step_inv.
  repeat progress (rewrite ?log_lines_app, ?log_lines_log_effects; simpl).
  repeat split; try done.
  apply not_elem_of_Forall.
  do 4 (constructor; [done|]).
  apply Forall_app. split; [|by repeat constructor].
  eapply Forall_weaken; [|apply log_effects_log]. by intros ? ? ->.
Qed.

Lemma frame_without_texture_witness :
  ∃ a s' e,
    FrameArrived (mkFrameEnv true false None true)
      (session_start (initial_state "base")) = Some (a, s', e)
    ∧ frameEvents s' = uint64 (frameEvents (session_start (initial_state "base")) + 1)
    ∧ log_lines e
      = [frame_event (uint64 (frameEvents (session_start (initial_state "base")) + 1))]
    ∧ shared s' = shared (session_start (initial_state "base"))
    ∧ gpu s' = gpu (session_start (initial_state "base"))
    ∧ files s' = files (session_start (initial_state "base"))
    ∧ (MutexLock ∉ e).
Proof.
  eexists _, _, _. split; [vm_compute; reflexivity|].
  eapply (frame_without_texture (mkFrameEnv true false None true)
            (session_start (initial_state "base")));
    [vm_compute; reflexivity | reflexivity | reflexivity | left; reflexivity].
Defined.

(** An image without lines: for a height of zero [BmpWriter::write] reads
    nothing from the buffer, writes the two headers alone, 54 bytes that
    give 54 as the size of the file, and returns [true]. *)
Theorem bmp_write_no_lines (bgra : list Z) (w : Z) :
  0 ≤ w → 3 * w + 3 ≤ INT_MAX →
  ∃ out, BmpWriter.write true bgra w 0 = Some (Some out)
         ∧ length out = 54%nat ∧ get32 out 2 = 54 ∧ get32 out 18 = w.
Proof.
  intros Hw Hmax. unfold INT_MAX in Hmax.
  assert (Hpad : 0 ≤ (4 - (3 * w) mod 4) mod 4 < 4) by (apply Z.mod_pos_bound; lia).
  unfold BmpWriter.write, int_neg, int_mul, int_add.
  rewrite (to_int_in_range (- 0)) by (unfold INT_MIN, INT_MAX; lia).
  cbn [mbind option_bind].
  rewrite (to_int_in_range (w * 3)) by (unfold INT_MIN, INT_MAX; lia).
  cbn [mbind option_bind].
  rewrite pad_eq by lia.
  rewrite (to_int_in_range (w * 3 + _)) by (unfold INT_MIN, INT_MAX; lia).
  cbn [mbind option_bind].
  rewrite Z.mul_0_r.
  rewrite (to_int_in_range 0) by (unfold INT_MIN, INT_MAX; lia).
  cbn [mbind option_bind negb].
  destruct (Z.ltb_spec (w * 3 + (4 - (3 * w) mod 4) mod 4) 0); [lia|].
  change (seqZ 0 0) with (@nil Z). cbn [mapM mbind option_bind mret option_ret concat].
  eexists. split; [reflexivity|]. split; [reflexivity|]. split.
  - reflexivity.
  - unfold get32.
    cbn [drop app BmpWriter.fh_bytes BmpWriter.ih_bytes le16 le32 BmpWriter.biWidth].
    rewrite le32_value. apply Z.mod_small. lia.
Qed.

Lemma bmp_write_no_lines_witness :
  ∃ out, BmpWriter.write true [] 7 0 = Some (Some out)
         ∧ length out = 54%nat ∧ get32 out 2 = 54 ∧ get32 out 18 = 7.
Proof.
  apply (bmp_write_no_lines [] 7); [lia | vm_compute; discriminate].
Defined.
(** ** [log_line] *)

Lemma ends_in_separator_app (p q : string) :
  q ≠ "" → ends_in_separator (p +:+ q) = ends_in_separator q.
Proof.
  intros Hq. induction p as [|c p IH]; [done|].
  change (String c p +:+ q) with (String c (p +:+ q)).
  cbn [ends_in_separator]. rewrite IH.
  destruct (p +:+ q) eqn:E; [|done].
  destruct p; [|done]. by destruct q.
Qed.

Lemma needs_separator_app (p q : string) :
  (3 ≤ String.length q)%nat → ends_in_separator q = false →
  needs_separator (p +:+ q) = true.
Proof.
  intros Hlen Hq.
  assert (q ≠ "") as Hne by (intros ->; simpl in Hlen; lia).
  assert (needs_separator (p +:+ q)
          = negb (ends_in_separator (p +:+ q) || is_drive (p +:+ q))) as ->.
  { destruct (p +:+ q) eqn:E; [|done]. destruct p; [|done]. by destruct q. }
  rewrite ends_in_separator_app, Hq by done.
  assert (is_drive (p +:+ q) = false) as ->; [|done].
  destruct q as [|a [|b [|c q]]]; simpl in Hlen; try lia.
  by destruct p as [|x [|y [|z p]]].
Qed.

Lemma log_file_eq (base : string) :
  log_file base
  = base +:+ (if needs_separator base then "/" else "")
         +:+ "sessions/current/capture.log".
Proof.
  unfold log_file, sessions_dir.
  assert (∀ p q, (3 ≤ String.length q)%nat → ends_in_separator q = false →
                 ∀ r, path_append (p +:+ q) r = p +:+ q +:+ "/" +:+ r) as Hstep.
  { intros p q Hlen Hq r. unfold path_append.
    by rewrite needs_separator_app, string_app_assoc. }
  assert (path_append base "sessions"
          = (base +:+ (if needs_separator base then "/" else "")) +:+ "sessions")
    as ->.
  { unfold path_append. destruct (needs_separator base).
    - by rewrite string_app_assoc.
    - rewrite string_app_assoc. reflexivity. }
  set (B := base +:+ (if needs_separator base then "/" else "")).
  rewrite Hstep by (simpl; done || lia).
  change ("sessions" +:+ "/" +:+ "current") with ("sessions/" +:+ "current").
  rewrite <- (string_app_assoc B "sessions/" "current").
  rewrite Hstep by (simpl; done || lia).
  unfold B. rewrite !string_app_assoc. reflexivity.
Qed.

(** The saver joins the name of a frame to the frames directory with one
    separator, as [operator/] does after a directory name. *)
Lemma frames_path_join (base name : string) :
  path_append (path_append (sessions_dir base) "frames") name
  = path_append (sessions_dir base) "frames" +:+ "/" +:+ name.
Proof.
  assert (∀ p, needs_separator (path_append p "frames") = true) as Hn.
  { intros p. unfold path_append.
    destruct (needs_separator p).
    - rewrite <- (string_app_assoc p "/" "frames").
      apply needs_separator_app; [simpl; lia|done].
    - apply needs_separator_app; [simpl; lia|done]. }
  unfold path_append at 1. by rewrite Hn.
Qed.

(** Lines logged one after the other: each call tries once to open the log
    file for appending, and the file is the one named
    [sessions/current/capture.log] under the base directory, joined to it as
    [operator/] does (no separator after an empty base, after a drive name
    or after a separator); the lines that are appended are those of the
    calls at which the file opened, in the order of the calls; whether it
    opens or not, each line reaches the debugger and [stderr], in the same
    order; the directory of the log is created by the first call of the
    process and by no later one. *)
Theorem log_line_sequence (msgs : list LogMsg) (s : State) :
  ∃ s' e,
    mapM log_line msgs s = Some (replicate (length msgs) tt, s', e)
    ∧ List.filter is_append e
      = imap (λ i m, FsAppendLine (log_file (base_path s)) m (log_opens s i)) msgs
    ∧ log_file (base_path s)
      = base_path s +:+ (if needs_separator (base_path s) then "/" else "")
                    +:+ "sessions/current/capture.log"
    ∧ omap appended e
      = map (λ m, (log_file (base_path s), m)) (kept (log_opens s) msgs)
    ∧ debug_lines e = msgs
    ∧ log_lines e = msgs
    ∧ List.filter is_mkdir e
      = (if logPath_set s || bool_decide (msgs = []) then []
         else [FsCreateDirectories (sessions_dir (base_path s))])
    ∧ logPath_set s' = logPath_set s || negb (bool_decide (msgs = []))
    ∧ (∀ n, log_opens s' n = log_opens s (length msgs + n)%nat).
Proof.
  revert s. induction msgs as [|m msgs IH]; intros s.
  - eexists _, _. split; [reflexivity|]. simpl.
    rewrite orb_true_r, orb_false_r.
    split; [done|]. split; [apply log_file_eq|]. done.
  - destruct (IH (logged s))
      as (s' & e & Hrun & Hatt & _ & Happ & Hdbg & Hlines & Hmk & Hset & Hop).
    eexists _, _. split.
    { cbn [mapM]. erewrite bind_run by apply log_line_run.
      erewrite bind_run by exact Hrun. reflexivity. }
    rewrite app_nil_r.
    split; [|split; [|split; [|split; [|split; [|split; [|split]]]]]].
    + rewrite List.filter_app, Hatt. unfold log_effects.
      by destruct (logPath_set s).
    + apply log_file_eq.
    + rewrite omap_app, Happ. unfold log_effects. cbn [kept].
      rewrite map_app.
      change (log_opens (logged s)) with (λ n, log_opens s (S n)).
      change (base_path (logged s)) with (base_path s).
      by destruct (logPath_set s), (log_opens s 0%nat).
    + unfold debug_lines in *. rewrite omap_app, Hdbg. unfold log_effects.
      by destruct (logPath_set s).
    + by rewrite log_lines_app, log_lines_log_effects, Hlines.
    + rewrite List.filter_app, Hmk. unfold log_effects.
      by destruct (logPath_set s).
    + rewrite Hset. simpl. by rewrite orb_true_r.
    + intros n. by rewrite Hop.
Qed.
